(** * BFEngine, [CGraphics]: the 2D geometry batching core

    A shallow embedding of [bfe-graphics/core/graphics.cpp].

    Conventions of the model.
    - [double] and [GLfloat] values are real numbers ([R]); the conversions
      [float(...)] and [double(...)] are the identity.  The one exception
      is the running angle of the loops [while (fAng < MATH_2PI)] of
      [circle] and [filledCircle]: how many rounds such a loop makes is
      decided by rounded additions and a comparison of doubles, so the
      angle is kept as the IEEE 754 binary64 number it is, with the
      arithmetic of the processor, and only its value is passed on to sine
      and cosine as a real number.
    - The unsigned 32-bit cursors and counters are natural numbers; the
      model agrees with the source as long as no counter reaches [2^32].
    - [std::vector::operator[]] past the end is undefined behaviour in the
      source.  A buffer write past the end is dropped here, while the write
      cursor still advances, so that an overflow stays observable as a
      cursor above the capacity.
    - An operation returns [None] where the source has no defined result:
      the null [m_pRenderMode] is dereferenced, or an integer is divided by
      zero.  The loops that run on a [double] angle are given fuel and
      return [None] as well when it runs out.
    - Calls that only bind, allocate or select a shader are not recorded.
      What is uploaded and drawn is appended to the device trace
      [m_Device]; diagnostics are appended to [m_Log].
    - The vectors are sized by [m_unIndexMax], declared in a header that is
      not part of the sources at hand; the design notes give the index
      budget [GRAPHICS_SIZE_OF_INDEX_BUFFER] as the capacity. *)

From Stdlib Require Import Reals Lra Lia ZArith Ascii String.
From Stdlib Require Floats Uint63.
From stdpp Require Import base option list strings gmap.

Local Open Scope nat_scope.

(** ** Data model *)

Inductive RenderModeType := VERT3COL4 | VERT3COL4TEX2 | VERT3COL4TEX2X2.

#[global] Instance RenderModeType_eq_dec : EqDecision RenderModeType.
Proof. solve_decision. Defined.

(** A [CRenderMode] is owned elsewhere; the core only reads its type and the
    identifier of its shader program. *)
Record CRenderMode := mkRenderMode {
  getShaderProgramID : nat;
  getRenderModeType : RenderModeType
}.

Inductive PolygonType := LINE_SINGLE | LINE_STRIP | LINE_LOOP | FILLED.

#[global] Instance PolygonType_eq_dec : EqDecision PolygonType.
Proof. solve_decision. Defined.

Definition Vector2d : Type := R * R.

Record ViewPortType := mkViewPort {
  leftplane : R;
  rightplane : R;
  bottomplane : R;
  topplane : R
}.

(** The accumulation buffers with their write cursors. *)
Record Buffers := mkBuffers {
  m_vecVertices : list R;
  m_vecColours : list R;
  m_vecUV0s : list R;
  m_vecUV1s : list R;
  m_vecIndicesLines : list nat;
  m_vecIndicesPoints : list nat;
  m_vecIndicesTriangles : list nat;
  m_uncI : nat;
  m_unIndex : nat;
  m_unIndexVerts : nat;
  m_unIndexCol : nat;
  m_unIndexUV0 : nat;
  m_unIndexUV1 : nat;
  m_unIndexLines : nat;
  m_unIndexPoints : nat;
  m_unIndexTriangles : nat
}.

(** The line in progress between [beginLine] and [endLine]. *)
Record LineState := mkLineState {
  m_nLineNrOfVerts : nat;
  m_PolyType : PolygonType;
  m_bLineBatchFirst : bool;
  m_bLineBatchCall : bool;
  m_aVertFirst : R * R
}.

Record BatchState := mkBatchState {
  m_RenderModeStack : list CRenderMode;  (* head of the list = top *)
  m_pRenderMode : option CRenderMode;    (* [None] = nullptr *)
  m_RenderModeType : RenderModeType
}.

Record FrameCounters := mkFrameCounters {
  m_nDrawCalls : nat;
  m_nLines : nat;
  m_nPoints : nat;
  m_nTriangles : nat;
  m_nVerts : nat
}.

(** What the device receives. *)
Inductive GLPrimitive := GL_LINES | GL_POINTS | GL_TRIANGLES.

(** One [glDrawElements] call: the indices uploaded just before it by
    [glBufferData], and the element count passed to the draw. *)
Record DrawCall := mkDrawCall {
  dc_prim : GLPrimitive;
  dc_indices : list nat;
  dc_count : nat
}.

(** One flush: the attribute data uploaded and the draws issued. *)
Record Submission := mkSubmission {
  sub_mode : CRenderMode;
  sub_vertices : list R;
  sub_colours : list R;
  sub_uv0s : list R;
  sub_uv1s : list R;
  sub_draws : list DrawCall
}.

Inductive LogEntry :=
| WARNING_MSG (src msg : string)
| NOTICE_MSG (src msg : string)
| INFO_MSG (src msg : string).

Record CGraphics := mkGraphics {
  m_vecCamPos : Vector2d;
  m_fCamAng : R;
  m_fCamZoom : R;
  m_ViewPort : ViewPortType;
  m_unWidthScr : Z;                      (* unsigned short *)
  m_unHeightScr : Z;                     (* unsigned short *)
  m_aColour : R * R * R * R;
  m_fDepth : R;
  m_SinCache : list R;
  m_CosCache : list R;
  m_Buf : Buffers;
  m_Line : LineState;
  m_Batch : BatchState;
  m_Frame : FrameCounters;
  m_RenderModesByName : gmap string CRenderMode;
  m_Device : list Submission;
  m_Log : list LogEntry
}.

(** Field updates. *)
Definition set_Buf (b : Buffers) (g : CGraphics) : CGraphics :=
  mkGraphics (m_vecCamPos g) (m_fCamAng g) (m_fCamZoom g) (m_ViewPort g)
    (m_unWidthScr g) (m_unHeightScr g) (m_aColour g) (m_fDepth g)
    (m_SinCache g) (m_CosCache g) b (m_Line g) (m_Batch g) (m_Frame g)
    (m_RenderModesByName g) (m_Device g) (m_Log g).

Definition set_Line (l : LineState) (g : CGraphics) : CGraphics :=
  mkGraphics (m_vecCamPos g) (m_fCamAng g) (m_fCamZoom g) (m_ViewPort g)
    (m_unWidthScr g) (m_unHeightScr g) (m_aColour g) (m_fDepth g)
    (m_SinCache g) (m_CosCache g) (m_Buf g) l (m_Batch g) (m_Frame g)
    (m_RenderModesByName g) (m_Device g) (m_Log g).

Definition set_Batch (s : BatchState) (g : CGraphics) : CGraphics :=
  mkGraphics (m_vecCamPos g) (m_fCamAng g) (m_fCamZoom g) (m_ViewPort g)
    (m_unWidthScr g) (m_unHeightScr g) (m_aColour g) (m_fDepth g)
    (m_SinCache g) (m_CosCache g) (m_Buf g) (m_Line g) s (m_Frame g)
    (m_RenderModesByName g) (m_Device g) (m_Log g).

Definition set_Frame (f : FrameCounters) (g : CGraphics) : CGraphics :=
  mkGraphics (m_vecCamPos g) (m_fCamAng g) (m_fCamZoom g) (m_ViewPort g)
    (m_unWidthScr g) (m_unHeightScr g) (m_aColour g) (m_fDepth g)
    (m_SinCache g) (m_CosCache g) (m_Buf g) (m_Line g) (m_Batch g) f
    (m_RenderModesByName g) (m_Device g) (m_Log g).

Definition set_Device (d : list Submission) (g : CGraphics) : CGraphics :=
  mkGraphics (m_vecCamPos g) (m_fCamAng g) (m_fCamZoom g) (m_ViewPort g)
    (m_unWidthScr g) (m_unHeightScr g) (m_aColour g) (m_fDepth g)
    (m_SinCache g) (m_CosCache g) (m_Buf g) (m_Line g) (m_Batch g) (m_Frame g)
    (m_RenderModesByName g) d (m_Log g).

Definition set_Log (l : list LogEntry) (g : CGraphics) : CGraphics :=
  mkGraphics (m_vecCamPos g) (m_fCamAng g) (m_fCamZoom g) (m_ViewPort g)
    (m_unWidthScr g) (m_unHeightScr g) (m_aColour g) (m_fDepth g)
    (m_SinCache g) (m_CosCache g) (m_Buf g) (m_Line g) (m_Batch g) (m_Frame g)
    (m_RenderModesByName g) (m_Device g) l.

Definition set_Screen (vp : ViewPortType) (w h : Z) (g : CGraphics) : CGraphics :=
  mkGraphics (m_vecCamPos g) (m_fCamAng g) (m_fCamZoom g) vp
    w h (m_aColour g) (m_fDepth g)
    (m_SinCache g) (m_CosCache g) (m_Buf g) (m_Line g) (m_Batch g) (m_Frame g)
    (m_RenderModesByName g) (m_Device g) (m_Log g).

Definition set_Cam (p : Vector2d) (ang zoom : R) (g : CGraphics) : CGraphics :=
  mkGraphics p ang zoom (m_ViewPort g)
    (m_unWidthScr g) (m_unHeightScr g) (m_aColour g) (m_fDepth g)
    (m_SinCache g) (m_CosCache g) (m_Buf g) (m_Line g) (m_Batch g) (m_Frame g)
    (m_RenderModesByName g) (m_Device g) (m_Log g).

(** ** The render-batch state machine *)

(** The nine assignments that close [beginRenderBatch] and
    [restartRenderBatchInternal]: every cursor back to zero, the buffers'
    contents left as they are. *)
Definition resetCursors (b : Buffers) : Buffers :=
  mkBuffers (m_vecVertices b) (m_vecColours b) (m_vecUV0s b) (m_vecUV1s b)
    (m_vecIndicesLines b) (m_vecIndicesPoints b) (m_vecIndicesTriangles b)
    0 0 0 0 0 0 0 0 0.

(** The [switch] on the render mode type of [endRenderBatch] and
    [restartRenderBatchInternal]: which index streams are uploaded and
    drawn.  Each draw passes the whole vector's [size()] as its count. *)
Definition drawsOf (t : RenderModeType) (b : Buffers) : list DrawCall :=
  match t with
  | VERT3COL4 =>
      [ mkDrawCall GL_LINES (take (m_unIndexLines b) (m_vecIndicesLines b))
          (length (m_vecIndicesLines b));
        mkDrawCall GL_POINTS (take (m_unIndexPoints b) (m_vecIndicesPoints b))
          (length (m_vecIndicesPoints b));
        mkDrawCall GL_TRIANGLES
          (take (m_unIndexTriangles b) (m_vecIndicesTriangles b))
          (length (m_vecIndicesTriangles b)) ]
  | VERT3COL4TEX2 | VERT3COL4TEX2X2 =>
      [ mkDrawCall GL_TRIANGLES
          (take (m_unIndexTriangles b) (m_vecIndicesTriangles b))
          (length (m_vecIndicesTriangles b)) ]
  end.

Definition uploadOf (m : CRenderMode) (b : Buffers) : Submission :=
  let t := getRenderModeType m in
  mkSubmission m
    (take (m_unIndexVerts b) (m_vecVertices b))
    (take (m_unIndexCol b) (m_vecColours b))
    (match t with
     | VERT3COL4 => []
     | _ => take (m_unIndexUV0 b) (m_vecUV0s b)
     end)
    (match t with
     | VERT3COL4TEX2X2 => take (m_unIndexUV1 b) (m_vecUV1s b)
     | _ => []
     end)
    (drawsOf t b).

Definition countDraws (t : RenderModeType) (f : FrameCounters) (b : Buffers)
  : FrameCounters :=
  mkFrameCounters
    (m_nDrawCalls f + match t with VERT3COL4 => 3 | _ => 1 end)
    (m_nLines f + m_unIndexLines b)
    (m_nPoints f + m_unIndexPoints b)
    (m_nTriangles f + m_unIndexTriangles b)
    (m_nVerts f + m_unIndexVerts b).

(** The block under [if (bEnd)] of [endRenderBatch] up to the debug
    counters, which is also the first half of
    [restartRenderBatchInternal]: upload, draw, count. *)
Definition submitBatch (g : CGraphics) : option CGraphics :=
  m ← m_pRenderMode (m_Batch g);
  Some (set_Frame (countDraws (getRenderModeType m) (m_Frame g) (m_Buf g))
          (set_Device (m_Device g ++ [uploadOf m (m_Buf g)]) g)).

(** Modelled from the spec: the flag of a forced call, declared in a header
    that is not part of the sources at hand.  The default of the [_bForce]
    arguments, declared there as well, is the unforced call. *)
Definition GRAPHICS_RENDER_BATCH_CALL_FORCED : bool := true.

(** [endRenderBatch(GRAPHICS_RENDER_BATCH_CALL_FORCED)]: [bEnd] is set,
    [bBegin] is not. *)
Definition endRenderBatchForced (g : CGraphics) : option CGraphics :=
  submitBatch g.

Definition beginRenderBatch (_pRenderMode : CRenderMode) (_bForce : bool)
    (g : CGraphics) : option CGraphics :=
  '(bBegin, g1) ←
    (if _bForce then Some (true, g)
     else
       let st := m_Batch g in
       '(bBegin, g') ←
         match m_RenderModeStack st with
         | [] => Some (true, g)
         | top :: _ =>
             if decide (getRenderModeType top ≠ getRenderModeType _pRenderMode)
             then g' ← endRenderBatchForced g; Some (true, g')
             else Some (false, g)
         end;
       let st' := m_Batch g' in
       Some (bBegin,
             set_Batch (mkBatchState (_pRenderMode :: m_RenderModeStack st')
                          (m_pRenderMode st') (m_RenderModeType st')) g'));
  let g2 :=
    set_Batch (mkBatchState (m_RenderModeStack (m_Batch g1))
                 (Some _pRenderMode) (getRenderModeType _pRenderMode)) g1 in
  Some (if bBegin : bool then set_Buf (resetCursors (m_Buf g2)) g2 else g2).

Definition dquote : string := String "034"%char EmptyString.

Definition msgNotRegistered (name : string) : LogEntry :=
  WARNING_MSG "Graphics"
    ("Render mode " +:+ dquote +:+ name +:+ dquote +:+ " not registered").

Definition msgRenderStack : LogEntry :=
  WARNING_MSG "Graphics"
    "Something is wrong with the render stack. Did you forget to call <beginRenderBatch>?".

Section Logging.

(** The macro [DOM_DEV] of the logging framework is not part of the sources
    at hand: it guards a statement by the developer logging domain.
    [DOM_DEV] is [true] when that domain is enabled. *)
Variable DOM_DEV : bool.

Definition endRenderBatch (_bForce : bool) (g : CGraphics) : option CGraphics :=
  if _bForce then endRenderBatchForced g
  else
    let st := m_Batch g in
    match m_RenderModeStack st with
    | _ :: rest =>
        let g1 := set_Batch (mkBatchState rest (m_pRenderMode st)
                               (m_RenderModeType st)) g in
        match rest with
        | [] => submitBatch g1
        | top :: rest' =>
            if decide (getRenderModeType top ≠ m_RenderModeType st)
            then
              g2 ← submitBatch g1;
              let st2 := m_Batch g2 in
              beginRenderBatch top false
                (set_Batch (mkBatchState rest' (m_pRenderMode st2)
                              (m_RenderModeType st2)) g2)
            else Some g1
        end
    | [] =>
        Some (if DOM_DEV then set_Log (m_Log g ++ [msgRenderStack]) g else g)
    end.

Definition restartRenderBatch (_pRenderMode : CRenderMode) (g : CGraphics)
  : option CGraphics :=
  let st := m_Batch g in
  if bool_decide (m_RenderModeStack st ≠ [])
     && bool_decide (m_RenderModeType st = getRenderModeType _pRenderMode)
     && negb (m_unIndex (m_Buf g) =? 0)
  then g' ← endRenderBatch false g; beginRenderBatch _pRenderMode false g'
  else Some g.

(** The string-keyed overloads; the result pairs the returned [bool] with
    the state. *)
Definition beginRenderBatchByName (_strRenderModeName : string) (g : CGraphics)
  : option (bool * CGraphics) :=
  match m_RenderModesByName g !! _strRenderModeName with
  | Some m => g' ← beginRenderBatch m false g; Some (true, g')
  | None =>
      Some (false, set_Log (m_Log g ++ [msgNotRegistered _strRenderModeName]) g)
  end.

Definition restartRenderBatchByName (_strRenderModeName : string)
    (g : CGraphics) : option (bool * CGraphics) :=
  match m_RenderModesByName g !! _strRenderModeName with
  | Some m => g' ← restartRenderBatch m g; Some (true, g')
  | None =>
      Some (false, set_Log (m_Log g ++ [msgNotRegistered _strRenderModeName]) g)
  end.

End Logging.

(** ** Transform *)

Local Open Scope R_scope.

(** Modelled from the spec: the constants of [math_constants.h], which is
    not part of the sources at hand.  The design notes give the rotation of
    [screen2World] as a quarter turn less the camera angle, and the circle
    emitters step through one full turn. *)
Definition MATH_PI2 : R := PI / 2.
Definition MATH_2PI : R := 2 * PI.

(** [atan2] of the C library on real numbers: the angle of the point
    [(x, y)], in [(-PI, PI]], and [0] at the origin. *)
Definition atan2 (y x : R) : R :=
  if Rlt_dec 0 x then atan (y / x)
  else if Rlt_dec x 0 then
    (if Rle_dec 0 y then atan (y / x) + PI else atan (y / x) - PI)
  else if Rlt_dec 0 y then PI / 2
  else if Rlt_dec y 0 then - (PI / 2)
  else 0.

(** [Rotation2Dd(ang) * v] of Eigen. *)
Definition Rotation2Dd (ang : R) (v : Vector2d) : Vector2d :=
  (cos ang * fst v - sin ang * snd v, sin ang * fst v + cos ang * snd v).

Definition screen2World_xy (g : CGraphics) (_fX _fY : R) : Vector2d :=
  let vp := m_ViewPort g in
  let fX := ((rightplane vp - leftplane vp) / IZR (m_unWidthScr g) * _fX
             + leftplane vp) / m_fCamZoom g in
  let fY := ((topplane vp - bottomplane vp) / IZR (m_unHeightScr g) * _fY
             + bottomplane vp) / m_fCamZoom g in
  let fL := sqrt (fX * fX + fY * fY) in
  let fAtan := atan2 fX fY in
  (fL * cos (fAtan - (MATH_PI2 - m_fCamAng g)) + fst (m_vecCamPos g),
   fL * sin (fAtan - (MATH_PI2 - m_fCamAng g)) - snd (m_vecCamPos g)).

Definition screen2World (g : CGraphics) (_vecV : Vector2d) : Vector2d :=
  let vp := m_ViewPort g in
  let fX := ((rightplane vp - leftplane vp) / IZR (m_unWidthScr g) * fst _vecV
             + leftplane vp) / m_fCamZoom g in
  let fY := ((topplane vp - bottomplane vp) / IZR (m_unHeightScr g) * snd _vecV
             + bottomplane vp) / m_fCamZoom g in
  let fL := sqrt (fX * fX + fY * fY) in
  let fAtan := atan2 fX fY in
  (fL * cos (fAtan - (MATH_PI2 - m_fCamAng g)) + fst (m_vecCamPos g),
   fL * sin (fAtan - (MATH_PI2 - m_fCamAng g)) - snd (m_vecCamPos g)).

Definition world2Screen (g : CGraphics) (_vecV : Vector2d) : Vector2d :=
  let vp := m_ViewPort g in
  let rot := Rotation2Dd (m_fCamAng g) (fst _vecV, - snd _vecV) in
  let w := IZR (m_unWidthScr g) in
  ((fst rot * m_fCamZoom g - leftplane vp) * w
     / (rightplane vp - leftplane vp),
   (snd rot * m_fCamZoom g - - topplane vp) * w
     / (rightplane vp - leftplane vp)).

Definition setViewPort (_fLeft _fRight _fBottom _fTop : R) (g : CGraphics)
  : CGraphics :=
  set_Screen (mkViewPort _fLeft _fRight _fBottom _fTop)
    (m_unWidthScr g) (m_unHeightScr g) g.

Definition resetCam (g : CGraphics) : CGraphics := set_Cam (0, 0) 0 1 g.

Section Viewport.

(** The constant [GRAPHICS_PX_PER_METER] is declared in a header that is
    not part of the sources at hand; the model takes it as a parameter. *)
Variable GRAPHICS_PX_PER_METER : R.

Definition resizeViewport (_unWidthScr _unHeightScr : Z) (g : CGraphics)
  : CGraphics :=
  let r := IZR _unWidthScr * (0.5 / GRAPHICS_PX_PER_METER) in
  let t := IZR _unHeightScr * (0.5 / GRAPHICS_PX_PER_METER) in
  set_Log (m_Log g ++ [INFO_MSG "Graphics" "Viewport changed"])
    (set_Screen (mkViewPort (- r) r (- t) t) _unWidthScr _unHeightScr g).

End Viewport.

Local Close Scope R_scope.

(** ** Geometry buffers: the elementary writes *)

(** [m_vecVertices[m_unIndexVerts++] = x] *)
Definition putVert (x : R) (b : Buffers) : Buffers :=
  mkBuffers (<[m_unIndexVerts b := x]> (m_vecVertices b)) (m_vecColours b)
    (m_vecUV0s b) (m_vecUV1s b)
    (m_vecIndicesLines b) (m_vecIndicesPoints b) (m_vecIndicesTriangles b)
    (m_uncI b) (m_unIndex b) (S (m_unIndexVerts b)) (m_unIndexCol b)
    (m_unIndexUV0 b) (m_unIndexUV1 b)
    (m_unIndexLines b) (m_unIndexPoints b) (m_unIndexTriangles b).

(** [m_vecColours[m_unIndexCol++] = x] *)
Definition putCol (x : R) (b : Buffers) : Buffers :=
  mkBuffers (m_vecVertices b) (<[m_unIndexCol b := x]> (m_vecColours b))
    (m_vecUV0s b) (m_vecUV1s b)
    (m_vecIndicesLines b) (m_vecIndicesPoints b) (m_vecIndicesTriangles b)
    (m_uncI b) (m_unIndex b) (m_unIndexVerts b) (S (m_unIndexCol b))
    (m_unIndexUV0 b) (m_unIndexUV1 b)
    (m_unIndexLines b) (m_unIndexPoints b) (m_unIndexTriangles b).

(** [m_vecUV0s[m_unIndexUV0++] = x] *)
Definition putUV0 (x : R) (b : Buffers) : Buffers :=
  mkBuffers (m_vecVertices b) (m_vecColours b)
    (<[m_unIndexUV0 b := x]> (m_vecUV0s b)) (m_vecUV1s b)
    (m_vecIndicesLines b) (m_vecIndicesPoints b) (m_vecIndicesTriangles b)
    (m_uncI b) (m_unIndex b) (m_unIndexVerts b) (m_unIndexCol b)
    (S (m_unIndexUV0 b)) (m_unIndexUV1 b)
    (m_unIndexLines b) (m_unIndexPoints b) (m_unIndexTriangles b).

(** [m_vecUV1s[m_unIndexUV1++] = x] *)
Definition putUV1 (x : R) (b : Buffers) : Buffers :=
  mkBuffers (m_vecVertices b) (m_vecColours b)
    (m_vecUV0s b) (<[m_unIndexUV1 b := x]> (m_vecUV1s b))
    (m_vecIndicesLines b) (m_vecIndicesPoints b) (m_vecIndicesTriangles b)
    (m_uncI b) (m_unIndex b) (m_unIndexVerts b) (m_unIndexCol b)
    (m_unIndexUV0 b) (S (m_unIndexUV1 b))
    (m_unIndexLines b) (m_unIndexPoints b) (m_unIndexTriangles b).

(** [m_vecIndicesLines[m_unIndexLines++] = i] *)
Definition putLine (i : nat) (b : Buffers) : Buffers :=
  mkBuffers (m_vecVertices b) (m_vecColours b) (m_vecUV0s b) (m_vecUV1s b)
    (<[m_unIndexLines b := i]> (m_vecIndicesLines b))
    (m_vecIndicesPoints b) (m_vecIndicesTriangles b)
    (m_uncI b) (m_unIndex b) (m_unIndexVerts b) (m_unIndexCol b)
    (m_unIndexUV0 b) (m_unIndexUV1 b)
    (S (m_unIndexLines b)) (m_unIndexPoints b) (m_unIndexTriangles b).

(** [m_vecIndicesPoints[m_unIndexPoints++] = i] *)
Definition putPoint (i : nat) (b : Buffers) : Buffers :=
  mkBuffers (m_vecVertices b) (m_vecColours b) (m_vecUV0s b) (m_vecUV1s b)
    (m_vecIndicesLines b)
    (<[m_unIndexPoints b := i]> (m_vecIndicesPoints b))
    (m_vecIndicesTriangles b)
    (m_uncI b) (m_unIndex b) (m_unIndexVerts b) (m_unIndexCol b)
    (m_unIndexUV0 b) (m_unIndexUV1 b)
    (m_unIndexLines b) (S (m_unIndexPoints b)) (m_unIndexTriangles b).

(** [m_vecIndicesTriangles[m_unIndexTriangles++] = i] *)
Definition putTri (i : nat) (b : Buffers) : Buffers :=
  mkBuffers (m_vecVertices b) (m_vecColours b) (m_vecUV0s b) (m_vecUV1s b)
    (m_vecIndicesLines b) (m_vecIndicesPoints b)
    (<[m_unIndexTriangles b := i]> (m_vecIndicesTriangles b))
    (m_uncI b) (m_unIndex b) (m_unIndexVerts b) (m_unIndexCol b)
    (m_unIndexUV0 b) (m_unIndexUV1 b)
    (m_unIndexLines b) (m_unIndexPoints b) (S (m_unIndexTriangles b)).

(** [m_unIndex = n] *)
Definition set_unIndex (n : nat) (b : Buffers) : Buffers :=
  mkBuffers (m_vecVertices b) (m_vecColours b) (m_vecUV0s b) (m_vecUV1s b)
    (m_vecIndicesLines b) (m_vecIndicesPoints b) (m_vecIndicesTriangles b)
    (m_uncI b) n (m_unIndexVerts b) (m_unIndexCol b)
    (m_unIndexUV0 b) (m_unIndexUV1 b)
    (m_unIndexLines b) (m_unIndexPoints b) (m_unIndexTriangles b).

(** [m_uncI = n] *)
Definition set_uncI (n : nat) (b : Buffers) : Buffers :=
  mkBuffers (m_vecVertices b) (m_vecColours b) (m_vecUV0s b) (m_vecUV1s b)
    (m_vecIndicesLines b) (m_vecIndicesPoints b) (m_vecIndicesTriangles b)
    n (m_unIndex b) (m_unIndexVerts b) (m_unIndexCol b)
    (m_unIndexUV0 b) (m_unIndexUV1 b)
    (m_unIndexLines b) (m_unIndexPoints b) (m_unIndexTriangles b).

Notation "b |> f" := (f b) (at level 68, left associativity, only parsing).

(** [m_unIndex++] as a statement. *)
Definition incIndex (b : Buffers) : Buffers := set_unIndex (m_unIndex b + 1) b.

(** [m_uncI += n] *)
Definition addCost (n : nat) (b : Buffers) : Buffers := set_uncI (m_uncI b + n) b.

(** [m_vecIndicesLines[m_unIndexLines++] = m_unIndex++] *)
Definition putLineInc (b : Buffers) : Buffers := b |> putLine (m_unIndex b) |> incIndex.

(** [m_vecIndicesLines[m_unIndexLines++] = m_unIndex] *)
Definition putLineCur (b : Buffers) : Buffers := b |> putLine (m_unIndex b).

(** [m_vecIndicesPoints[m_unIndexPoints++] = m_unIndex++] *)
Definition putPointInc (b : Buffers) : Buffers := b |> putPoint (m_unIndex b) |> incIndex.

(** [m_vecIndicesTriangles[m_unIndexTriangles++] = m_unIndex++] *)
Definition putTriInc (b : Buffers) : Buffers := b |> putTri (m_unIndex b) |> incIndex.

(** The three writes of one vertex position. *)
Definition putVertex (x y depth : R) (b : Buffers) : Buffers :=
  b |> putVert x |> putVert y |> putVert depth.

(** The four writes of one vertex colour. *)
Definition putColour (c : R * R * R * R) (b : Buffers) : Buffers :=
  let '(c0, c1, c2, c3) := c in
  b |> putCol c0 |> putCol c1 |> putCol c2 |> putCol c3.

(** The values of [i] in [for (int i = lo; i < hi; i += step)], for a
    positive [step]. *)
Definition forRange (lo hi step : Z) : list Z :=
  (λ k, lo + step * k)%Z <$> seqZ 0 ((hi - lo + step - 1) `div` step).

(** [for (...) body], the state threaded through the iterations. *)
Definition forEach {A S : Type} (xs : list A) (body : A → S → S) (s : S) : S :=
  foldl (λ s x, body x s) s xs.

(** ** Lines *)

Definition beginLine (_PType : PolygonType) (g : CGraphics) : CGraphics :=
  let l := m_Line g in
  set_Line (mkLineState 0 _PType (m_bLineBatchFirst l) (m_bLineBatchCall l)
              (m_aVertFirst l)) g.

Definition set_bLineBatchCall (v : bool) (g : CGraphics) : CGraphics :=
  let l := m_Line g in
  set_Line (mkLineState (m_nLineNrOfVerts l) (m_PolyType l)
              (m_bLineBatchFirst l) v (m_aVertFirst l)) g.

Definition endLine (g : CGraphics) : CGraphics :=
  let l := m_Line g in
  let n := Z.of_nat (m_nLineNrOfVerts l) in
  let b :=
    if decide (m_PolyType l = LINE_SINGLE) then
      forEach (forRange 0 (n - 1) 2)
        (λ _ b, b |> putLineInc |> putLineInc) (m_Buf g)
    else
      let b1 :=
        forEach (forRange 0 (n - 1) 1)
          (λ _ b, b |> putLineInc |> putLineCur) (m_Buf g) in
      let b2 :=
        if m_bLineBatchCall l then b1
        else if bool_decide (m_PolyType l = LINE_LOOP)
                || bool_decide (m_PolyType l = FILLED) then
          if m_bLineBatchFirst l then
            (* the difference does not wrap when the line's vertices are
               the last [m_nLineNrOfVerts] ordinals handed out *)
            b1 |> putLine (m_unIndex b1 + 1 - m_nLineNrOfVerts l) |> putLineCur
          else
            b1 |> putVertex (fst (m_aVertFirst l)) (snd (m_aVertFirst l))
                    (m_fDepth g)
               |> putColour (m_aColour g)
               |> putLineInc |> putLineCur
        else b1 in
      incIndex b2 in
  set_Line (mkLineState (m_nLineNrOfVerts l) (m_PolyType l)
              (if negb (m_bLineBatchCall l) then true else m_bLineBatchFirst l)
              (m_bLineBatchCall l) (m_aVertFirst l))
    (set_Buf b g).

(** The second half of [restartRenderBatchInternal] resets the cursors; the
    first half is [submitBatch]. *)
Definition restartRenderBatchInternal (g : CGraphics) : option CGraphics :=
  g' ← submitBatch g;
  Some (set_Buf (resetCursors (m_Buf g')) g').

Section Emitters.

(** The constant [GRAPHICS_SIZE_OF_INDEX_BUFFER] is declared in a header
    that is not part of the sources at hand; the model takes it as a
    parameter. *)
Variable GRAPHICS_SIZE_OF_INDEX_BUFFER : nat.

(** [if (m_uncI > GRAPHICS_SIZE_OF_INDEX_BUFFER/2) restartRenderBatchInternal()] *)
Definition flushIfOver (g : CGraphics) : option CGraphics :=
  if GRAPHICS_SIZE_OF_INDEX_BUFFER / 2 <? m_uncI (m_Buf g)
  then restartRenderBatchInternal g
  else Some g.

(** Both overloads of [addVertex] have this body; the scalar one receives
    the two coordinates separately. *)
Definition addVertex (_vecV : Vector2d) (g : CGraphics) : option CGraphics :=
  let g1 := set_Buf (addCost 4 (m_Buf g)) g in
  g2 ←
    (if (GRAPHICS_SIZE_OF_INDEX_BUFFER / 2 <? m_uncI (m_Buf g1))
        && (m_nLineNrOfVerts (m_Line g1) mod 2 =? 0)
     then
       let l := m_Line g1 in
       let b := m_Buf g1 in
       let l1 :=
         if m_bLineBatchFirst l then
           (* the index is [m_unIndexVerts - 3*m_nLineNrOfVerts] *)
           mkLineState (m_nLineNrOfVerts l) (m_PolyType l) false
             (m_bLineBatchCall l)
             (nth (m_unIndexVerts b - 3 * m_nLineNrOfVerts l)
                (m_vecVertices b) 0%R,
              nth (m_unIndexVerts b - 3 * m_nLineNrOfVerts l + 1)
                (m_vecVertices b) 0%R)
         else l in
       let ga := set_bLineBatchCall true (set_Line l1 g1) in
       let gb := endLine ga in
       gc ← restartRenderBatchInternal gb;
       let gd := beginLine (m_PolyType (m_Line gc)) gc in
       Some (set_bLineBatchCall false gd)
     else Some g1);
  let l := m_Line g2 in
  Some (set_Line (mkLineState (m_nLineNrOfVerts l + 1) (m_PolyType l)
                    (m_bLineBatchFirst l) (m_bLineBatchCall l) (m_aVertFirst l))
          (set_Buf (m_Buf g2 |> putVertex (fst _vecV) (snd _vecV) (m_fDepth g2)
                             |> putColour (m_aColour g2)) g2)).

Definition addVertex_xy (_fX _fY : R) (g : CGraphics) : option CGraphics :=
  addVertex (_fX, _fY) g.

(** ** Primitive emitters *)

Definition dot (_vecV : Vector2d) (g : CGraphics) : option CGraphics :=
  flushIfOver
    (set_Buf (m_Buf g |> putVertex (fst _vecV) (snd _vecV) (m_fDepth g)
                      |> putColour (m_aColour g)
                      |> putPointInc
                      |> addCost 4) g).

(** [for (...) body] with a body that can fail. *)
Fixpoint forEachM {A S : Type} (xs : list A) (body : A → S → option S) (s : S)
  : option S :=
  match xs with
  | [] => Some s
  | x :: xs' => s' ← body x s; forEachM xs' body s'
  end.

(** One dot of [dots]: the alpha channel is scaled by [double(i) / size]. *)
Definition putDot (_Dots : list Vector2d) (_vecOffset : Vector2d)
    (depth : R) (c : R * R * R * R) (i : Z) (b : Buffers) : Buffers :=
  let '(c0, c1, c2, c3) := c in
  let d := nth (Z.to_nat i) _Dots (0, 0)%R in
  b |> putVertex (fst d + fst _vecOffset) (snd d + snd _vecOffset) depth
    |> putCol c0 |> putCol c1 |> putCol c2
    |> putCol (c3 * IZR i / IZR (Z.of_nat (length _Dots)))
    |> putPointInc.

(** The integer division [_Dots.size() / nBatchSize] has no defined result
    for a batch size of zero: the model returns [None] there. *)
Definition dots (_Dots : list Vector2d) (_vecOffset : Vector2d) (g : CGraphics)
  : option CGraphics :=
  let nBatchSize := GRAPHICS_SIZE_OF_INDEX_BUFFER / 8 in
  let size := length _Dots in
  '(nBatches, g1) ←
    (if GRAPHICS_SIZE_OF_INDEX_BUFFER / 2 <? m_uncI (m_Buf g) + 4 * size then
       g0 ← restartRenderBatchInternal g;
       if nBatchSize =? 0 then None
       else
         let nBatches := size / nBatchSize in
         g' ← forEachM (forRange 0 (Z.of_nat nBatches) 1)
                (λ j g,
                   restartRenderBatchInternal
                     (set_Buf
                        (forEach
                           (forRange (j * Z.of_nat nBatchSize)
                              ((j + 1) * Z.of_nat nBatchSize) 1)
                           (putDot _Dots _vecOffset (m_fDepth g) (m_aColour g))
                           (m_Buf g)) g))
                g0;
         Some (nBatches, g')
     else Some (0, g));
  Some (set_Buf
          (forEach (forRange (Z.of_nat (nBatches * nBatchSize)) (Z.of_nat size) 1)
             (putDot _Dots _vecOffset (m_fDepth g1) (m_aColour g1)) (m_Buf g1)
           |> addCost (4 * (size - nBatches * nBatchSize))) g1).

(** Modelled from the spec: the constant [MATH_2PI] of [math_constants.h]
    as the double it is, the binary64 number nearest to two pi,
    [7074237752028440 * 2^-50], in hexadecimal [0x1.921fb54442d18p+2]. *)
Definition MATH_2PI_double : PrimFloat.float :=
  FloatOps.SF2Prim (SpecFloat.S754_finite false 7074237752028440 (-50)).

(** The conversion of an [int] to [double], exact for every [int]. *)
Definition double_of_int (z : Z) : PrimFloat.float :=
  if (z <? 0)%Z
  then PrimFloat.opp (PrimFloat.of_uint63 (Uint63.of_Z (- z)))
  else PrimFloat.of_uint63 (Uint63.of_Z z).

(** The real number a finite double stands for.  Infinities and NaN have
    none; no result of the loops below depends on one. *)
Definition real_of_double (x : PrimFloat.float) : R :=
  match FloatOps.Prim2SF x with
  | SpecFloat.S754_finite s m e =>
      ((if s then -1 else 1) * IZR (Z.pos m) * powerRZ 2 e)%R
  | _ => 0%R
  end.

(** [while (fAng < MATH_2PI) { body; fAng += fFac; }] on doubles.  The
    loop is run with fuel; [None] when the fuel does not suffice. *)
Fixpoint whileAngle (fuel : nat) (fAng fFac : PrimFloat.float)
    (body : PrimFloat.float → Buffers → Buffers) (b : Buffers)
  : option Buffers :=
  match fuel with
  | O => None
  | S fuel' =>
      if PrimFloat.ltb fAng MATH_2PI_double
      then whileAngle fuel' (PrimFloat.add fAng fFac) fFac body (body fAng b)
      else Some b
  end.

(** [_nNrOfSeg] is an [int].  Where the source adds it to or subtracts it
    from an unsigned value, the model converts with [Z.to_nat], which agrees
    with the source for a non-negative segment count. *)
Definition circle (fuel : nat) (_vecC : Vector2d) (_fR : R) (_nNrOfSeg : Z)
    (_bCache : bool) (g : CGraphics) : option CGraphics :=
  let d := m_fDepth g in
  let c := m_aColour g in
  b ←
    (if _bCache then
       let b0 :=
         m_Buf g
         |> putVertex (fst _vecC + nth 0 (m_SinCache g) 0 * _fR)
              (snd _vecC + nth 0 (m_CosCache g) 0 * _fR) d
         |> putColour c
         |> incIndex in
       let b1 :=
         forEach (forRange 1 (_nNrOfSeg + 1) 1)
           (λ i b,
              b |> putVertex
                     (fst _vecC + nth (Z.to_nat i) (m_SinCache g) 0 * _fR)
                     (snd _vecC + nth (Z.to_nat i) (m_CosCache g) 0 * _fR) d
                |> putColour c
                |> (λ b, putLine (m_unIndex b - 1) b)
                |> putLineInc) b0 in
       Some (b1 |> putLine (m_unIndex b1 - 1)
                |> putLine (m_unIndex b1 - Z.to_nat _nNrOfSeg)
                |> addCost (Z.to_nat ((_nNrOfSeg + 1) * 4)))
     else
       let fFac := PrimFloat.div MATH_2PI_double (double_of_int _nNrOfSeg) in
       let b0 :=
         m_Buf g
         |> putVertex (fst _vecC + sin 0 * _fR) (snd _vecC + cos 0 * _fR) d
         |> putColour c
         |> incIndex
         |> addCost 4 in
       whileAngle fuel (PrimFloat.add PrimFloat.zero fFac) fFac
         (λ fAng b,
            b |> putVertex (fst _vecC + sin (real_of_double fAng) * _fR)
                   (snd _vecC + cos (real_of_double fAng) * _fR) d
              |> putColour c
              |> (λ b, putLine (m_unIndex b - 1) b)
              |> putLineInc
              |> addCost 4) b0)%R;
  flushIfOver (set_Buf b g).

(** The geometry of [filledCircle]: everything before the closing test of
    the cost counter. *)
Definition filledCircleGeometry (fuel : nat) (_vecC : Vector2d) (_fR : R)
    (_nNrOfSeg : Z) (_bCache : bool) (g : CGraphics) : option Buffers :=
  let d := m_fDepth g in
  let c := m_aColour g in
    (if _bCache then
       let b0 := m_Buf g |> putVertex (fst _vecC) (snd _vecC) d |> putColour c in
       let m_unCenterIndex := m_unIndex b0 in
       let b1 :=
         b0 |> putVertex (fst _vecC + nth 0 (m_SinCache g) 0 * _fR)
                 (snd _vecC + nth 0 (m_CosCache g) 0 * _fR) d
            |> putColour c
            |> (λ b, set_unIndex (m_unIndex b + 2) b) in
       let b2 :=
         forEach (forRange 1 _nNrOfSeg 1)
           (λ i b,
              b |> putVertex
                     (fst _vecC + nth (Z.to_nat i) (m_SinCache g) 0 * _fR)
                     (snd _vecC + nth (Z.to_nat i) (m_CosCache g) 0 * _fR) d
                |> putColour c
                |> putTri m_unCenterIndex
                |> (λ b, putTri (m_unIndex b - 1) b)
                |> putTriInc) b1 in
       Some (b2 |> putTri m_unCenterIndex
                |> putTri (m_unIndex b2 - 1)
                |> putTri (m_unIndex b2 - Z.to_nat _nNrOfSeg)
                |> addCost (Z.to_nat (8 + 4 * (_nNrOfSeg - 1))))
     else
       let fFac := PrimFloat.div MATH_2PI_double (double_of_int _nNrOfSeg) in
       let b0 := m_Buf g |> putVertex (fst _vecC) (snd _vecC) d |> putColour c in
       let m_unCenterIndex := m_unIndex b0 in
       let b1 :=
         b0 |> putVertex (fst _vecC + sin 0 * _fR) (snd _vecC + cos 0 * _fR) d
            |> putColour c
            |> (λ b, set_unIndex (m_unIndex b + 2) b)
            |> addCost 8 in
       whileAngle fuel (PrimFloat.add PrimFloat.zero fFac) fFac
         (λ fAng b,
            b |> putVertex (fst _vecC + sin (real_of_double fAng) * _fR)
                   (snd _vecC + cos (real_of_double fAng) * _fR) d
              |> putColour c
              |> putTri m_unCenterIndex
              |> (λ b, putTri (m_unIndex b - 1) b)
              |> putTriInc
              |> addCost 8) b1)%R.

Definition filledCircle (fuel : nat) (_vecC : Vector2d) (_fR : R)
    (_nNrOfSeg : Z) (_bCache : bool) (g : CGraphics) : option CGraphics :=
  b ← filledCircleGeometry fuel _vecC _fR _nNrOfSeg _bCache g;
  flushIfOver (set_Buf b g).

Definition filledRect (_vecLL _vecUR : Vector2d) (g : CGraphics)
  : option CGraphics :=
  let d := m_fDepth g in
  let c := m_aColour g in
  flushIfOver
    (set_Buf
       (m_Buf g
        |> putVertex (fst _vecLL) (snd _vecLL) d
        |> putVertex (fst _vecUR) (snd _vecLL) d
        |> putVertex (fst _vecLL) (snd _vecUR) d
        |> putVertex (fst _vecUR) (snd _vecUR) d
        |> putColour c |> putColour c |> putColour c |> putColour c
        |> putTriInc                                   (* 1 *)
        |> putTriInc                                   (* 2 *)
        |> (λ b, putTri (m_unIndex b) b)               (* 3 *)
        |> (λ b, putTri (m_unIndex b) b)               (* 3 *)
        |> (λ b, putTri (m_unIndex b - 1) b)           (* 2 *)
        |> (λ b, putTri (m_unIndex b + 1) b)           (* 4 *)
        |> (λ b, set_unIndex (m_unIndex b + 2) b)
        |> addCost 16) g).

Definition filledTriangle (_vecV1 _vecV2 _vecV3 : Vector2d) (g : CGraphics)
  : option CGraphics :=
  let d := m_fDepth g in
  let c := m_aColour g in
  flushIfOver
    (set_Buf
       (m_Buf g
        |> putVertex (fst _vecV1) (snd _vecV1) d
        |> putVertex (fst _vecV2) (snd _vecV2) d
        |> putVertex (fst _vecV3) (snd _vecV3) d
        |> putColour c |> putColour c |> putColour c
        |> putTriInc |> putTriInc |> putTriInc
        |> addCost 12) g).

(** Eigen's [isZero()] with its default precision for [double]. *)
Definition isZero (v : Vector2d) : bool :=
  (if Rle_dec (Rabs (fst v)) 1e-12 then true else false)
  && (if Rle_dec (Rabs (snd v)) 1e-12 then true else false).

Definition polygon (_Vertices : list Vector2d) (_PolygonType : PolygonType)
    (_vecOffset : Vector2d) (g : CGraphics) : CGraphics :=
  let g1 := beginLine _PolygonType g in
  let d := m_fDepth g1 in
  let b1 :=
    if isZero _vecOffset then
      forEach _Vertices
        (λ Vertex b, b |> putVertex (fst Vertex) (snd Vertex) d) (m_Buf g1)
    else
      forEach _Vertices
        (λ Vertex b,
           b |> putVertex (fst Vertex + fst _vecOffset)
                  (snd Vertex + snd _vecOffset) d)%R (m_Buf g1) in
  let b2 :=
    forEach (forRange 0 (Z.of_nat (length _Vertices)) 1)
      (λ _ b, b |> putColour (m_aColour g1)) b1 in
  let b3 := b2 |> addCost (4 * length _Vertices) in
  let l := m_Line g1 in
  endLine
    (set_Line (mkLineState (m_nLineNrOfVerts l + length _Vertices)
                 (m_PolyType l) (m_bLineBatchFirst l) (m_bLineBatchCall l)
                 (m_aVertFirst l))
       (set_Buf b3 g1)).

Definition rect (_vecLL _vecUR : Vector2d) (g : CGraphics) : option CGraphics :=
  let d := m_fDepth g in
  let c := m_aColour g in
  flushIfOver
    (set_Buf
       (m_Buf g
        |> putVertex (fst _vecLL) (snd _vecLL) d
        |> putVertex (fst _vecUR) (snd _vecLL) d
        |> putVertex (fst _vecUR) (snd _vecUR) d
        |> putVertex (fst _vecLL) (snd _vecUR) d
        |> putColour c |> putColour c |> putColour c |> putColour c
        |> putLineInc                                  (* 1 *)
        |> putLineCur                                  (* 2 *)
        |> putLineInc                                  (* 2 *)
        |> putLineCur                                  (* 3 *)
        |> putLineInc                                  (* 3 *)
        |> putLineCur                                  (* 4 *)
        |> putLineCur                                  (* 4 *)
        |> (λ b, putLine (m_unIndex b - 3) b)          (* 1 *)
        |> incIndex
        |> addCost 12) g).

(** The six triangle indices shared by the rectangle emitters. *)
Definition putQuad (b : Buffers) : Buffers :=
  b |> putTriInc                                       (* 1 *)
    |> putTriInc                                       (* 2 *)
    |> (λ b, putTri (m_unIndex b) b)                   (* 3 *)
    |> (λ b, putTri (m_unIndex b) b)                   (* 3 *)
    |> (λ b, putTri (m_unIndex b - 1) b)               (* 2 *)
    |> (λ b, putTri (m_unIndex b + 1) b)               (* 4 *)
    |> (λ b, set_unIndex (m_unIndex b + 2) b).

Definition texturedRect (_vecLL _vecUR : Vector2d) (_pUVs : list R)
    (g : CGraphics) : option CGraphics :=
  let d := m_fDepth g in
  let c := m_aColour g in
  flushIfOver
    (set_Buf
       (m_Buf g
        |> putVertex (fst _vecLL) (snd _vecLL) d
        |> putVertex (fst _vecUR) (snd _vecLL) d
        |> putVertex (fst _vecLL) (snd _vecUR) d
        |> putVertex (fst _vecUR) (snd _vecUR) d
        |> putColour c |> putColour c |> putColour c |> putColour c
        |> forEach _pUVs putUV0
        |> putQuad
        |> addCost 12) g).

Definition texturedRect2 (_vecLL _vecUR : Vector2d) (_pUV0s _pUV1s : list R)
    (g : CGraphics) : option CGraphics :=
  let d := m_fDepth g in
  let c := m_aColour g in
  flushIfOver
    (set_Buf
       (m_Buf g
        |> putVertex (fst _vecLL) (snd _vecLL) d
        |> putVertex (fst _vecUR) (snd _vecLL) d
        |> putVertex (fst _vecLL) (snd _vecUR) d
        |> putVertex (fst _vecUR) (snd _vecUR) d
        |> putColour c |> putColour c |> putColour c |> putColour c
        |> forEach _pUV0s putUV0
        |> forEach _pUV1s putUV1
        |> putQuad
        |> addCost 12) g).

(** Eigen's [norm()] and the test [_vecV.norm() != 0.0]. *)
Definition norm (v : Vector2d) : R := sqrt (fst v * fst v + snd v * snd v).

Definition showVec (_vecV _vecPos : Vector2d) (g : CGraphics)
  : option CGraphics :=
  if Req_dec_T (norm _vecV) 0 then Some g
  else
    let z := m_fCamZoom g in
    let vecFront := (fst _vecPos + fst _vecV, snd _vecPos + snd _vecV)%R in
    let vecDir := (fst _vecV / norm _vecV, snd _vecV / norm _vecV)%R in
    let vecFrontT :=
      (fst vecFront - fst vecDir * 5 / z, snd vecFront - snd vecDir * 5 / z)%R in
    let vecFrontOL :=
      (fst vecFrontT + - snd vecDir * 2 / z,
       snd vecFrontT + fst vecDir * 2 / z)%R in
    let vecFrontOR :=
      (fst vecFrontT + snd vecDir * 2 / z,
       snd vecFrontT + - fst vecDir * 2 / z)%R in
    g1 ← addVertex _vecPos (beginLine LINE_SINGLE g);
    g2 ← addVertex vecFrontT g1;
    filledTriangle vecFrontOL vecFront vecFrontOR (endLine g2).

End Emitters.

(** ** Construction *)

(** The constructor.  The members it does not name are initialised in the
    class declaration, which is not part of the sources at hand: the vector
    size [m_unIndexMax], the defaults for depth and resolution, the viewport
    and the line flags are arguments here. *)
Definition CGraphics_ctor (m_unIndexMax : nat) (GRAPHICS_MAX_CACHE_SIZE : nat)
    (GRAPHICS_DEPTH_DEFAULT : R)
    (GRAPHICS_WIDTH_DEFAULT GRAPHICS_HEIGHT_DEFAULT : Z)
    (vp : ViewPortType) : CGraphics :=
  mkGraphics (0, 0)%R 0%R 1%R vp
    GRAPHICS_WIDTH_DEFAULT GRAPHICS_HEIGHT_DEFAULT
    (1, 1, 1, 1)%R GRAPHICS_DEPTH_DEFAULT
    (replicate GRAPHICS_MAX_CACHE_SIZE 0%R)
    (replicate GRAPHICS_MAX_CACHE_SIZE 0%R)
    (mkBuffers (replicate m_unIndexMax 0%R) (replicate m_unIndexMax 0%R)
       (replicate m_unIndexMax 0%R) (replicate m_unIndexMax 0%R)
       (replicate m_unIndexMax 0) (replicate m_unIndexMax 0)
       (replicate m_unIndexMax 0)
       0 0 0 0 0 0 0 0 0)
    (mkLineState 0 LINE_SINGLE true false (0, 0)%R)
    (mkBatchState [] None VERT3COL4)
    (mkFrameCounters 0 0 0 0 0)
    ∅ [] [].

(** A small instance for the examples: sixteen slots per buffer. *)
Definition graphics16 : CGraphics :=
  CGraphics_ctor 16 8 0%R 800 600 (mkViewPort (-1) 1 (-1) 1)%R.

(** Registration of a render mode under a name, done by a collaborator
    before first use. *)
Definition registerRenderMode (name : string) (m : CRenderMode) (g : CGraphics)
  : CGraphics :=
  mkGraphics (m_vecCamPos g) (m_fCamAng g) (m_fCamZoom g) (m_ViewPort g)
    (m_unWidthScr g) (m_unHeightScr g) (m_aColour g) (m_fDepth g)
    (m_SinCache g) (m_CosCache g) (m_Buf g) (m_Line g) (m_Batch g) (m_Frame g)
    (<[name := m]> (m_RenderModesByName g)) (m_Device g) (m_Log g).

(** The render stack is never non-empty without a current render mode. *)
Definition batch_wf (g : CGraphics) : Prop :=
  m_RenderModeStack (m_Batch g) ≠ [] → is_Some (m_pRenderMode (m_Batch g)).

(** ** Scenarios *)

Definition modeA : CRenderMode := mkRenderMode 1 VERT3COL4.
Definition modeB : CRenderMode := mkRenderMode 2 VERT3COL4TEX2.

(** [beginRenderBatch(A); beginRenderBatch(B); endRenderBatch();
    endRenderBatch();] *)
Definition nestedBatches (DOM_DEV : bool) (A B : CRenderMode) (g : CGraphics)
  : option CGraphics :=
  g1 ← beginRenderBatch A false g;
  g2 ← beginRenderBatch B false g1;
  g3 ← endRenderBatch DOM_DEV false g2;
  endRenderBatch DOM_DEV false g3.

(** The flush of the current batch: what [submitBatch] makes of a state
    whose current render mode is [cur]. *)
Definition flushed (cur : CRenderMode) (g : CGraphics) : CGraphics :=
  set_Frame (countDraws (getRenderModeType cur) (m_Frame g) (m_Buf g))
    (set_Device (m_Device g ++ [uploadOf cur (m_Buf g)]) g).

(** A batch for [m] bound afresh, with [st] as the stack. *)
Definition bound (m : CRenderMode) (st : list CRenderMode) (g : CGraphics)
  : CGraphics :=
  set_Buf (resetCursors (m_Buf g))
    (set_Batch (mkBatchState st (Some m) (getRenderModeType m)) g).

(** The batching state: buffers and cursors, render stack and current mode,
    line in progress, frame counters, and what the device has received. *)
Definition same_batching (g g' : CGraphics) : Prop :=
  m_Buf g' = m_Buf g ∧ m_Batch g' = m_Batch g ∧ m_Line g' = m_Line g
  ∧ m_Frame g' = m_Frame g ∧ m_Device g' = m_Device g.

(** The instance with one render mode registered under the name [font]. *)
Definition graphics16_font : CGraphics :=
  registerRenderMode "font" modeB graphics16.

(** The distance, in pixels, between a screen point and its image under
    [screen2World] followed by [world2Screen]. *)
Definition roundtrip_error (g : CGraphics) (P : Vector2d) : R :=
  (Rabs (fst (world2Screen g (screen2World g P)) - fst P)
   + Rabs (snd (world2Screen g (screen2World g P)) - snd P))%R.

(** A screen of two by two pixels showing two by two metres, the camera
    moved to [(c, 0)], not rotated, not zoomed. *)
Definition graphicsPanned (c : R) : CGraphics :=
  set_Cam (c, 0)%R 0%R 1%R (resizeViewport 1 2 2 graphics16).

(** ** What the device will see *)

(** The part of each buffer that the next flush uploads. *)
Definition vertsOf (b : Buffers) : list R :=
  take (m_unIndexVerts b) (m_vecVertices b).
Definition linesOf (b : Buffers) : list nat :=
  take (m_unIndexLines b) (m_vecIndicesLines b).
Definition pointsOf (b : Buffers) : list nat :=
  take (m_unIndexPoints b) (m_vecIndicesPoints b).
Definition trisOf (b : Buffers) : list nat :=
  take (m_unIndexTriangles b) (m_vecIndicesTriangles b).

(** The triangle fan of a filled circle around the vertex ordinal [c] with
    [n] rim vertices [c+1 .. c+n]: [n-1] triangles between neighbours and
    the closing one back to the first rim vertex. *)
Definition fanOpen (c n : nat) : list (list nat) :=
  (λ i, [c; c + i; c + i + 1]) <$> seq 1 (n - 1).
Definition fanClosed (c n : nat) : list (list nat) :=
  fanOpen c n ++ [[c; c + n; c + 1]].

(** One rim vertex with its triangle: the body of the loops of
    [filledCircle]. *)
Definition fanStep (c0 : nat) (x y d : R) (col : R * R * R * R) (b : Buffers)
  : Buffers :=
  b |> putVertex x y d |> putColour col |> putTri c0
    |> (λ b, putTri (m_unIndex b - 1) b) |> putTriInc.

(** ** Line primitives as the device sees them *)

(** [beginLine(LINE_LOOP); addVertex(v) for each vertex; endLine();] *)
Definition drawLoop (size : nat) (vs : list Vector2d) (g : CGraphics)
  : option CGraphics :=
  g' ← forEachM vs (addVertex size) (beginLine LINE_LOOP g);
  Some (endLine g').

(** The position of the vertex with ordinal [i] in a vertex upload. *)
Definition vertexAt (verts : list R) (i : nat) : Vector2d :=
  (nth (3 * i) verts 0%R, nth (3 * i + 1) verts 0%R).

(** [GL_LINES] reads its indices two by two. *)
Fixpoint segments (idx : list nat) : list (nat * nat) :=
  match idx with
  | a :: b :: rest => (a, b) :: segments rest
  | _ => []
  end.

(** The line segments a vertex upload and a line index upload stand for. *)
Definition resolve (verts : list R) (idx : list nat)
  : list (Vector2d * Vector2d) :=
  (λ s, (vertexAt verts s.1, vertexAt verts s.2)) <$> segments idx.

Definition sub_lines (s : Submission) : list nat :=
  flat_map (λ d, match dc_prim d with GL_LINES => dc_indices d | _ => [] end)
    (sub_draws s).

Definition edgesOfSubmission (s : Submission) : list (Vector2d * Vector2d) :=
  resolve (sub_vertices s) (sub_lines s).

(** The segments handed to the device so far, in order, followed by those
    waiting in the buffers for the next flush. *)
Definition emittedEdges (g : CGraphics) : list (Vector2d * Vector2d) :=
  flat_map edgesOfSubmission (m_Device g)
  ++ resolve (vertsOf (m_Buf g)) (linesOf (m_Buf g)).

(** The segments joining consecutive points of a list. *)
Fixpoint path {A : Type} (vs : list A) : list (A * A) :=
  match vs with
  | a :: (b :: _) as rest => (a, b) :: path rest
  | _ => []
  end.

(** Consecutive segments share their end point. *)
Fixpoint chained {A : Type} (es : list (A * A)) : Prop :=
  match es with
  | e1 :: (e2 :: _) as rest => e1.2 = e2.1 ∧ chained rest
  | _ => True
  end.

(** Segments have no direction: [es'] is [es] with some of its segments
    turned round. *)
Definition oriented {A : Type} (es es' : list (A * A)) : Prop :=
  Forall2 (λ e e', e' = e ∨ e' = (e.2, e.1)) es es'.

(** A stream of segments that, walked in order, is one closed cycle through
    the points [vs], each visited once. *)
Definition closedCycle {A : Type} (es : list (A * A)) (vs : list A) : Prop :=
  ∃ es',
    oriented es es'
    ∧ chained es'
    ∧ (∃ e0 en, head es' = Some e0 ∧ last es' = Some en ∧ en.2 = e0.1)
    ∧ es'.*1 ≡ₚ vs.

(** The floats of a run of vertices at depth [d]. *)
Definition flat (d : R) (ws : list Vector2d) : list R :=
  flat_map (λ v, [v.1; v.2; d]) ws.

(** The line indices joining [m + 1] consecutive ordinals from [i0] on. *)
Definition chainIdx (i0 m : nat) : list nat :=
  flat_map (λ j, [i0 + j; i0 + j + 1]) (seq 0 m).

(** The state in the middle of a line loop whose current run of vertices
    [ws] started in fresh buffers: nothing but these vertices is in the
    buffers, and no index has been written yet. *)
Definition LineGen (size : nat) (d : R) (col : R * R * R * R)
    (m : CRenderMode) (dev : list Submission) (first : bool)
    (vfirst : R * R) (cost : nat) (ws : list Vector2d) (g : CGraphics) : Prop :=
  m_fDepth g = d ∧ m_aColour g = col
  ∧ m_pRenderMode (m_Batch g) = Some m ∧ m_Device g = dev
  ∧ m_Line g = mkLineState (length ws) LINE_LOOP first false vfirst
  ∧ m_uncI (m_Buf g) = cost
  ∧ m_unIndex (m_Buf g) = 0 ∧ m_unIndexLines (m_Buf g) = 0
  ∧ m_unIndexVerts (m_Buf g) = 3 * length ws
  ∧ vertsOf (m_Buf g) = flat d ws
  ∧ length (m_vecVertices (m_Buf g)) = size
  ∧ length (m_vecIndicesLines (m_Buf g)) = size.

(** A batch just begun for the render mode [m], with buffers of [size]
    slots (the index budget is the capacity of the vectors) and no line
    split pending. *)
Definition freshBatch (size : nat) (m : CRenderMode) (g : CGraphics) : Prop :=
  m_pRenderMode (m_Batch g) = Some m
  ∧ m_uncI (m_Buf g) = 0 ∧ m_unIndex (m_Buf g) = 0
  ∧ m_unIndexVerts (m_Buf g) = 0 ∧ m_unIndexLines (m_Buf g) = 0
  ∧ m_bLineBatchFirst (m_Line g) = true ∧ m_bLineBatchCall (m_Line g) = false
  ∧ length (m_vecVertices (m_Buf g)) = size
  ∧ length (m_vecIndicesLines (m_Buf g)) = size.

(** The small instance after [beginRenderBatch] for the colour-only
    mode. *)
Definition graphics16_begun : CGraphics := bound modeA [modeA] graphics16.

(** The corners of the unit square. *)
Definition unitSquare : list Vector2d :=
  [(0, 0); (1, 0); (1, 1); (0, 1)]%R.

(** ** The render stack: what holds between the calls *)

(** The current render mode type is the type of the mode on top of the
    render stack. *)
Definition stack_typed (g : CGraphics) : Prop :=
  ∀ top rest,
    m_RenderModeStack (m_Batch g) = top :: rest →
    getRenderModeType top = m_RenderModeType (m_Batch g).

(** The small instance with one dot waiting in the buffers of the batch
    begun for the colour-only mode. *)
Definition graphics16_drawn : CGraphics :=
  set_Buf (m_Buf graphics16_begun
           |> putVertex 0 0 0 |> putColour (1, 1, 1, 1)%R
           |> putPointInc |> addCost 4) graphics16_begun.

(** The same, with a second batch of the colour-only mode opened inside the
    first. *)
Definition graphics16_nested : CGraphics :=
  set_Batch (mkBatchState [modeA; modeA] (Some modeA) VERT3COL4)
    graphics16_drawn.

(** ** The camera *)

Local Open Scope R_scope.

Definition rotCamBy (_fInc : R) (g : CGraphics) : CGraphics :=
  set_Cam (m_vecCamPos g) (m_fCamAng g + _fInc) (m_fCamZoom g) g.

Definition rotCamTo (_fAng : R) (g : CGraphics) : CGraphics :=
  set_Cam (m_vecCamPos g) _fAng (m_fCamZoom g) g.

(** [m_vecCamPos.segment<2>(0) += Rotation * _vecInc] *)
Definition transCamBy (_vecInc : Vector2d) (g : CGraphics) : CGraphics :=
  let Rotation := Rotation2Dd (m_fCamAng g) in
  set_Cam (fst (m_vecCamPos g) + fst (Rotation _vecInc),
           snd (m_vecCamPos g) + snd (Rotation _vecInc))
    (m_fCamAng g) (m_fCamZoom g) g.

(** [m_vecCamPos.segment<2>(0) = Rotation * _vecPos] *)
Definition transCamTo (_vecPos : Vector2d) (g : CGraphics) : CGraphics :=
  let Rotation := Rotation2Dd (m_fCamAng g) in
  set_Cam (Rotation _vecPos) (m_fCamAng g) (m_fCamZoom g) g.

Definition zoomCamBy (_fFac : R) (g : CGraphics) : CGraphics :=
  set_Cam (m_vecCamPos g) (m_fCamAng g) (m_fCamZoom g * _fFac) g.

Definition zoomCamTo (_fFac : R) (g : CGraphics) : CGraphics :=
  set_Cam (m_vecCamPos g) (m_fCamAng g) _fFac g.

(** The camera of the small instance moved, turned and zoomed. *)
Definition graphicsCam : CGraphics :=
  set_Cam (3, 4) 1 2 (resizeViewport 2 800 600 graphics16).

Local Close Scope R_scope.

(** ** The sine and cosine cache *)

Definition set_Caches (s c : list R) (g : CGraphics) : CGraphics :=
  mkGraphics (m_vecCamPos g) (m_fCamAng g) (m_fCamZoom g) (m_ViewPort g)
    (m_unWidthScr g) (m_unHeightScr g) (m_aColour g) (m_fDepth g)
    s c (m_Buf g) (m_Line g) (m_Batch g) (m_Frame g)
    (m_RenderModesByName g) (m_Device g) (m_Log g).

(** A write past the end of a cache is dropped, as a write past the end of
    a buffer is.  For a segment count of zero the source divides by zero in
    floating point; the real numbers of the model do not follow it
    there. *)
Definition cacheSinCos (_nSeg : Z) (g : CGraphics) : CGraphics :=
  forEach (forRange 0 (_nSeg + 1) 1)
    (λ i g,
       set_Caches
         (<[Z.to_nat i := sin (IZR i * MATH_2PI / IZR _nSeg)]> (m_SinCache g))
         (<[Z.to_nat i := cos (IZR i * MATH_2PI / IZR _nSeg)]> (m_CosCache g))
         g) g.

(** ** Cursors in step *)

(** The vertex cursor and the colour cursor stand where the ordinal counter
    says: three floats and four colour components for each vertex ordinal
    handed out.  An index written while this holds refers to the vertex it
    is meant for. *)
Definition in_step (b : Buffers) : Prop :=
  m_unIndexVerts b = 3 * m_unIndex b ∧ m_unIndexCol b = 4 * m_unIndex b.

(** The line indices waiting for the next flush come in pairs, lie inside
    the index vector, and refer to vertices already written, which lie
    inside the vertex vector. *)
Definition lines_wf (b : Buffers) : Prop :=
  Nat.Even (m_unIndexLines b)
  ∧ m_unIndexLines b ≤ length (m_vecIndicesLines b)
  ∧ m_unIndexVerts b ≤ length (m_vecVertices b)
  ∧ Forall (λ i, i < m_unIndex b) (linesOf b).

(** The four corners of [rect] in the order it writes them, and the four
    segments it joins them with. *)
Definition rectCorners (_vecLL _vecUR : Vector2d) : list Vector2d :=
  [(fst _vecLL, snd _vecLL); (fst _vecUR, snd _vecLL);
   (fst _vecUR, snd _vecUR); (fst _vecLL, snd _vecUR)].

Definition rectEdges (_vecLL _vecUR : Vector2d) : list (Vector2d * Vector2d) :=
  [((fst _vecLL, snd _vecLL), (fst _vecUR, snd _vecLL));
   ((fst _vecUR, snd _vecLL), (fst _vecUR, snd _vecUR));
   ((fst _vecUR, snd _vecUR), (fst _vecLL, snd _vecUR));
   ((fst _vecLL, snd _vecUR), (fst _vecLL, snd _vecLL))].

(** One rim vertex with its segment from the vertex before: the body of the
    loops of [circle]. *)
Definition rimStep (x y d : R) (col : R * R * R * R) (b : Buffers) : Buffers :=
  b |> putVertex x y d |> putColour col
    |> (λ b, putLine (m_unIndex b - 1) b) |> putLineInc.

(** A larger instance for the examples: sixty-four slots per buffer, a
    batch begun for the colour-only mode. *)
Definition graphics64_begun : CGraphics :=
  bound modeA [modeA]
    (CGraphics_ctor 64 8 0%R 800 600 (mkViewPort (-1) 1 (-1) 1)%R).

(** The small instance in the middle of a line of three vertices, the cost
    counter far above the threshold. *)
Definition graphics16_midline : CGraphics :=
  set_Line (mkLineState 3 LINE_SINGLE true false (0, 0)%R)
    (set_Buf (addCost 100 (m_Buf graphics16_begun)) graphics16_begun).

(** ** Circles and arcs with a dynamic number of segments *)

Section Dynamic.

Variable GRAPHICS_SIZE_OF_INDEX_BUFFER : nat.

(** [getResPMX], the horizontal resolution in pixels per metre, is defined
    in the class declaration, and the constants [GRAPHICS_CIRCLE_SEG_ANG],
    [GRAPHICS_CIRCLE_SEG_MIN] and [GRAPHICS_CIRCLE_SEG_MAX] in a header;
    neither is part of the sources at hand.  The model takes them as
    parameters. *)
Variable getResPMX : CGraphics → R.
Variable GRAPHICS_CIRCLE_SEG_ANG : R.
Variable GRAPHICS_CIRCLE_SEG_MIN : R.
Variable GRAPHICS_CIRCLE_SEG_MAX : R.

Local Open Scope R_scope.

(** [while (fAng < bound) { body; fAng += fInc; }] with a body that can
    fail.  The loop is run with fuel; [None] when the fuel does not
    suffice.  The angle is a real number here, as the resolution and the
    radius it is computed from are: the source adds and compares rounded
    doubles, so its loop can make one round more or less than this one.
    Nothing below is said about the number of rounds. *)
Fixpoint whileBelow (fuel : nat) (fAng bound fInc : R)
    (body : R → CGraphics → option CGraphics) (g : CGraphics)
  : option CGraphics :=
  match fuel with
  | O => None
  | S fuel' =>
      if Rlt_dec fAng bound
      then g' ← body fAng g; whileBelow fuel' (fAng + fInc) bound fInc body g'
      else Some g
  end.

(** The angle increment [fInc] that [drawArcDyn] settles on.  For a radius
    or a resolution of zero the source divides by zero, which gives an
    infinity or a NaN in floating point; the real numbers of the model do
    not follow it there. *)
Definition arcInc (_fRad : R) (g : CGraphics) : R :=
  let fSegPx := GRAPHICS_CIRCLE_SEG_ANG * getResPMX g * _fRad in
  if Rlt_dec fSegPx GRAPHICS_CIRCLE_SEG_MIN
  then GRAPHICS_CIRCLE_SEG_MIN / (getResPMX g * _fRad)
  else GRAPHICS_CIRCLE_SEG_ANG.

Definition drawArcDyn (fuel : nat) (_vecC : Vector2d)
    (_fRad _fAng0 _fAngN : R) (g : CGraphics) : option CGraphics :=
  let fInc := arcInc _fRad g in
  let '(fAng, fAngN) :=
    if Rlt_dec _fAngN _fAng0 then (_fAngN, _fAng0) else (_fAng0, _fAngN) in
  g' ← whileBelow fuel fAng (fAngN + fInc) fInc
         (λ fAng,
            addVertex GRAPHICS_SIZE_OF_INDEX_BUFFER
              (fst _vecC + cos fAng * _fRad, snd _vecC + sin fAng * _fRad))
         (beginLine LINE_STRIP g);
  Some (endLine g').

(** The angle increment [fInc] that [drawCircleDyn] settles on. *)
Definition circleInc (_fRad : R) (g : CGraphics) : R :=
  let fSegPx := GRAPHICS_CIRCLE_SEG_ANG * getResPMX g * _fRad in
  if Rlt_dec fSegPx GRAPHICS_CIRCLE_SEG_MIN
  then GRAPHICS_CIRCLE_SEG_MIN / (getResPMX g * _fRad)
  else if Rlt_dec GRAPHICS_CIRCLE_SEG_MAX fSegPx
  then GRAPHICS_CIRCLE_SEG_MAX / (getResPMX g * _fRad)
  else GRAPHICS_CIRCLE_SEG_ANG.

Definition drawCircleDyn (fuel : nat) (_vecC : Vector2d) (_fRad : R)
    (g : CGraphics) : option CGraphics :=
  let fInc := circleInc _fRad g in
  g' ← whileBelow fuel 0 MATH_2PI fInc
         (λ fAng,
            addVertex GRAPHICS_SIZE_OF_INDEX_BUFFER
              (fst _vecC + cos fAng * _fRad, snd _vecC + sin fAng * _fRad))
         (beginLine LINE_LOOP g);
  Some (endLine g').

End Dynamic.

(** ** A caller of the batch machine: [CWidgetText::draw] *)

Definition set_Colour (c : R * R * R * R) (g : CGraphics) : CGraphics :=
  mkGraphics (m_vecCamPos g) (m_fCamAng g) (m_fCamZoom g) (m_ViewPort g)
    (m_unWidthScr g) (m_unHeightScr g) c (m_fDepth g)
    (m_SinCache g) (m_CosCache g) (m_Buf g) (m_Line g) (m_Batch g) (m_Frame g)
    (m_RenderModesByName g) (m_Device g) (m_Log g).

Definition msgUIDVisuals : LogEntry :=
  WARNING_MSG "Text Widget" "UID visuals not set.".

Section WidgetText.

Variable DOM_DEV : bool.

(** [IWidget::drawFrame], [CText::display] with the position and the word
    wrap set before it, and [CGraphics::setColor] are not part of the
    sources at hand: each is a parameter that acts on the graphics
    state. *)
Variable drawFrame : CGraphics → option CGraphics.
Variable Text_display : CGraphics → option CGraphics.
Variable setColor : R → R → R → R → CGraphics → CGraphics.

(** The widget's state that [draw] reads is whether [m_pUIDVisuals] is
    null; the function-local static [bWarned] is passed in and returned.
    The values returned by the two [beginRenderBatch] calls are dropped, as
    in the source. *)
Definition CWidgetText_draw (m_pUIDVisuals_is_null bWarned : bool)
    (g : CGraphics) : option (bool * CGraphics) :=
  r1 ← beginRenderBatchByName "world" g;
  g2 ← drawFrame r1.2;
  g3 ← endRenderBatch DOM_DEV false g2;
  r5 ← beginRenderBatchByName "font" (setColor 1 1 1 1 g3);
  g6 ← Text_display r5.2;
  g7 ← endRenderBatch DOM_DEV false g6;
  Some (if DOM_DEV && m_pUIDVisuals_is_null && negb bWarned
        then (true, set_Log (m_Log g7 ++ [msgUIDVisuals]) g7)
        else (bWarned, g7)).

End WidgetText.

(** A collaborator that always returns and touches neither the render
    stack and current mode nor the registered render modes. *)
Definition keeps_batches (f : CGraphics → option CGraphics) : Prop :=
  ∀ h, ∃ h',
    f h = Some h'
    ∧ m_Batch h' = m_Batch h
    ∧ m_RenderModesByName h' = m_RenderModesByName h.

(** The small instance with the two render modes of the widgets
    registered. *)
Definition graphics16_widgets : CGraphics :=
  registerRenderMode "world" modeA (registerRenderMode "font" modeB graphics16).

(** Stand-ins for the collaborators of the text widget in the examples. *)
Definition frameOfUnitSquare (g : CGraphics) : option CGraphics :=
  Some (polygon unitSquare LINE_LOOP (0, 0)%R g).
Definition noText (g : CGraphics) : option CGraphics := Some g.
Definition setColorRGBA (r g b a : R) (h : CGraphics) : CGraphics :=
  set_Colour (r, g, b, a) h.

(** ** How many rounds the angle loops make *)

(** The number of rounds of [whileAngle]: it depends on the angles alone,
    not on the body. *)
Fixpoint whileAngleRounds (fuel : nat) (fAng fFac : PrimFloat.float)
  : option nat :=
  match fuel with
  | O => None
  | S fuel' =>
      if PrimFloat.ltb fAng MATH_2PI_double
      then S <$> whileAngleRounds fuel' (PrimFloat.add fAng fFac) fFac
      else Some 0
  end.

(** The rounds of the loop in the branches of [circle] and [filledCircle]
    that compute sine and cosine, for a segment count.  In exact
    arithmetic the angle would reach the full turn after as many additions
    as there are segments, one less than that many rounds; with rounded
    additions it can stay just below it once more. *)
Definition uncachedRounds (fuel : nat) (_nNrOfSeg : Z) : option nat :=
  let fFac := PrimFloat.div MATH_2PI_double (double_of_int _nNrOfSeg) in
  whileAngleRounds fuel (PrimFloat.add PrimFloat.zero fFac) fFac.

(** Room behind the cursors for what a call is about to write: so many
    floats of positions, colours and texture coordinates, and so many line,
    point and triangle indices.  With it no write goes past the end of a
    vector. *)
Definition has_room (b : Buffers) (verts cols uv0s uv1s lines points tris : nat)
  : Prop :=
  m_unIndexVerts b + verts ≤ length (m_vecVertices b)
  ∧ m_unIndexCol b + cols ≤ length (m_vecColours b)
  ∧ m_unIndexUV0 b + uv0s ≤ length (m_vecUV0s b)
  ∧ m_unIndexUV1 b + uv1s ≤ length (m_vecUV1s b)
  ∧ m_unIndexLines b + lines ≤ length (m_vecIndicesLines b)
  ∧ m_unIndexPoints b + points ≤ length (m_vecIndicesPoints b)
  ∧ m_unIndexTriangles b + tris ≤ length (m_vecIndicesTriangles b).

(** The larger instance with a second batch of the colour-only mode opened
    inside the first. *)
Definition graphics64_nested : CGraphics :=
  set_Batch (mkBatchState [modeA; modeA] (Some modeA) VERT3COL4)
    graphics64_begun.

(** * Properties *)

(** ** Transform *)

(** C9: the vector overload and the scalar overload of [screen2World]
    return the same world point, for every screen coordinate and every
    camera and viewport state. *)
Theorem screen2World_overloads_agree (g : CGraphics) (x y : R) :
  screen2World g (x, y) = screen2World_xy g x y.
Proof. reflexivity. Qed.

Lemma sqrt_origin : sqrt (0 * 0 + 0 * 0) = 0%R.
Proof. replace (0 * 0 + 0 * 0)%R with 0%R by lra. apply sqrt_0. Qed.

(** C8: after [resizeViewport(800, 600)], with the camera at identity,
    [screen2World] maps the screen centre [(400, 300)] to the world
    origin. *)
Theorem screen_centre_maps_to_origin (ppm : R) (g : CGraphics) :
  m_vecCamPos g = (0, 0)%R →
  m_fCamAng g = 0%R →
  m_fCamZoom g = 1%R →
  screen2World (resizeViewport ppm 800 600 g) (400, 300)%R = (0, 0)%R.
Proof.
  intros Hpos Hang Hzoom.
  unfold screen2World, resizeViewport. cbn. rewrite Hpos, Hzoom. cbn.
  set (r := (800 * (0.5 / ppm))%R).
  set (t := (600 * (0.5 / ppm))%R).
  replace (((r - - r) / 800 * 400 + - r) / 1)%R with 0%R by lra.
  replace (((t - - t) / 600 * 300 + - t) / 1)%R with 0%R by lra.
  rewrite sqrt_origin. f_equal; lra.
Qed.

Lemma screen_centre_maps_to_origin_witness :
  screen2World (resizeViewport 2 800 600 (resetCam graphics16)) (400, 300)%R
  = (0, 0)%R.
Proof.
  apply (screen_centre_maps_to_origin 2 (resetCam graphics16)); reflexivity.
Defined.

(** ** Emitters *)

Lemma norm_zero_vector : norm (0, 0)%R = 0%R.
Proof. unfold norm. cbn. apply sqrt_origin. Qed.

(** C10: [showVec] called with a vector of norm zero emits nothing: the
    whole state, and with it every buffer, every write cursor, the vertex
    ordinal counter and the index-cost counter, is returned unchanged, for
    every position argument. *)
Theorem showVec_zero_vector_unchanged (size : nat) (v pos : Vector2d)
    (g : CGraphics) :
  norm v = 0%R → showVec size v pos g = Some g.
Proof.
  intros Hn. unfold showVec. destruct (Req_dec_T (norm v) 0); [done | contradiction].
Qed.

Lemma showVec_zero_vector_unchanged_witness :
  showVec 16 (0, 0)%R (3, 4)%R graphics16 = Some graphics16.
Proof.
  apply (showVec_zero_vector_unchanged 16 (0, 0)%R (3, 4)%R graphics16).
  exact norm_zero_vector.
Defined.

(** ** The render-batch state machine *)

Ltac destruct_graphics g :=
  destruct g as [? ? ? ? ? ? ? ? ? ? ? ? ? ? ? ? ?]; cbn in *; subst.

Lemma beginRenderBatch_idle (m : CRenderMode) (g : CGraphics) :
  m_RenderModeStack (m_Batch g) = [] →
  beginRenderBatch m false g = Some (bound m [m] g).
Proof.
  intros H. destruct g as [? ? ? ? ? ? ? ? ? ? ? ? [st cur ty] ? ? ? ?].
  cbn in H. subst st. reflexivity.
Qed.

Lemma beginRenderBatch_change (m top cur : CRenderMode)
    (rest : list CRenderMode) (ty : RenderModeType) (g : CGraphics) :
  m_Batch g = mkBatchState (top :: rest) (Some cur) ty →
  getRenderModeType top ≠ getRenderModeType m →
  beginRenderBatch m false g
  = Some (bound m (m :: top :: rest) (flushed cur g)).
Proof.
  intros H Hd. destruct_graphics g.
  unfold beginRenderBatch, endRenderBatchForced, submitBatch. cbn.
  rewrite decide_True by done. reflexivity.
Qed.

Lemma beginRenderBatch_same (m top : CRenderMode) (cur : option CRenderMode)
    (rest : list CRenderMode) (ty : RenderModeType) (g : CGraphics) :
  m_Batch g = mkBatchState (top :: rest) cur ty →
  getRenderModeType top = getRenderModeType m →
  beginRenderBatch m false g
  = Some (set_Batch (mkBatchState (m :: top :: rest) (Some m)
                       (getRenderModeType m)) g).
Proof.
  intros H Hd. destruct_graphics g.
  unfold beginRenderBatch. cbn.
  rewrite decide_False by (intros Hn; done). reflexivity.
Qed.

Lemma endRenderBatch_last (DOM_DEV : bool) (top cur : CRenderMode)
    (ty : RenderModeType) (g : CGraphics) :
  m_Batch g = mkBatchState [top] (Some cur) ty →
  endRenderBatch DOM_DEV false g
  = Some (flushed cur (set_Batch (mkBatchState [] (Some cur) ty) g)).
Proof. intros H. destruct_graphics g. reflexivity. Qed.

Lemma endRenderBatch_change (DOM_DEV : bool) (x top cur : CRenderMode)
    (rest : list CRenderMode) (ty : RenderModeType) (g : CGraphics) :
  m_Batch g = mkBatchState (x :: top :: rest) (Some cur) ty →
  getRenderModeType top ≠ ty →
  endRenderBatch DOM_DEV false g
  = beginRenderBatch top false
      (flushed cur (set_Batch (mkBatchState rest (Some cur) ty) g)).
Proof.
  intros H Hd. destruct_graphics g.
  unfold endRenderBatch, submitBatch. cbn -[beginRenderBatch].
  rewrite decide_True by done. reflexivity.
Qed.

Lemma endRenderBatch_same (DOM_DEV : bool) (x top : CRenderMode)
    (cur : option CRenderMode) (rest : list CRenderMode) (g : CGraphics) :
  m_Batch g = mkBatchState (x :: top :: rest) cur (getRenderModeType top) →
  endRenderBatch DOM_DEV false g
  = Some (set_Batch (mkBatchState (top :: rest) cur (getRenderModeType top)) g).
Proof.
  intros H. destruct_graphics g.
  unfold endRenderBatch. cbn.
  rewrite decide_False by (intros Hn; done). reflexivity.
Qed.

Lemma endRenderBatch_unbalanced (DOM_DEV : bool) (g : CGraphics) :
  m_RenderModeStack (m_Batch g) = [] →
  endRenderBatch DOM_DEV false g
  = Some (if DOM_DEV then set_Log (m_Log g ++ [msgRenderStack]) g else g).
Proof. intros H. unfold endRenderBatch. rewrite H. reflexivity. Qed.

(** C2, as the code has it: from the idle state, [begin(A)], [begin(B)]
    with a different render mode type, [end()], [end()] yields three draw
    submissions, in this order: the batch of [A] ended by the mode change,
    the batch of [B] at the inner end, and the batch of [A] that the inner
    end re-opened, at the final end.  The stack is empty afterwards. *)
Theorem nested_batches_submit_three (DOM_DEV : bool) (A B : CRenderMode)
    (g : CGraphics) :
  m_RenderModeStack (m_Batch g) = [] →
  getRenderModeType A ≠ getRenderModeType B →
  ∃ g',
    nestedBatches DOM_DEV A B g = Some g'
    ∧ m_Device g'
      = m_Device g ++ [uploadOf A (resetCursors (m_Buf g));
                       uploadOf B (resetCursors (m_Buf g));
                       uploadOf A (resetCursors (m_Buf g))]
    ∧ m_RenderModeStack (m_Batch g') = [].
Proof.
  intros Hidle Hdiff. unfold nestedBatches.
  rewrite (beginRenderBatch_idle A g Hidle). cbn -[beginRenderBatch endRenderBatch].
  erewrite beginRenderBatch_change by (reflexivity || done).
  cbn -[beginRenderBatch endRenderBatch].
  erewrite endRenderBatch_change by (reflexivity || (cbn; done)).
  erewrite beginRenderBatch_idle by reflexivity.
  cbn -[beginRenderBatch endRenderBatch].
  erewrite endRenderBatch_last by reflexivity.
  eexists. split; [reflexivity |].
  cbn. rewrite <- !app_assoc. done.
Qed.

Lemma nested_batches_submit_three_witness :
  ∃ g',
    nestedBatches true modeA modeB graphics16 = Some g'
    ∧ m_Device g'
      = m_Device graphics16
        ++ [uploadOf modeA (resetCursors (m_Buf graphics16));
            uploadOf modeB (resetCursors (m_Buf graphics16));
            uploadOf modeA (resetCursors (m_Buf graphics16))]
    ∧ m_RenderModeStack (m_Batch g') = [].
Proof.
  refine (nested_batches_submit_three true modeA modeB graphics16 _ _).
  - reflexivity.
  - discriminate.
Defined.

(** C2, as stated, fails: in the idle instance with a colour-only mode and
    a textured mode the four calls produce three draw submissions, not
    two. *)
Lemma nested_batches_not_two :
  (length ∘ m_Device) <$> nestedBatches true modeA modeB graphics16 = Some 3
  ∧ 3 ≠ 2.
Proof. split; [reflexivity | lia]. Qed.

(** C5, as the code has it: [endRenderBatch()] without force on an empty
    render stack returns normally, submits nothing, leaves the batching
    state as it is, and records the warning about the render stack exactly
    when the developer logging domain is enabled. *)
Theorem unbalanced_end_is_flagged_noop (DOM_DEV : bool) (g : CGraphics) :
  m_RenderModeStack (m_Batch g) = [] →
  ∃ g',
    endRenderBatch DOM_DEV false g = Some g'
    ∧ same_batching g g'
    ∧ m_Log g' = if DOM_DEV then m_Log g ++ [msgRenderStack] else m_Log g.
Proof.
  intros H. rewrite (endRenderBatch_unbalanced DOM_DEV g H).
  eexists. split; [reflexivity |].
  unfold same_batching. destruct DOM_DEV; cbn; repeat split; reflexivity.
Qed.

Lemma unbalanced_end_is_flagged_noop_witness :
  ∃ g',
    endRenderBatch true false graphics16 = Some g'
    ∧ same_batching graphics16 g'
    ∧ m_Log g' = m_Log graphics16 ++ [msgRenderStack].
Proof.
  refine (unbalanced_end_is_flagged_noop true graphics16 _). reflexivity.
Defined.

(** C5, as stated, fails: with the developer logging domain disabled the
    unmatched call records no warning at all. *)
Lemma unbalanced_end_can_be_silent :
  m_Log <$> endRenderBatch false false graphics16 = Some [].
Proof. reflexivity. Qed.

Lemma graphics16_begun_reached :
  beginRenderBatch modeA false graphics16 = Some graphics16_begun.
Proof. apply beginRenderBatch_idle. reflexivity. Qed.

Lemma beginRenderBatch_total (m : CRenderMode) (g : CGraphics) :
  batch_wf g →
  ∃ g', beginRenderBatch m false g = Some g'
        ∧ m_pRenderMode (m_Batch g') = Some m.
Proof.
  intros Hwf. unfold batch_wf in Hwf.
  destruct (m_Batch g) as [st cur ty] eqn:Hb. cbn in Hwf.
  destruct st as [|top rest].
  - rewrite beginRenderBatch_idle by (rewrite Hb; reflexivity).
    eexists; split; reflexivity.
  - destruct Hwf as [c ->]; [done |].
    destruct (decide (getRenderModeType top = getRenderModeType m)) as [He | Hn].
    + erewrite beginRenderBatch_same by eassumption.
      eexists; split; reflexivity.
    + erewrite beginRenderBatch_change by eassumption.
      eexists; split; reflexivity.
Qed.

Lemma beginRenderBatch_wf (m : CRenderMode) (g g' : CGraphics) :
  beginRenderBatch m false g = Some g' → batch_wf g'.
Proof.
  intros H _. unfold beginRenderBatch in H. cbn in H.
  destruct (m_RenderModeStack (m_Batch g)) as [|top rest]; cbn in H.
  - injection H as <-. cbn. eauto.
  - destruct (decide (getRenderModeType top ≠ getRenderModeType m)); cbn in H.
    + destruct (endRenderBatchForced g); cbn in H; [|done].
      injection H as <-. cbn. eauto.
    + injection H as <-. cbn. eauto.
Qed.

Lemma batch_wf_ctor (n c : nat) (d : R) (w h : Z) (vp : ViewPortType) :
  batch_wf (CGraphics_ctor n c d w h vp).
Proof. intros Hne. cbn in Hne. done. Qed.

Lemma endRenderBatch_total (DOM_DEV : bool) (g : CGraphics) :
  batch_wf g →
  ∃ g', endRenderBatch DOM_DEV false g = Some g' ∧ batch_wf g'.
Proof.
  intros Hwf. unfold batch_wf in Hwf.
  destruct (m_Batch g) as [st cur ty] eqn:Hb. cbn in Hwf.
  destruct st as [|x [|top rest]].
  - rewrite endRenderBatch_unbalanced by (rewrite Hb; reflexivity).
    eexists; split; [reflexivity |].
    intros Hne. exfalso. apply Hne. destruct DOM_DEV; cbn; rewrite Hb; reflexivity.
  - destruct Hwf as [c ->]; [done |].
    erewrite endRenderBatch_last by eassumption.
    eexists; split; [reflexivity |]. intros Hne. cbn in Hne. done.
  - destruct Hwf as [c ->]; [done |].
    destruct (decide (getRenderModeType top = ty)) as [<- | Hn].
    + erewrite endRenderBatch_same by eassumption.
      eexists; split; [reflexivity |]. intros _. cbn. eauto.
    + erewrite endRenderBatch_change by eassumption.
      match goal with |- context [beginRenderBatch top false ?h] =>
        destruct (beginRenderBatch_total top h) as (g' & Hg' & Hm)
      end.
      { intros _. cbn. eauto. }
      exists g'. split; [exact Hg' |]. eapply beginRenderBatch_wf, Hg'.
Qed.

Lemma restartRenderBatch_total (DOM_DEV : bool) (m : CRenderMode)
    (g : CGraphics) :
  batch_wf g → ∃ g', restartRenderBatch DOM_DEV m g = Some g'.
Proof.
  intros Hwf. unfold restartRenderBatch.
  match goal with |- context [if ?c then _ else _] => destruct c end;
    [| eauto].
  destruct (endRenderBatch_total DOM_DEV g Hwf) as (g1 & -> & Hwf1).
  cbn -[beginRenderBatch].
  destruct (beginRenderBatch_total m g1 Hwf1) as (g2 & -> & _). eauto.
Qed.

(** C6: for every name, the string-keyed [beginRenderBatch] and
    [restartRenderBatch] return [false] and record a warning when the name
    is not registered, leaving the batching state as it is; they return
    [true] when the name is registered.  Neither fails, in any state whose
    render stack is empty or has a current render mode. *)
Theorem named_batch_lookup (DOM_DEV : bool) (name : string) (g : CGraphics) :
  batch_wf g →
  (m_RenderModesByName g !! name = None →
   ∃ g',
     beginRenderBatchByName name g = Some (false, g')
     ∧ restartRenderBatchByName DOM_DEV name g = Some (false, g')
     ∧ same_batching g g'
     ∧ m_Log g' = m_Log g ++ [msgNotRegistered name])
  ∧ (∀ m, m_RenderModesByName g !! name = Some m →
     (∃ g', beginRenderBatchByName name g = Some (true, g'))
     ∧ (∃ g', restartRenderBatchByName DOM_DEV name g = Some (true, g'))).
Proof.
  intros Hwf. split.
  - intros Hmiss. unfold beginRenderBatchByName, restartRenderBatchByName.
    rewrite Hmiss. eexists. split; [reflexivity |]. split; [reflexivity |].
    split; [| reflexivity]. unfold same_batching. cbn. repeat split; reflexivity.
  - intros m Hhit. unfold beginRenderBatchByName, restartRenderBatchByName.
    rewrite Hhit. split.
    + destruct (beginRenderBatch_total m g Hwf) as (g' & -> & _). cbn. eauto.
    + destruct (restartRenderBatch_total DOM_DEV m g Hwf) as (g' & ->).
      cbn. eauto.
Qed.

Lemma named_batch_lookup_witness :
  (∃ g',
     beginRenderBatchByName "world" graphics16_font = Some (false, g')
     ∧ restartRenderBatchByName true "world" graphics16_font = Some (false, g')
     ∧ same_batching graphics16_font g'
     ∧ m_Log g' = m_Log graphics16_font ++ [msgNotRegistered "world"])
  ∧ (∃ g', beginRenderBatchByName "font" graphics16_font = Some (true, g'))
  ∧ (∃ g', restartRenderBatchByName true "font" graphics16_font = Some (true, g')).
Proof.
  assert (Hwf : batch_wf graphics16_font) by (intros Hne; cbn in Hne; done).
  split.
  - apply (proj1 (named_batch_lookup true "world" graphics16_font Hwf)).
    reflexivity.
  - apply (proj2 (named_batch_lookup true "font" graphics16_font Hwf) modeB).
    reflexivity.
Defined.

(** ** Transform: the round trip *)

Section Polar.
Local Open Scope R_scope.

Lemma hypot_pos_x (y x : R) :
  0 < x → sqrt (y * y + x * x) = x * sqrt (1 + (y / x)²).
Proof.
  intros Hx.
  replace (y * y + x * x) with (x² * (1 + (y / x)²))
    by (unfold Rsqr; field; lra).
  rewrite sqrt_mult_alt by apply Rle_0_sqr.
  rewrite sqrt_Rsqr by lra. reflexivity.
Qed.

Lemma hypot_neg_x (y x : R) :
  x < 0 → sqrt (y * y + x * x) = - x * sqrt (1 + (y / x)²).
Proof.
  intros Hx.
  replace (y * y + x * x) with ((- x)² * (1 + (y / x)²))
    by (unfold Rsqr; field; lra).
  rewrite sqrt_mult_alt by apply Rle_0_sqr.
  rewrite sqrt_Rsqr by lra. reflexivity.
Qed.

Lemma sqrt_one_plus_sqr_neq_0 (t : R) : sqrt (1 + t²) ≠ 0.
Proof.
  apply Rgt_not_eq, sqrt_lt_R0. pose proof (Rle_0_sqr t). lra.
Qed.

(** The polar decomposition behind [screen2World]: with [L] the length of
    [(x, y)] and [atan2 y x] its angle, [L * sin] gives back [y] and
    [L * cos] gives back [x]. *)
Lemma atan2_polar (y x : R) :
  sqrt (y * y + x * x) * sin (atan2 y x) = y
  ∧ sqrt (y * y + x * x) * cos (atan2 y x) = x.
Proof.
  unfold atan2.
  pose proof (sqrt_one_plus_sqr_neq_0 (y / x)) as Hs.
  destruct (Rlt_dec 0 x) as [Hx | Hx].
  - rewrite hypot_pos_x, sin_atan, cos_atan by assumption.
    split; field; repeat split; lra || assumption.
  - destruct (Rlt_dec x 0) as [Hx' | Hx'].
    + rewrite hypot_neg_x by assumption.
      destruct (Rle_dec 0 y).
      * rewrite neg_sin, neg_cos, sin_atan, cos_atan.
        split; field; repeat split; lra || assumption.
      * unfold Rminus. rewrite sin_plus, cos_plus, sin_neg, cos_neg, sin_PI, cos_PI,
          sin_atan, cos_atan.
        split; field; repeat split; lra || assumption.
    + assert (x = 0) as -> by lra.
      replace (y * y + 0 * 0) with (y²) by (unfold Rsqr; ring).
      rewrite sqrt_Rsqr_abs.
      destruct (Rlt_dec 0 y) as [Hy | Hy].
      * rewrite sin_PI2, cos_PI2, Rabs_pos_eq by lra. split; ring.
      * destruct (Rlt_dec y 0) as [Hy' | Hy'].
        -- rewrite sin_neg, cos_neg, sin_PI2, cos_PI2, Rabs_left by lra.
           split; ring.
        -- assert (y = 0) as -> by lra. rewrite Rabs_R0. split; ring.
Qed.


(** [screen2World] without the detour through polar coordinates. *)
Lemma screen2World_cartesian (g : CGraphics) (P : Vector2d) :
  let vp := m_ViewPort g in
  let fX := ((rightplane vp - leftplane vp) / IZR (m_unWidthScr g) * fst P
             + leftplane vp) / m_fCamZoom g in
  let fY := ((topplane vp - bottomplane vp) / IZR (m_unHeightScr g) * snd P
             + bottomplane vp) / m_fCamZoom g in
  screen2World g P
  = (fX * cos (m_fCamAng g) + fY * sin (m_fCamAng g) + fst (m_vecCamPos g),
     fX * sin (m_fCamAng g) - fY * cos (m_fCamAng g) - snd (m_vecCamPos g)).
Proof.
  intros vp fX fY. unfold screen2World. fold vp. fold fX. fold fY.
  destruct (atan2_polar fX fY) as [Hsin Hcos].
  unfold MATH_PI2.
  rewrite (cos_minus (atan2 fX fY)), (sin_minus (atan2 fX fY)), cos_shift,
    sin_shift.
  set (L := sqrt (fX * fX + fY * fY)) in *.
  set (th := atan2 fX fY) in *.
  f_equal.
  - replace (L * (cos th * sin (m_fCamAng g) + sin th * cos (m_fCamAng g)))
      with ((L * sin th) * cos (m_fCamAng g) + (L * cos th) * sin (m_fCamAng g))
      by ring.
    rewrite Hsin, Hcos. reflexivity.
  - replace (L * (sin th * sin (m_fCamAng g) - cos th * cos (m_fCamAng g)))
      with ((L * sin th) * sin (m_fCamAng g) - (L * cos th) * cos (m_fCamAng g))
      by ring.
    rewrite Hsin, Hcos. reflexivity.
Qed.

Lemma rotate_back (a x y : R) :
  cos a * (x * cos a + y * sin a) - sin a * - (x * sin a - y * cos a) = x
  ∧ sin a * (x * cos a + y * sin a) + cos a * - (x * sin a - y * cos a) = y.
Proof.
  pose proof (sin2_cos2 a) as H. unfold Rsqr in H.
  split.
  - replace (cos a * (x * cos a + y * sin a) - sin a * - (x * sin a - y * cos a))
      with (x * (sin a * sin a + cos a * cos a)) by ring.
    rewrite H. ring.
  - replace (sin a * (x * cos a + y * sin a) + cos a * - (x * sin a - y * cos a))
      with (y * (sin a * sin a + cos a * cos a)) by ring.
    rewrite H. ring.
Qed.

(** C4, as the code has it: with the camera at position zero, for every
    rotation angle and every non-zero zoom, [world2Screen] undoes
    [screen2World] at every screen point, exactly in real arithmetic, in
    every viewport whose bottom plane mirrors its top plane and whose
    pixels are as wide as they are high; [resizeViewport] sets such a
    viewport. *)
Theorem roundtrip_camera_at_origin (g : CGraphics) (P : Vector2d) :
  m_vecCamPos g = (0, 0) →
  m_fCamZoom g ≠ 0 →
  m_unWidthScr g ≠ 0%Z → m_unHeightScr g ≠ 0%Z →
  rightplane (m_ViewPort g) ≠ leftplane (m_ViewPort g) →
  bottomplane (m_ViewPort g) = - topplane (m_ViewPort g) →
  (topplane (m_ViewPort g) - bottomplane (m_ViewPort g))
    * IZR (m_unWidthScr g)
  = (rightplane (m_ViewPort g) - leftplane (m_ViewPort g))
    * IZR (m_unHeightScr g) →
  world2Screen g (screen2World g P) = P.
Proof.
  intros Hpos Hzoom HW HH Hrl Hbt Hpx.
  rewrite screen2World_cartesian.
  unfold world2Screen, Rotation2Dd. cbn. rewrite Hpos. cbn.
  apply not_0_IZR in HW. apply not_0_IZR in HH.
  destruct (m_ViewPort g) as [l r b t]. cbn in *. subst b.
  set (a := m_fCamAng g). set (z := m_fCamZoom g) in *.
  set (W := IZR (m_unWidthScr g)) in *. set (H := IZR (m_unHeightScr g)) in *.
  set (fX := ((r - l) / W * fst P + l) / z).
  set (fY := ((t - - t) / H * snd P + - t) / z).
  destruct (rotate_back a fX fY) as [Hx Hy].
  replace (fX * cos a + fY * sin a + 0) with (fX * cos a + fY * sin a) by ring.
  replace (fX * sin a - fY * cos a - 0) with (fX * sin a - fY * cos a) by ring.
  rewrite Hx, Hy. destruct P as [px py]. cbn in *.
  unfold fX, fY. f_equal.
  - field. repeat split; try assumption. lra.
  - replace ((((t - - t) / H * py + - t) / z * z - - t) * W / (r - l))
      with (py * ((t - - t) * W) / (H * (r - l)))
      by (field; repeat split; try assumption; lra).
    rewrite Hpx. field. split; [lra | assumption].
Qed.

Lemma roundtrip_after_resizeViewport (ppm : R) (W H : Z) (g : CGraphics)
    (P : Vector2d) :
  ppm ≠ 0 → W ≠ 0%Z → H ≠ 0%Z →
  m_fCamZoom g ≠ 0 → m_vecCamPos g = (0, 0) →
  world2Screen (resizeViewport ppm W H g)
    (screen2World (resizeViewport ppm W H g) P) = P.
Proof.
  intros Hppm HW HH Hzoom Hpos.
  rewrite screen2World_cartesian.
  unfold world2Screen, Rotation2Dd, resizeViewport. cbn. rewrite Hpos. cbn.
  apply not_0_IZR in HW. apply not_0_IZR in HH.
  set (a := m_fCamAng g). set (z := m_fCamZoom g) in *.
  set (Wr := IZR W) in *. set (Hr := IZR H) in *.
  set (r := Wr * (0.5 / ppm)). set (t := Hr * (0.5 / ppm)).
  set (fX := ((r - - r) / Wr * fst P + - r) / z).
  set (fY := ((t - - t) / Hr * snd P + - t) / z).
  destruct (rotate_back a fX fY) as [Hx Hy].
  replace (fX * cos a + fY * sin a + 0) with (fX * cos a + fY * sin a) by ring.
  replace (fX * sin a - fY * cos a - 0) with (fX * sin a - fY * cos a) by ring.
  rewrite Hx, Hy. destruct P as [px py]. cbn in *.
  unfold fX, fY, r, t. f_equal; field; repeat split; assumption || lra.
Qed.

Lemma roundtrip_camera_at_origin_witness :
  world2Screen (resizeViewport 2 800 600 (resetCam graphics16))
    (screen2World (resizeViewport 2 800 600 (resetCam graphics16)) (10, 20))
  = (10, 20).
Proof.
  apply (roundtrip_camera_at_origin
           (resizeViewport 2 800 600 (resetCam graphics16)) (10, 20));
    cbn; try reflexivity; try lia; lra.
Defined.

(** With the camera moved by [c] along the x axis the round trip is off by
    [|c|] pixels in this viewport: no tolerance covers it. *)
Lemma roundtrip_error_panned (c : R) :
  roundtrip_error (graphicsPanned c) (1, 1) = Rabs c.
Proof.
  unfold roundtrip_error. rewrite screen2World_cartesian.
  unfold world2Screen, Rotation2Dd, graphicsPanned, resizeViewport. cbn.
  rewrite cos_0, sin_0.
  replace (2 * (0.5 / 1)) with 1 by lra.
  replace (1 - - 1) with 2 by lra.
  match goal with |- Rabs ?a + Rabs ?b = _ =>
    replace a with c by (field; lra); replace b with 0 by (field; lra)
  end.
  rewrite Rabs_R0. ring.
Qed.

(** C4, as stated, fails: with the camera one metre off the origin the
    screen centre comes back one whole pixel away. *)
Lemma roundtrip_fails_off_origin :
  roundtrip_error (graphicsPanned 1) (1, 1) = 1.
Proof. rewrite roundtrip_error_panned. apply Rabs_R1. Qed.

End Polar.

(** ** Buffers: the effect of the elementary writes *)

Lemma take_S_insert {A : Type} (l : list A) (i : nat) (x : A) :
  i < length l → take (S i) (<[i := x]> l) = take i l ++ [x].
Proof.
  intros Hi. rewrite (take_S_r _ _ x) by (apply list_lookup_insert_eq; exact Hi).
  rewrite take_insert_ge by lia. reflexivity.
Qed.

Lemma forRange_step_1 (lo hi : Z) : forRange lo hi 1 = seqZ lo (hi - lo).
Proof.
  unfold forRange.
  replace ((hi - lo + 1 - 1) `div` 1)%Z with (hi - lo)%Z
    by (rewrite Z.div_1_r; lia).
  replace (seqZ lo (hi - lo)) with (seqZ (lo + 0) (hi - lo))
    by (f_equal; lia).
  rewrite <- fmap_add_seqZ.
  apply list_fmap_ext. intros _ k _. lia.
Qed.

(** A loop invariant indexed by the iteration count, for the loops that
    count upwards by one. *)
Lemma forEach_forRange_inv {S : Type} (I : nat → S → Prop) (lo : Z) (n : nat)
    (body : Z → S → S) (s : S) :
  (∀ j s, j < n → I j s → I (Datatypes.S j) (body (lo + Z.of_nat j)%Z s)) →
  I 0 s →
  I n (forEach (forRange lo (lo + Z.of_nat n) 1) body s).
Proof.
  intros Hstep H0. rewrite forRange_step_1.
  replace (lo + Z.of_nat n - lo)%Z with (Z.of_nat n) by lia.
  induction n as [|n IH].
  - rewrite seqZ_nil by lia. exact H0.
  - rewrite seqZ_S. unfold forEach. rewrite foldl_app. cbn.
    apply Hstep; [lia |]. apply IH. intros j s' Hj. apply Hstep. lia.
Qed.

Lemma forRange_empty (lo hi : Z) : (hi ≤ lo)%Z → forRange lo hi 1 = [].
Proof. intros H. rewrite forRange_step_1. apply seqZ_nil. lia. Qed.

Lemma forEach_inv {A S : Type} (I : nat → S → Prop) (xs : list A)
    (body : A → S → S) (s : S) :
  (∀ j x s, I j s → I (Datatypes.S j) (body x s)) →
  I 0 s → I (length xs) (forEach xs body s).
Proof.
  intros Hstep. unfold forEach. revert s.
  induction xs as [|x xs IH] using rev_ind; intros s H0; [exact H0 |].
  rewrite foldl_app, length_app. cbn. rewrite Nat.add_1_r.
  apply Hstep. apply IH. exact H0.
Qed.

(** ** Filled circles *)

Ltac take_steps :=
  repeat (rewrite take_S_insert by (rewrite ?length_insert; lia)).

Lemma concat_snoc {A : Type} (ls : list (list A)) (l : list A) :
  concat (ls ++ [l]) = concat ls ++ l.
Proof. rewrite concat_app. cbn. rewrite app_nil_r. reflexivity. Qed.

Lemma fanStep_effect (c0 : nat) (x y d : R) (col : R * R * R * R)
    (b : Buffers) :
  let b' := fanStep c0 x y d col b in
  m_unIndex b' = m_unIndex b + 1
  ∧ m_unIndexTriangles b' = m_unIndexTriangles b + 3
  ∧ length (m_vecIndicesTriangles b') = length (m_vecIndicesTriangles b)
  ∧ (m_unIndexTriangles b + 3 ≤ length (m_vecIndicesTriangles b) →
     trisOf b' = trisOf b ++ [c0; m_unIndex b - 1; m_unIndex b]).
Proof.
  destruct col as [[[? ?] ?] ?]. cbn. rewrite !length_insert.
  repeat split; try lia.
  intros Hroom. unfold trisOf. cbn. take_steps.
  rewrite <- !app_assoc. reflexivity.
Qed.

Lemma fanOpen_S (c n : nat) :
  1 ≤ n → fanOpen c (S n) = fanOpen c n ++ [[c; c + n; c + n + 1]].
Proof.
  intros Hn. unfold fanOpen.
  replace (S n - 1) with (S (n - 1)) by lia.
  rewrite seq_S, fmap_app. cbn. repeat f_equal; lia.
Qed.

(** The branch of [filledCircle] that uses the sine and cosine cache: for a
    segment count [n ≥ 1] it appends the closed fan, [n] triples that all
    start with the centre's vertex ordinal. *)
Lemma filledCircle_cached_fan (fuel : nat) (c : Vector2d) (r : R) (n : nat)
    (g : CGraphics) :
  1 ≤ n →
  m_unIndexTriangles (m_Buf g) + 3 * n
    ≤ length (m_vecIndicesTriangles (m_Buf g)) →
  ∃ b',
    filledCircleGeometry fuel c r (Z.of_nat n) true g = Some b'
    ∧ trisOf b'
      = trisOf (m_Buf g) ++ concat (fanClosed (m_unIndex (m_Buf g)) n)
    ∧ length (fanClosed (m_unIndex (m_Buf g)) n) = n
    ∧ Forall (λ t, ∃ p q, t = [m_unIndex (m_Buf g); p; q])
        (fanClosed (m_unIndex (m_Buf g)) n).
Proof.
  intros Hn Hroom. unfold filledCircleGeometry.
  set (c0 := m_unIndex (m_Buf g)).
  set (t0 := m_unIndexTriangles (m_Buf g)) in *.
  set (len := length (m_vecIndicesTriangles (m_Buf g))) in *.
  eexists. split; [reflexivity |]. split; [| split].
  - match goal with |- context [forEach ?xs ?body ?s] =>
      assert (Hinv :
        (λ j b, m_unIndex b = c0 + 2 + j
                ∧ m_unIndexTriangles b = t0 + 3 * j
                ∧ length (m_vecIndicesTriangles b) = len
                ∧ trisOf b = trisOf (m_Buf g) ++ concat (fanOpen c0 (S j)))
          (n - 1) (forEach xs body s));
      [| set (b2 := forEach xs body s) in * ]
    end.
    { replace (Z.of_nat n) with (1 + Z.of_nat (n - 1))%Z by lia.
      apply forEach_forRange_inv.
      - intros j b Hj (Hi & Ht & Hl & HT).
        match goal with |- context [putTriInc ?b1] =>
          change (putTriInc b1) with
            (fanStep (m_unIndex (m_Buf g |> putVertex c.1 c.2 (m_fDepth g)
                                         |> putColour (m_aColour g)))
               (c.1 + nth (Z.to_nat (1 + Z.of_nat j)) (m_SinCache g) 0 * r)%R
               (c.2 + nth (Z.to_nat (1 + Z.of_nat j)) (m_CosCache g) 0 * r)%R
               (m_fDepth g) (m_aColour g) b)
        end.
        match goal with |- context [fanStep ?a ?x ?y ?d ?col b] =>
          destruct (fanStep_effect a x y d col b) as (Ei & Et & El & ET);
          replace a with c0 in *
            by (destruct (m_aColour g) as [[[? ?] ?] ?]; reflexivity)
        end.
        rewrite Ei, Et, El, ET by lia.
        split; [lia |]. split; [lia |]. split; [exact Hl |].
        rewrite HT, (fanOpen_S c0 (S j)), concat_snoc, Hi, <- app_assoc by lia.
        replace (c0 + 2 + j - 1) with (c0 + S j) by lia.
        replace (c0 + 2 + j) with (c0 + S j + 1) by lia. reflexivity.
      - destruct (m_aColour g) as [[[? ?] ?] ?].
        unfold trisOf. cbn. rewrite app_nil_r.
        repeat split; try reflexivity; unfold c0, t0; lia. }
    destruct Hinv as (Hi & Ht & Hl & HT).
    replace (m_unIndex (m_Buf g |> putVertex c.1 c.2 (m_fDepth g)
                                |> putColour (m_aColour g))) with c0
      by (destruct (m_aColour g) as [[[? ?] ?] ?]; reflexivity).
    unfold trisOf at 1. cbn. rewrite Ht. take_steps. rewrite <- Ht.
    change (take (m_unIndexTriangles b2) (m_vecIndicesTriangles b2))
      with (trisOf b2). rewrite HT, Hi.
    unfold fanClosed. rewrite concat_snoc.
    replace (S (n - 1)) with n by lia.
    rewrite <- !app_assoc. cbn. rewrite Nat2Z.id.
    repeat f_equal; lia.
  - unfold fanClosed, fanOpen. rewrite length_app, length_fmap, length_seq. cbn. lia.
  - unfold fanClosed, fanOpen. apply Forall_app. split.
    + apply Forall_fmap, Forall_forall. intros i _. cbn. eauto.
    + repeat constructor. eauto.
Qed.

(** The cached branch as part of [filledCircle]: the closed fan is in the
    buffers when the closing test of the cost counter is made. *)
Lemma filledCircle_cached_closes_fan (size fuel : nat) (c : Vector2d) (r : R)
    (n : nat) (g : CGraphics) :
  1 ≤ n →
  m_unIndexTriangles (m_Buf g) + 3 * n
    ≤ length (m_vecIndicesTriangles (m_Buf g)) →
  ∃ b',
    filledCircle size fuel c r (Z.of_nat n) true g
    = flushIfOver size (set_Buf b' g)
    ∧ trisOf b'
      = trisOf (m_Buf g) ++ concat (fanClosed (m_unIndex (m_Buf g)) n)
    ∧ length (fanClosed (m_unIndex (m_Buf g)) n) = n
    ∧ Forall (λ t, ∃ p q, t = [m_unIndex (m_Buf g); p; q])
        (fanClosed (m_unIndex (m_Buf g)) n).
Proof.
  intros Hn Hroom.
  destruct (filledCircle_cached_fan fuel c r n g Hn Hroom) as (b' & Hb' & H).
  exists b'. split; [| exact H].
  unfold filledCircle. rewrite Hb'. reflexivity.
Qed.

(** A loop invariant for [whileAngle], indexed by the round. *)
Lemma whileAngle_inv (I : nat → Buffers → Prop)
    (body : PrimFloat.float → Buffers → Buffers) (fFac : PrimFloat.float) :
  ∀ (fuel n j : nat) (fAng : PrimFloat.float) (b : Buffers),
    whileAngleRounds fuel fAng fFac = Some n →
    (∀ j' a b, j ≤ j' < j + n → I j' b → I (S j') (body a b)) →
    I j b →
    ∃ b', whileAngle fuel fAng fFac body b = Some b' ∧ I (j + n) b'.
Proof.
  induction fuel as [|fuel IH]; intros n j fAng b Hr Hstep HI;
    [cbn in Hr; discriminate |].
  cbn [whileAngleRounds] in Hr. cbn [whileAngle].
  destruct (PrimFloat.ltb fAng MATH_2PI_double).
  - destruct (whileAngleRounds fuel (PrimFloat.add fAng fFac) fFac)
      as [n' |] eqn:Hn'; [| cbn in Hr; discriminate].
    cbn in Hr. injection Hr as <-.
    destruct (IH n' (S j) (PrimFloat.add fAng fFac) (body fAng b) Hn')
      as (b' & Hb' & HI').
    + intros j' a b0 Hj'. apply Hstep. lia.
    + apply Hstep; [lia | exact HI].
    + exists b'. split; [exact Hb' |].
      replace (j + S n') with (S j + n') by lia. exact HI'.
  - injection Hr as <-. exists b. rewrite Nat.add_0_r. auto.
Qed.

(** The segment counts up to 24 for which the loop makes one round less
    than there are segments, as exact arithmetic would have it.  For the
    others, 6 the first of them, the rounded angle is still below the full
    turn after as many additions as there are segments. *)
Lemma uncachedRounds_up_to_24 :
  filter (λ n, bool_decide (uncachedRounds 32 (Z.of_nat n) = Some (n - 1)))
    (seq 1 24)
  = [1; 2; 3; 4; 5; 7; 8; 9; 10; 12; 14; 16; 19; 20; 21]
  ∧ filter (λ n, bool_decide (uncachedRounds 32 (Z.of_nat n) = Some n))
      (seq 1 24)
    = [6; 11; 13; 15; 17; 18; 22; 23; 24].
Proof. split; vm_compute; reflexivity. Qed.

(** The branch of [filledCircle] that computes sine and cosine itself
    appends one triple for each round of its loop and none after it: the
    open fan over the rim vertices written. *)
Lemma filledCircle_uncached_fan (size fuel : nat) (c : Vector2d) (r : R)
    (nSeg : Z) (k : nat) (g : CGraphics) :
  uncachedRounds fuel nSeg = Some k →
  m_unIndexTriangles (m_Buf g) + 3 * k
    ≤ length (m_vecIndicesTriangles (m_Buf g)) →
  ∃ b',
    filledCircle size fuel c r nSeg false g = flushIfOver size (set_Buf b' g)
    ∧ trisOf b'
      = trisOf (m_Buf g) ++ concat (fanOpen (m_unIndex (m_Buf g)) (S k)).
Proof.
  intros Hrounds Hroom.
  enough (∃ b',
    filledCircleGeometry fuel c r nSeg false g = Some b'
    ∧ trisOf b'
      = trisOf (m_Buf g) ++ concat (fanOpen (m_unIndex (m_Buf g)) (S k)))
    as (b' & Hb' & Htris)
    by (exists b'; split; [unfold filledCircle; rewrite Hb'; reflexivity
                          | exact Htris]).
  unfold filledCircleGeometry. unfold uncachedRounds in Hrounds.
  set (c0 := m_unIndex (m_Buf g)).
  set (t0 := m_unIndexTriangles (m_Buf g)) in *.
  set (len := length (m_vecIndicesTriangles (m_Buf g))) in *.
  match goal with |- context [whileAngle fuel ?a ?f ?body ?s] =>
    destruct (whileAngle_inv
      (λ j b, m_unIndex b = c0 + 2 + j
              ∧ m_unIndexTriangles b = t0 + 3 * j
              ∧ length (m_vecIndicesTriangles b) = len
              ∧ trisOf b = trisOf (m_Buf g) ++ concat (fanOpen c0 (S j)))
      body f fuel k 0 a s Hrounds) as (b' & Hb' & Hi & Ht & Hl & HT)
  end.
  - intros j a b Hj (Hi & Ht & Hl & HT).
    match goal with |- context [addCost 8 ?b1] =>
      change (addCost 8 b1) with
        (addCost 8
           (fanStep (m_unIndex (m_Buf g |> putVertex c.1 c.2 (m_fDepth g)
                                        |> putColour (m_aColour g)))
              (c.1 + sin (real_of_double a) * r)%R
              (c.2 + cos (real_of_double a) * r)%R
              (m_fDepth g) (m_aColour g) b))
    end.
    match goal with |- context [fanStep ?a0 ?x ?y ?d ?col b] =>
      destruct (fanStep_effect a0 x y d col b) as (Ei & Et & El & ET);
      replace a0 with c0 in *
        by (destruct (m_aColour g) as [[[? ?] ?] ?]; reflexivity)
    end.
    change (m_unIndex (addCost 8 ?b1)) with (m_unIndex b1).
    change (m_unIndexTriangles (addCost 8 ?b1)) with (m_unIndexTriangles b1).
    change (m_vecIndicesTriangles (addCost 8 ?b1)) with (m_vecIndicesTriangles b1).
    change (trisOf (addCost 8 ?b1)) with (trisOf b1).
    rewrite Ei, Et, El, ET by lia.
    split; [lia |]. split; [lia |]. split; [exact Hl |].
    rewrite HT, (fanOpen_S c0 (S j)), concat_snoc, Hi, <- app_assoc by lia.
    replace (c0 + 2 + j - 1) with (c0 + S j) by lia.
    replace (c0 + 2 + j) with (c0 + S j + 1) by lia. reflexivity.
  - destruct (m_aColour g) as [[[? ?] ?] ?].
    unfold trisOf. cbn. rewrite app_nil_r.
    repeat split; try reflexivity; unfold c0, t0; lia.
  - exists b'. split; [exact Hb' |]. rewrite HT. reflexivity.
Qed.

(** C7, on the branch of [filledCircle] that computes sine and cosine
    itself: for every segment count [n ≥ 1] on which its loop makes
    [n - 1] rounds, as it does for [n = 2], it appends the open fan only,
    [n - 1] triples.  The closing triple, which the cached branch writes
    after its loop, is not written here. *)
Theorem filledCircle_uncached_leaves_fan_open (size fuel : nat)
    (c : Vector2d) (r : R) (n : nat) (g : CGraphics) :
  1 ≤ n →
  uncachedRounds fuel (Z.of_nat n) = Some (n - 1) →
  m_unIndexTriangles (m_Buf g) + 3 * n
    ≤ length (m_vecIndicesTriangles (m_Buf g)) →
  ∃ b',
    filledCircle size fuel c r (Z.of_nat n) false g
    = flushIfOver size (set_Buf b' g)
    ∧ trisOf b'
      = trisOf (m_Buf g) ++ concat (fanOpen (m_unIndex (m_Buf g)) n)
    ∧ length (fanOpen (m_unIndex (m_Buf g)) n) = n - 1.
Proof.
  intros Hn Hrounds Hroom.
  destruct (filledCircle_uncached_fan size fuel c r (Z.of_nat n) (n - 1) g
              Hrounds) as (b' & Hb' & HT); [lia |].
  exists b'. split; [exact Hb' |]. split.
  - rewrite HT. replace (S (n - 1)) with n by lia. reflexivity.
  - unfold fanOpen. rewrite length_fmap, length_seq. reflexivity.
Qed.

Lemma filledCircle_uncached_leaves_fan_open_witness :
  ∃ b',
    filledCircle 16 2 (0, 0)%R 1%R (Z.of_nat 2) false graphics16_begun
    = flushIfOver 16 (set_Buf b' graphics16_begun)
    ∧ trisOf b'
      = trisOf (m_Buf graphics16_begun)
        ++ concat (fanOpen (m_unIndex (m_Buf graphics16_begun)) 2)
    ∧ length (fanOpen (m_unIndex (m_Buf graphics16_begun)) 2) = 2 - 1.
Proof.
  apply (filledCircle_uncached_leaves_fan_open 16 2 (0, 0)%R 1%R 2
           graphics16_begun);
    [lia | vm_compute; reflexivity | cbn; lia].
Defined.

(** For six segments the loop makes six rounds: six triples, the last one
    to a seventh rim vertex a rounding error short of the full turn. *)
Lemma filledCircle_uncached_six_segments :
  ∃ b',
    filledCircle 64 7 (0, 0)%R 1%R 6 false graphics64_begun
    = flushIfOver 64 (set_Buf b' graphics64_begun)
    ∧ trisOf b' = [0; 1; 2; 0; 2; 3; 0; 3; 4; 0; 4; 5; 0; 5; 6; 0; 6; 7].
Proof.
  destruct (filledCircle_uncached_fan 64 7 (0, 0)%R 1%R 6 6 graphics64_begun)
    as (b' & Hb' & HT); [vm_compute; reflexivity | cbn; lia |].
  exists b'. split; [exact Hb' |]. rewrite HT. reflexivity.
Qed.

(** ** Polygons *)

Lemma forEach_preserves {A S X : Type} (f : S → X) (xs : list A)
    (body : A → S → S) (s : S) :
  (∀ x s, f (body x s) = f s) → f (forEach xs body s) = f s.
Proof.
  intros H. unfold forEach. revert s.
  induction xs as [|x xs IH]; intros s; [reflexivity |].
  cbn. rewrite IH. apply H.
Qed.

Lemma forEach_count {A S : Type} (f : S → nat) (k : nat) (xs : list A)
    (body : A → S → S) (s : S) :
  (∀ x s, f (body x s) = k + f s) →
  f (forEach xs body s) = f s + k * length xs.
Proof.
  intros H. unfold forEach. revert s.
  induction xs as [|x xs IH]; intros s; [cbn; lia |].
  cbn. rewrite IH, H. lia.
Qed.

(** [endLine] never moves the vertex cursor backwards and never resizes the
    vertex buffer. *)
Lemma endLine_verts (g : CGraphics) :
  m_unIndexVerts (m_Buf g) ≤ m_unIndexVerts (m_Buf (endLine g))
  ∧ length (m_vecVertices (m_Buf (endLine g)))
    = length (m_vecVertices (m_Buf g))
  ∧ m_uncI (m_Buf (endLine g)) = m_uncI (m_Buf g)
  ∧ m_Device (endLine g) = m_Device g.
Proof.
  unfold endLine. cbn.
  destruct (decide (m_PolyType (m_Line g) = LINE_SINGLE)) as [Hs | Hs].
  - rewrite !(forEach_preserves m_unIndexVerts), !(forEach_preserves m_vecVertices),
      !(forEach_preserves m_uncI) by reflexivity.
    auto.
  - set (b1 := forEach _ _ (m_Buf g)).
    assert (Hv : m_unIndexVerts b1 = m_unIndexVerts (m_Buf g))
      by (apply forEach_preserves; reflexivity).
    assert (Hl : m_vecVertices b1 = m_vecVertices (m_Buf g))
      by (apply forEach_preserves; reflexivity).
    assert (Hc : m_uncI b1 = m_uncI (m_Buf g))
      by (apply forEach_preserves; reflexivity).
    destruct (m_bLineBatchCall (m_Line g)); cbn; [rewrite Hv, Hl, Hc; auto |].
    destruct (bool_decide (m_PolyType (m_Line g) = LINE_LOOP)
              || bool_decide (m_PolyType (m_Line g) = FILLED)); cbn;
      [| rewrite Hv, Hl, Hc; auto].
    destruct (m_bLineBatchFirst (m_Line g)); cbn; [rewrite Hv, Hl, Hc; auto |].
    destruct (m_aColour g) as [[[? ?] ?] ?]. cbn.
    rewrite !length_insert, Hv, Hl, Hc. repeat split; lia.
Qed.

(** C3, on [polygon]: it never compares the cost counter with the
    threshold and never flushes.  Given more vertices than the vertex
    buffer has room for, it leaves the vertex cursor above the buffer's
    capacity, with the whole cost added to the counter and nothing
    submitted. *)
Theorem polygon_overruns_without_flush (vs : list Vector2d) (pt : PolygonType)
    (off : Vector2d) (g : CGraphics) :
  length (m_vecVertices (m_Buf g))
    < m_unIndexVerts (m_Buf g) + 3 * length vs →
  length (m_vecVertices (m_Buf (polygon vs pt off g)))
    < m_unIndexVerts (m_Buf (polygon vs pt off g))
  ∧ m_uncI (m_Buf (polygon vs pt off g)) = m_uncI (m_Buf g) + 4 * length vs
  ∧ m_Device (polygon vs pt off g) = m_Device g.
Proof.
  intros Hover. unfold polygon.
  match goal with |- context [endLine ?h] =>
    destruct (endLine_verts h) as (Hv & Hl & Hc & Hd); set (g2 := h) in *
  end.
  rewrite Hl, Hc, Hd. clear Hl Hc Hd.
  assert (Hcur : m_unIndexVerts (m_Buf g2)
                 = m_unIndexVerts (m_Buf g) + 3 * length vs).
  { unfold g2. cbn.
    rewrite (forEach_preserves m_unIndexVerts)
      by (intros; destruct (m_aColour g) as [[[? ?] ?] ?]; reflexivity).
    destruct (isZero off);
      rewrite (forEach_count m_unIndexVerts 3) by reflexivity; reflexivity. }
  assert (Hlen : length (m_vecVertices (m_Buf g2))
                 = length (m_vecVertices (m_Buf g))).
  { unfold g2. cbn.
    rewrite (forEach_preserves (λ b, length (m_vecVertices b)))
      by (intros; destruct (m_aColour g) as [[[? ?] ?] ?]; reflexivity).
    destruct (isZero off);
      apply (forEach_preserves (λ b, length (m_vecVertices b)));
      intros; cbn; rewrite !length_insert; reflexivity. }
  split; [lia |]. split; [| reflexivity].
  unfold g2. cbn.
  rewrite (forEach_preserves m_uncI)
    by (intros; destruct (m_aColour g) as [[[? ?] ?] ?]; reflexivity).
  destruct (isZero off);
    rewrite (forEach_preserves m_uncI) by reflexivity; reflexivity.
Qed.

Lemma polygon_overruns_without_flush_witness :
  length (m_vecVertices
            (m_Buf (polygon (replicate 6 (0, 0)%R) LINE_STRIP (0, 0)%R graphics16)))
    < m_unIndexVerts
        (m_Buf (polygon (replicate 6 (0, 0)%R) LINE_STRIP (0, 0)%R graphics16))
  ∧ m_uncI (m_Buf (polygon (replicate 6 (0, 0)%R) LINE_STRIP (0, 0)%R graphics16))
    = m_uncI (m_Buf graphics16) + 4 * length (replicate 6 (0, 0)%R)
  ∧ m_Device (polygon (replicate 6 (0, 0)%R) LINE_STRIP (0, 0)%R graphics16)
    = m_Device graphics16.
Proof.
  apply (polygon_overruns_without_flush (replicate 6 (0, 0)%R) LINE_STRIP
           (0, 0)%R graphics16).
  cbn. lia.
Defined.

Lemma submitBatch_Some (g : CGraphics) (m : CRenderMode) :
  m_pRenderMode (m_Batch g) = Some m → submitBatch g = Some (flushed m g).
Proof. intros H. unfold submitBatch. rewrite H. reflexivity. Qed.

(** The sibling emitters do compare and flush; [dot] for one: over the
    threshold it submits the batch and resets every cursor. *)
Lemma flushIfOver_over (size : nat) (m : CRenderMode) (g : CGraphics) :
  m_pRenderMode (m_Batch g) = Some m →
  size / 2 < m_uncI (m_Buf g) →
  flushIfOver size g
  = Some (set_Buf (resetCursors (m_Buf g)) (flushed m g)).
Proof.
  intros Hm Hover. unfold flushIfOver.
  destruct (Nat.ltb_spec (size / 2) (m_uncI (m_Buf g))) as [_ | Hle]; [| lia].
  unfold restartRenderBatchInternal. rewrite (submitBatch_Some g m Hm).
  reflexivity.
Qed.

Lemma dot_flushes_over_threshold (size : nat) (m : CRenderMode) (v : Vector2d)
    (g : CGraphics) :
  m_pRenderMode (m_Batch g) = Some m →
  size / 2 < m_uncI (m_Buf g) + 4 →
  ∃ g', dot size v g = Some g'
        ∧ length (m_Device g') = length (m_Device g) + 1
        ∧ m_unIndexVerts (m_Buf g') = 0
        ∧ m_uncI (m_Buf g') = 0.
Proof.
  intros Hm Hover. unfold dot.
  erewrite flushIfOver_over.
  - eexists. split; [reflexivity |]. cbn. rewrite length_app. cbn. auto.
  - exact Hm.
  - destruct (m_aColour g) as [[[? ?] ?] ?]. cbn. exact Hover.
Qed.

(** ** Line loops across a forced flush *)

Lemma flat_snoc (d : R) (ws : list Vector2d) (v : Vector2d) :
  flat d (ws ++ [v]) = flat d ws ++ [v.1; v.2; d].
Proof. unfold flat. rewrite flat_map_app. cbn. reflexivity. Qed.

Lemma length_flat (d : R) (ws : list Vector2d) :
  length (flat d ws) = 3 * length ws.
Proof. unfold flat. induction ws as [|w ws IH]; cbn in *; lia. Qed.

Ltac calm :=
  cbn -[Nat.modulo Nat.div Nat.mul Nat.add Nat.sub Nat.ltb Nat.leb Nat.eqb].
Tactic Notation "calm" "in" hyp(H) :=
  cbn -[Nat.modulo Nat.div Nat.mul Nat.add Nat.sub Nat.ltb Nat.leb Nat.eqb] in H.

(** [addVertex] below the threshold, or on an odd vertex count: the vertex
    is appended and nothing else happens. *)
Lemma addVertex_plain (size : nat) (d : R) (col : R * R * R * R)
    (m : CRenderMode) (dev : list Submission) (first : bool) (vf : R * R)
    (cost : nat) (ws : list Vector2d) (v : Vector2d) (g : CGraphics) :
  LineGen size d col m dev first vf cost ws g →
  (size / 2 < cost + 4 → length ws mod 2 ≠ 0) →
  3 * (length ws + 1) ≤ size →
  ∃ g', addVertex size v g = Some g'
        ∧ LineGen size d col m dev first vf (cost + 4) (ws ++ [v]) g'.
Proof.
  unfold LineGen.
  intros (Hd & Hc & Hm & Hdev & Hl & Hcost & Hi & Hil & Hiv & Hv & Hlv & Hll)
    Hno Hroom.
  assert (Hcond : (size / 2 <? m_uncI (m_Buf g) + 4)
                  && (m_nLineNrOfVerts (m_Line g) mod 2 =? 0) = false).
  { rewrite Hcost, Hl. calm.
    destruct (Nat.ltb_spec (size / 2) (cost + 4)) as [Hover |]; [| reflexivity].
    destruct (Nat.eqb_spec (length ws mod 2) 0) as [He |]; [| reflexivity].
    exfalso. apply (Hno Hover He). }
  unfold addVertex. calm. rewrite Hcond. calm.
  eexists. split; [reflexivity |].
  rewrite Hd, Hc, Hl. destruct col as [[[c0 c1] c2] c3].
  unfold vertsOf in *. calm.
  rewrite !length_insert, length_app, flat_snoc, Hiv. take_steps.
  rewrite <- Hiv, Hv, <- !app_assoc.
  repeat split; try assumption; try reflexivity; cbn; lia.
Qed.

Lemma forEachM_app {A S : Type} (xs ys : list A) (body : A → S → option S)
    (s : S) :
  forEachM (xs ++ ys) body s = forEachM xs body s ≫= forEachM ys body.
Proof.
  revert s. induction xs as [|x xs IH]; intros s; [reflexivity |].
  cbn. destruct (body x s) as [s' |]; [apply IH | reflexivity].
Qed.

Lemma addVertices_plain (size : nat) (d : R) (col : R * R * R * R)
    (m : CRenderMode) (dev : list Submission) (first : bool) (vf : R * R)
    (ws' : list Vector2d) :
  ∀ (cost : nat) (ws : list Vector2d) (g : CGraphics),
    LineGen size d col m dev first vf cost ws g →
    (∀ i, i < length ws' → size / 2 < cost + 4 * (i + 1) →
          (length ws + i) mod 2 ≠ 0) →
    3 * (length ws + length ws') ≤ size →
    ∃ g', forEachM ws' (addVertex size) g = Some g'
          ∧ LineGen size d col m dev first vf (cost + 4 * length ws')
              (ws ++ ws') g'.
Proof.
  induction ws' as [|v ws' IH]; intros cost ws g HG Hno Hroom.
  - exists g. split; [reflexivity |].
    rewrite app_nil_r. cbn. rewrite Nat.add_0_r. exact HG.
  - cbn [length] in *.
    destruct (addVertex_plain size d col m dev first vf cost ws v g HG)
      as (g1 & Hg1 & HG1).
    { intros Hover. specialize (Hno 0 ltac:(lia)).
      rewrite Nat.add_0_r in Hno. apply Hno. lia. }
    { lia. }
    destruct (IH (cost + 4) (ws ++ [v]) g1 HG1) as (g2 & Hg2 & HG2).
    { intros i Hi Hover. rewrite length_app. cbn.
      replace (length ws + 1 + i) with (length ws + S i) by lia.
      apply Hno; lia. }
    { rewrite length_app. cbn. lia. }
    exists g2. split.
    + cbn. rewrite Hg1. cbn. exact Hg2.
    + replace (cost + 4 * S (length ws')) with (cost + 4 + 4 * length ws')
        by lia.
      rewrite <- app_assoc in HG2. exact HG2.
Qed.

(** *** Index runs and the segments they stand for *)

Lemma segments_flat_map (f : nat → nat * nat) (l : list nat) :
  segments (flat_map (λ j, [(f j).1; (f j).2]) l) = f <$> l.
Proof.
  induction l as [|j l IH]; [reflexivity |].
  cbn. rewrite IH. destruct (f j). reflexivity.
Qed.

Lemma segments_chainIdx (i0 m : nat) :
  segments (chainIdx i0 m) = (λ j, (i0 + j, i0 + j + 1)) <$> seq 0 m.
Proof. apply (segments_flat_map (λ j, (i0 + j, i0 + j + 1))). Qed.

Lemma vertexAt_flat (d : R) (ws : list Vector2d) (j : nat) :
  vertexAt (flat d ws) j = nth j ws (0, 0)%R.
Proof.
  unfold vertexAt, flat. revert j.
  induction ws as [|w ws IH]; intros j.
  - cbn. destruct (3 * j), (3 * j + 1), j; reflexivity.
  - destruct j as [|j].
    + cbn. destruct w. reflexivity.
    + replace (3 * S j) with (S (S (S (3 * j)))) by lia.
      replace (S (S (S (3 * j))) + 1) with (S (S (S (3 * j + 1)))) by lia.
      cbn [flat_map app nth]. apply IH.
Qed.

Lemma path_nth {A : Type} (dflt : A) (vs : list A) :
  path vs = (λ j, (nth j vs dflt, nth (j + 1) vs dflt)) <$> seq 0 (length vs - 1).
Proof.
  induction vs as [|a vs IH]; [reflexivity |].
  destruct vs as [|b vs]; [reflexivity |].
  change (path (a :: b :: vs)) with ((a, b) :: path (b :: vs)). rewrite IH.
  cbn [length]. replace (S (S (length vs)) - 1) with (S (S (length vs) - 1))
    by lia.
  cbn [seq fmap list_fmap]. f_equal.
  rewrite <- fmap_S_seq, <- list_fmap_compose.
  apply list_fmap_ext. intros _ j _. reflexivity.
Qed.

(** A run of vertices joined by its index chain draws the path through
    them. *)
Lemma resolve_chain (d : R) (ws : list Vector2d) :
  resolve (flat d ws) (chainIdx 0 (length ws - 1)) = path ws.
Proof.
  unfold resolve. rewrite segments_chainIdx, <- list_fmap_compose.
  rewrite (path_nth (0, 0)%R).
  apply list_fmap_ext. intros _ j _. cbn.
  rewrite !vertexAt_flat. reflexivity.
Qed.

Lemma chainIdx_S (i0 m : nat) :
  chainIdx i0 (S m) = chainIdx i0 m ++ [i0 + m; i0 + m + 1].
Proof. unfold chainIdx. rewrite seq_S, flat_map_app. reflexivity. Qed.

(** The loop of [endLine] over a strip or loop of [n] vertices: [n - 1]
    index pairs, the ordinal counter moved to the last vertex. *)
Lemma lineLoop_effect (n : nat) (b : Buffers) :
  m_unIndexLines b + 2 * (n - 1) ≤ length (m_vecIndicesLines b) →
  let b' :=
    forEach (forRange 0 (Z.of_nat n - 1) 1)
      (λ _ b, b |> putLineInc |> putLineCur) b in
  linesOf b' = linesOf b ++ chainIdx (m_unIndex b) (n - 1)
  ∧ m_unIndex b' = m_unIndex b + (n - 1)
  ∧ m_unIndexLines b' = m_unIndexLines b + 2 * (n - 1)
  ∧ length (m_vecIndicesLines b') = length (m_vecIndicesLines b)
  ∧ m_vecVertices b' = m_vecVertices b
  ∧ m_unIndexVerts b' = m_unIndexVerts b.
Proof.
  intros Hroom. cbv zeta.
  destruct n as [|n].
  { (* no vertex: the bound is -1 and the loop does not run *)
    rewrite forRange_empty by lia. unfold chainIdx. cbn.
    rewrite app_nil_r. repeat split; lia. }
  replace (Z.of_nat (S n) - 1)%Z with (0 + Z.of_nat (S n - 1))%Z by lia.
  apply (forEach_forRange_inv
    (λ j b', linesOf b' = linesOf b ++ chainIdx (m_unIndex b) j
             ∧ m_unIndex b' = m_unIndex b + j
             ∧ m_unIndexLines b' = m_unIndexLines b + 2 * j
             ∧ length (m_vecIndicesLines b') = length (m_vecIndicesLines b)
             ∧ m_vecVertices b' = m_vecVertices b
             ∧ m_unIndexVerts b' = m_unIndexVerts b)).
  - intros j b' Hj (HL & Hi & Hl & Hlen & Hv & Hiv).
    rewrite chainIdx_S. unfold linesOf in *.
    cbn -[Nat.mul Nat.add Nat.sub chainIdx]. rewrite !length_insert.
    take_steps. rewrite HL, Hi, <- !app_assoc.
    repeat split; try assumption; cbn -[chainIdx]; lia.
  - unfold chainIdx. cbn. rewrite app_nil_r.
    repeat split; lia.
Qed.

Lemma nth_take_lt {A : Type} (l : list A) (n i : nat) (dflt : A) :
  i < n → nth i (take n l) dflt = nth i l dflt.
Proof.
  revert n i. induction l as [|x l IH]; intros n i Hi.
  - destruct n, i; reflexivity.
  - destruct n as [|n]; [lia |]. destruct i as [|i]; [reflexivity |].
    cbn. apply IH. lia.
Qed.

Lemma restartRenderBatchInternal_Some (m : CRenderMode) (g : CGraphics) :
  m_pRenderMode (m_Batch g) = Some m →
  restartRenderBatchInternal g
  = Some (set_Buf (resetCursors (m_Buf g)) (flushed m g)).
Proof.
  intros Hm. unfold restartRenderBatchInternal.
  rewrite (submitBatch_Some g m Hm). reflexivity.
Qed.

(** [endLine] called from [addVertex] for a loop: the index pairs of the
    run and nothing more. *)
Lemma endLine_batchCall (g : CGraphics) :
  m_PolyType (m_Line g) = LINE_LOOP →
  m_bLineBatchCall (m_Line g) = true →
  endLine g
  = set_Line (m_Line g)
      (set_Buf
         (incIndex
            (forEach (forRange 0 (Z.of_nat (m_nLineNrOfVerts (m_Line g)) - 1) 1)
               (λ _ b, b |> putLineInc |> putLineCur) (m_Buf g))) g).
Proof.
  intros Hty Hcall. unfold endLine. rewrite Hty, Hcall. cbn.
  destruct (m_Line g). cbn in *. subst. reflexivity.
Qed.

Lemma sub_lines_uploadOf (m : CRenderMode) (b : Buffers) :
  getRenderModeType m = VERT3COL4 → sub_lines (uploadOf m b) = linesOf b.
Proof.
  intros Hty. unfold sub_lines, uploadOf, drawsOf. rewrite Hty. cbn.
  rewrite app_nil_r. reflexivity.
Qed.

(** [addVertex] over the threshold on an even vertex count: the first
    vertex of the run is saved, the run is closed without its closing
    segment, the batch is flushed, and the new vertex starts a fresh run. *)
Lemma addVertex_split (size : nat) (d : R) (col : R * R * R * R)
    (m : CRenderMode) (dev : list Submission) (vf : R * R) (cost : nat)
    (w0 : Vector2d) (ws0 : list Vector2d) (v : Vector2d) (g : CGraphics) :
  LineGen size d col m dev true vf cost (w0 :: ws0) g →
  getRenderModeType m = VERT3COL4 →
  size / 2 < cost + 4 →
  length (w0 :: ws0) mod 2 = 0 →
  2 * length ws0 ≤ size → 3 ≤ size →
  ∃ g' sub,
    addVertex size v g = Some g'
    ∧ LineGen size d col m (dev ++ [sub]) false w0 0 [v] g'
    ∧ edgesOfSubmission sub = path (w0 :: ws0).
Proof.
  unfold LineGen.
  intros (Hd & Hc & Hm & Hdev & Hl & Hcost & Hi & Hil & Hiv & Hv & Hlv & Hll)
    Hty Hover Heven Hroom Hroom3.
  assert (Hcond : (size / 2 <? m_uncI (m_Buf g) + 4)
                  && (m_nLineNrOfVerts (m_Line g) mod 2 =? 0) = true).
  { rewrite Hcost, Hl. calm. cbn [length] in Heven. rewrite Heven.
    destruct (Nat.ltb_spec (size / 2) (cost + 4)); [reflexivity | lia]. }
  unfold addVertex. calm. rewrite Hcond. rewrite Hl. calm.
  rewrite endLine_batchCall by reflexivity. calm.
  erewrite restartRenderBatchInternal_Some by (calm; exact Hm). calm.
  set (b1 := forEach _ _ _).
  destruct (lineLoop_effect (S (length ws0)) (addCost 4 (m_Buf g)))
    as (HL & HI & HIL & HLEN & HV & HIV).
  { calm. rewrite Hil, Hll. lia. }
  fold b1 in HL, HI, HIL, HLEN, HV, HIV. calm in HL. calm in HI.
  calm in HIL. calm in HLEN. calm in HV. calm in HIV.
  eexists. eexists. split; [reflexivity |]. split.
  - calm. rewrite Hd, Hc, Hdev. destruct col as [[[c0 c1] c2] c3].
    unfold vertsOf. calm. rewrite !length_insert, HV, HLEN, Hlv, Hll.
    take_steps.
    assert (Hw0 : (nth (m_unIndexVerts (m_Buf g) - 3 * S (length ws0))
                     (m_vecVertices (m_Buf g)) 0%R,
                   nth (m_unIndexVerts (m_Buf g) - 3 * S (length ws0) + 1)
                     (m_vecVertices (m_Buf g)) 0%R) = w0).
    { rewrite Hiv. cbn [length]. rewrite Nat.sub_diag.
      rewrite <- (nth_take_lt _ (3 * S (length ws0)) 0) by lia.
      rewrite <- (nth_take_lt _ (3 * S (length ws0)) (0 + 1)) by lia.
      cbn [length] in Hiv. rewrite <- Hiv.
      change (take (m_unIndexVerts (m_Buf g)) (m_vecVertices (m_Buf g)))
        with (vertsOf (m_Buf g)).
      rewrite Hv. destruct w0. reflexivity. }
    rewrite Hw0.
    repeat split; try reflexivity; try assumption.
  - unfold edgesOfSubmission. rewrite sub_lines_uploadOf by exact Hty.
    unfold uploadOf. cbn [sub_vertices].
    change (take (m_unIndexVerts (incIndex b1)) (m_vecVertices (incIndex b1)))
      with (take (m_unIndexVerts b1) (m_vecVertices b1)).
    change (linesOf (incIndex b1)) with (linesOf b1).
    rewrite HIV, HV, HL.
    change (take (m_unIndexVerts (m_Buf g)) (m_vecVertices (m_Buf g)))
      with (vertsOf (m_Buf g)).
    rewrite Hv, Hil, Hi. cbn [take app].
    replace (S (length ws0) - 1) with (length (w0 :: ws0) - 1)
      by (cbn; lia).
    apply resolve_chain.
Qed.

(** [endLine] for a loop that was split before: the pairs of the run, a
    copy of the saved first vertex, and the segment to that copy. *)
Lemma endLine_closes_with_copy (size : nat) (d : R) (col : R * R * R * R)
    (m : CRenderMode) (dev : list Submission) (vf : R * R) (cost : nat)
    (ws : list Vector2d) (g : CGraphics) :
  LineGen size d col m dev false vf cost ws g →
  1 ≤ length ws →
  3 * (length ws + 1) ≤ size → 2 * length ws ≤ size →
  m_Device (endLine g) = dev
  ∧ resolve (vertsOf (m_Buf (endLine g))) (linesOf (m_Buf (endLine g)))
    = path (ws ++ [vf]).
Proof.
  unfold LineGen.
  intros (Hd & Hc & Hm & Hdev & Hl & Hcost & Hi & Hil & Hiv & Hv & Hlv & Hll)
    Hne Hroom3 Hroom2.
  unfold endLine. rewrite Hl.
  cbn -[Nat.mul Nat.add Nat.sub resolve].
  destruct (decide (LINE_LOOP = LINE_SINGLE)) as [Hx | _]; [discriminate Hx |].
  rewrite (bool_decide_eq_true_2 (LINE_LOOP = LINE_LOOP)) by reflexivity.
  cbn -[Nat.mul Nat.add Nat.sub resolve]. set (b1 := forEach _ _ _).
  destruct (lineLoop_effect (length ws) (m_Buf g))
    as (HL & HI & HIL & HLEN & HV & HIV); [lia |].
  fold b1 in HL, HI, HIL, HLEN, HV, HIV.
  split; [exact Hdev |].
  unfold linesOf in HL. rewrite Hi in HI, HL. rewrite Hil in HIL, HL.
  rewrite take_0, app_nil_l in HL.
  rewrite Hd, Hc. destruct col as [[[c0 c1] c2] c3].
  unfold vertsOf, linesOf in *.
  cbn -[Nat.mul Nat.add Nat.sub resolve]. rewrite HV, HIV, Hiv.
  take_steps.
  rewrite HL, HI, <- Hiv, Hv.
  replace (((flat d ws ++ [vf.1]) ++ [vf.2]) ++ [d]) with (flat d (ws ++ [vf]))
    by (rewrite flat_snoc, <- !app_assoc; reflexivity).
  replace ((chainIdx 0 (length ws - 1) ++ [0 + (length ws - 1)])
           ++ [0 + (length ws - 1) + 1])
    with (chainIdx 0 (length (ws ++ [vf]) - 1)).
  - apply resolve_chain.
  - rewrite length_app. cbn [length].
    replace (length ws + 1 - 1) with (S (length ws - 1)) by lia.
    rewrite chainIdx_S, <- app_assoc. reflexivity.
Qed.

Lemma length_path {A : Type} (vs : list A) : length (path vs) = length vs - 1.
Proof.
  induction vs as [|a vs IH]; [reflexivity |].
  destruct vs as [|b vs]; [reflexivity |].
  change (path (a :: b :: vs)) with ((a, b) :: path (b :: vs)).
  cbn [length] in *. rewrite IH. lia.
Qed.

Lemma closedCycle_length {A : Type} (es : list (A * A)) (vs : list A) :
  closedCycle es vs → length es = length vs.
Proof.
  intros (es' & Ho & _ & _ & Hp). apply Permutation_length in Hp.
  apply Forall2_length in Ho. rewrite length_fmap in Hp. lia.
Qed.

Lemma LineGen_beginLine (size : nat) (m : CRenderMode) (g : CGraphics) :
  freshBatch size m g →
  LineGen size (m_fDepth g) (m_aColour g) m (m_Device g) true
    (m_aVertFirst (m_Line g)) 0 [] (beginLine LINE_LOOP g).
Proof.
  intros (Hm & Hc & Hi & Hiv & Hil & Hf & Hb & Hlv & Hll).
  unfold LineGen, beginLine, vertsOf. cbn. rewrite Hf, Hb, Hiv.
  repeat split; assumption || reflexivity.
Qed.

(** *** The loop that is not split *)

Lemma segments_flat_map_app (f : nat → nat * nat) (l rest : list nat) :
  segments (flat_map (λ j, [(f j).1; (f j).2]) l ++ rest)
  = (f <$> l) ++ segments rest.
Proof.
  induction l as [|j l IH]; [reflexivity |].
  cbn. rewrite IH. destruct (f j). reflexivity.
Qed.

(** [endLine] for a loop that was not split: the pairs of the run and the
    segment between the first vertex, still in the buffer, and the last. *)
Lemma endLine_closes_in_buffer (size : nat) (d : R) (col : R * R * R * R)
    (m : CRenderMode) (dev : list Submission) (vf : R * R) (cost : nat)
    (ws : list Vector2d) (g : CGraphics) :
  LineGen size d col m dev true vf cost ws g →
  1 ≤ length ws →
  2 * length ws ≤ size →
  m_Device (endLine g) = dev
  ∧ resolve (vertsOf (m_Buf (endLine g))) (linesOf (m_Buf (endLine g)))
    = path ws
      ++ [(nth 0 ws (0, 0)%R, nth (length ws - 1) ws (0, 0)%R)].
Proof.
  unfold LineGen.
  intros (Hd & Hc & Hm & Hdev & Hl & Hcost & Hi & Hil & Hiv & Hv & Hlv & Hll)
    Hne Hroom2.
  unfold endLine. rewrite Hl.
  cbn -[Nat.mul Nat.add Nat.sub resolve].
  destruct (decide (LINE_LOOP = LINE_SINGLE)) as [Hx | _]; [discriminate Hx |].
  rewrite (bool_decide_eq_true_2 (LINE_LOOP = LINE_LOOP)) by reflexivity.
  cbn -[Nat.mul Nat.add Nat.sub resolve]. set (b1 := forEach _ _ _).
  destruct (lineLoop_effect (length ws) (m_Buf g))
    as (HL & HI & HIL & HLEN & HV & HIV); [lia |].
  fold b1 in HL, HI, HIL, HLEN, HV, HIV.
  split; [exact Hdev |].
  unfold linesOf in HL. rewrite Hi in HI, HL. rewrite Hil in HIL, HL.
  rewrite take_0, app_nil_l in HL.
  unfold vertsOf, linesOf in *.
  cbn -[Nat.mul Nat.add Nat.sub resolve]. rewrite HV, HIV.
  take_steps.
  rewrite HL, HI, Hv.
  replace (0 + (length ws - 1) + 1 - length ws) with 0 by lia.
  unfold resolve, chainIdx.
  rewrite <- app_assoc.
  rewrite (segments_flat_map_app (λ j, (0 + j, 0 + j + 1))).
  rewrite fmap_app, <- list_fmap_compose. cbn [segments fmap list_fmap app].
  rewrite !vertexAt_flat. f_equal.
  rewrite (path_nth (0, 0)%R).
  apply list_fmap_ext. intros _ j _. cbn. rewrite !vertexAt_flat. reflexivity.
Qed.

Lemma chained_path_snoc {A : Type} (dflt z : A) (vs : list A) :
  chained (path vs ++ [(List.last vs dflt, z)]).
Proof.
  induction vs as [|a vs IH]; [exact I |].
  destruct vs as [|b vs]; [exact I |].
  change (path (a :: b :: vs)) with ((a, b) :: path (b :: vs)).
  change (List.last (a :: b :: vs) dflt) with (List.last (b :: vs) dflt).
  cbn [app]. destruct vs as [|c vs].
  - cbn. auto.
  - change (path (b :: c :: vs)) with ((b, c) :: path (c :: vs)) in *.
    cbn [app] in *. split; [reflexivity | exact IH].
Qed.

Lemma fst_path_snoc {A : Type} (dflt z : A) (vs : list A) :
  vs ≠ [] → (path vs ++ [(List.last vs dflt, z)]).*1 = vs.
Proof.
  induction vs as [|a vs IH]; [done |]. intros _.
  destruct vs as [|b vs]; [reflexivity |].
  change (path (a :: b :: vs)) with ((a, b) :: path (b :: vs)).
  change (List.last (a :: b :: vs) dflt) with (List.last (b :: vs) dflt).
  cbn [app fmap list_fmap]. cbn [fst]. f_equal. apply IH. done.
Qed.

Lemma nth_last_default {A : Type} (dflt : A) (vs : list A) :
  nth (length vs - 1) vs dflt = List.last vs dflt.
Proof.
  induction vs as [|a vs IH]; [reflexivity |].
  destruct vs as [|b vs]; [reflexivity |].
  change (List.last (a :: b :: vs) dflt) with (List.last (b :: vs) dflt).
  rewrite <- IH. cbn [length]. replace (S (S (length vs)) - 1) with (S (S (length vs) - 1)) by lia.
  reflexivity.
Qed.

(** A path closed by the segment between its first and its last point is a
    closed cycle through its points. *)
Lemma closedCycle_path (dflt : Vector2d) (vs : list Vector2d) :
  vs ≠ [] →
  closedCycle (path vs ++ [(nth 0 vs dflt, nth (length vs - 1) vs dflt)]) vs.
Proof.
  intros Hne. rewrite nth_last_default.
  exists (path vs ++ [(List.last vs dflt, nth 0 vs dflt)]).
  split; [| split; [| split]].
  - apply Forall2_app; [| repeat constructor; right; reflexivity].
    apply Forall2_same_length_lookup_2; [reflexivity |].
    intros i x y Hx Hy. left. congruence.
  - apply chained_path_snoc.
  - destruct vs as [|a [|b vs]]; [done | |].
    + cbn. eexists _, _. repeat split; reflexivity.
    + change (path (a :: b :: vs)) with ((a, b) :: path (b :: vs)).
      eexists (a, b), _. split; [reflexivity |].
      split; [apply last_snoc | reflexivity].
  - rewrite fst_path_snoc by exact Hne. reflexivity.
Qed.

(** A loop that is not split: with the whole cost under the threshold the
    segments emitted are the path through the vertices and the closing
    segment, one closed cycle. *)
Lemma drawLoop_unsplit_closes (size : nat) (m : CRenderMode)
    (vs : list Vector2d) (g : CGraphics) :
  freshBatch size m g →
  1 ≤ length vs →
  4 * length vs ≤ size / 2 →
  ∃ g',
    drawLoop size vs g = Some g'
    ∧ emittedEdges g'
      = flat_map edgesOfSubmission (m_Device g)
        ++ path vs
        ++ [(nth 0 vs (0, 0)%R, nth (length vs - 1) vs (0, 0)%R)]
    ∧ closedCycle
        (path vs ++ [(nth 0 vs (0, 0)%R, nth (length vs - 1) vs (0, 0)%R)])
        vs.
Proof.
  intros Hfresh Hne Hunder.
  assert (Hdiv : size / 2 * 2 ≤ size)
    by (pose proof (Nat.div_mod_eq size 2); lia).
  unfold drawLoop.
  destruct (addVertices_plain size (m_fDepth g) (m_aColour g) m (m_Device g)
              true (m_aVertFirst (m_Line g)) vs 0 []
              (beginLine LINE_LOOP g) (LineGen_beginLine size m g Hfresh))
    as (g1 & Hg1 & HG1).
  { intros i Hi Hover. lia. }
  { cbn [length]. lia. }
  rewrite Hg1. cbn [mbind option_bind app] in *.
  destruct (endLine_closes_in_buffer size (m_fDepth g) (m_aColour g) m
              (m_Device g) (m_aVertFirst (m_Line g)) (0 + 4 * length vs) vs
              g1 HG1) as (Hdev & Hedges); [lia | lia |].
  eexists. split; [reflexivity |]. split.
  - unfold emittedEdges. rewrite Hdev, Hedges. reflexivity.
  - apply closedCycle_path. destruct vs; [cbn in Hne; lia | done].
Qed.

(** C1, as the code has it: a line loop of [N] vertices that is split once,
    before its vertex number [k] (counting from zero), reaches the device
    as the path through the first [k] vertices, in the batch that is
    flushed, and the path through the remaining ones on to a copy of the
    first vertex, in the next batch.  No segment joins vertex [k - 1] to
    vertex [k]: the stream has [N - 1] segments and is not a closed cycle
    through the [N] vertices. *)
Theorem loop_split_leaves_gap (size : nat) (m : CRenderMode)
    (vs : list Vector2d) (k : nat) (g : CGraphics) :
  freshBatch size m g →
  getRenderModeType m = VERT3COL4 →
  16 ≤ size →
  k mod 2 = 0 → 0 < k < length vs →
  size / 2 < 4 * (k + 1) →
  4 * (k - 1) ≤ size / 2 →
  4 * (length vs - 1 - k) ≤ size / 2 →
  ∃ g',
    drawLoop size vs g = Some g'
    ∧ emittedEdges g'
      = flat_map edgesOfSubmission (m_Device g)
        ++ path (take k vs) ++ path (drop k vs ++ take 1 vs)
    ∧ ¬ closedCycle (path (take k vs) ++ path (drop k vs ++ take 1 vs)) vs.
Proof.
  intros Hfresh Hty Hsize Heven Hk Hcross Hbefore Hafter.
  pose proof (take_drop k vs) as Hsplit.
  assert (Hlen1 : length (take k vs) = k) by (rewrite length_take; lia).
  assert (Hlen2 : length (drop k vs) = length vs - k) by apply length_drop.
  destruct (take k vs) as [|w0 ws0] eqn:Hws1; [cbn in Hlen1; lia |].
  destruct (drop k vs) as [|v ws2] eqn:Hws2; [cbn in Hlen2; lia |].
  assert (Hhead : take 1 vs = [w0]) by (rewrite <- Hsplit; reflexivity).
  assert (HN : length vs = k + S (length ws2)).
  { rewrite <- Hsplit, length_app, Hlen1. reflexivity. }
  cbn [length] in Hlen1.
  assert (Hdiv : size / 2 * 2 ≤ size)
    by (pose proof (Nat.div_mod_eq size 2); lia).
  unfold drawLoop. rewrite Hhead. clear Hhead Hws1 Hws2 Hlen2.
  rewrite HN in *. clear HN. subst vs. rewrite forEachM_app.
  (* the run up to the split *)
  destruct (addVertices_plain size (m_fDepth g) (m_aColour g) m (m_Device g)
              true (m_aVertFirst (m_Line g)) (w0 :: ws0) 0 []
              (beginLine LINE_LOOP g) (LineGen_beginLine size m g Hfresh))
    as (g1 & Hg1 & HG1).
  { intros i Hi Hover. cbn [length] in *.
    assert (i = k - 1) as -> by lia.
    cbn [Nat.add]. intros Hodd.
    assert (k = 2 * (k / 2)) by (pose proof (Nat.div_mod_eq k 2); lia).
    pose proof (Nat.div_mod_eq (k - 1) 2). lia. }
  { cbn [length] in *. lia. }
  rewrite Hg1. cbn [mbind option_bind].
  (* the split *)
  cbn [app] in HG1. replace (0 + 4 * length (w0 :: ws0)) with (4 * k) in HG1
    by (cbn [length]; lia).
  destruct (addVertex_split size (m_fDepth g) (m_aColour g) m (m_Device g)
              (m_aVertFirst (m_Line g)) (4 * k) w0 ws0 v g1 HG1 Hty)
    as (g2 & sub & Hg2 & HG2 & Hsub).
  { lia. } { cbn [length]. rewrite Hlen1. exact Heven. } { lia. } { lia. }
  cbn [forEachM]. rewrite Hg2. cbn [mbind option_bind].
  (* the run after the split *)
  destruct (addVertices_plain size (m_fDepth g) (m_aColour g) m
              (m_Device g ++ [sub]) false w0 ws2 0 [v] g2 HG2)
    as (g3 & Hg3 & HG3).
  { intros i Hi Hover. lia. }
  { cbn [length]. lia. }
  rewrite Hg3. cbn [mbind option_bind].
  (* the end of the line *)
  destruct (endLine_closes_with_copy size (m_fDepth g) (m_aColour g) m
              (m_Device g ++ [sub]) w0 (0 + 4 * length ws2) ([v] ++ ws2) g3 HG3)
    as (Hdev & Hedges).
  { cbn [length app]. lia. } { cbn [length app]. lia. } { cbn [length app]. lia. }
  eexists. split; [reflexivity |]. split.
  - unfold emittedEdges. rewrite Hdev, Hedges, flat_map_app. cbn [flat_map].
    rewrite app_nil_r, Hsub, <- app_assoc. reflexivity.
  - intros Hcyc. apply closedCycle_length in Hcyc.
    rewrite !length_app, !length_path, !length_app in Hcyc.
    cbn [length] in Hcyc. lia.
Qed.

Lemma loop_split_leaves_gap_witness :
  ∃ g',
    drawLoop 16 unitSquare graphics16_begun = Some g'
    ∧ emittedEdges g'
      = flat_map edgesOfSubmission (m_Device graphics16_begun)
        ++ path (take 2 unitSquare)
        ++ path (drop 2 unitSquare ++ take 1 unitSquare)
    ∧ ¬ closedCycle
          (path (take 2 unitSquare)
           ++ path (drop 2 unitSquare ++ take 1 unitSquare))
          unitSquare.
Proof.
  apply (loop_split_leaves_gap 16 modeA unitSquare 2 graphics16_begun).
  - unfold freshBatch. cbn. repeat split; reflexivity.
  - reflexivity.
  - lia.
  - reflexivity.
  - cbn. lia.
  - cbn. lia.
  - cbn. lia.
  - cbn. lia.
Defined.

(** ** The render stack *)

Lemma beginRenderBatch_pushes (m : CRenderMode) (g g' : CGraphics) :
  beginRenderBatch m false g = Some g' →
  m_Batch g'
  = mkBatchState (m :: m_RenderModeStack (m_Batch g)) (Some m)
      (getRenderModeType m).
Proof.
  intros H. unfold beginRenderBatch, endRenderBatchForced, submitBatch in H.
  cbn in H.
  destruct (m_RenderModeStack (m_Batch g)) as [|top rest] eqn:Hst; cbn in H.
  - injection H as <-. cbn. rewrite Hst. reflexivity.
  - destruct (decide (getRenderModeType top ≠ getRenderModeType m)); cbn in H.
    + destruct (m_pRenderMode (m_Batch g)); cbn in H; [| done].
      injection H as <-. cbn. rewrite Hst. reflexivity.
    + injection H as <-. cbn. rewrite Hst. reflexivity.
Qed.

Lemma endRenderBatch_pops (DOM_DEV : bool) (x : CRenderMode)
    (rest : list CRenderMode) (g g' : CGraphics) :
  m_RenderModeStack (m_Batch g) = x :: rest →
  endRenderBatch DOM_DEV false g = Some g' →
  m_RenderModeStack (m_Batch g') = rest.
Proof.
  intros Hst H. unfold endRenderBatch in H. cbn -[beginRenderBatch] in H.
  rewrite Hst in H. destruct rest as [|top rest'].
  - unfold submitBatch in H. cbn in H.
    destruct (m_pRenderMode (m_Batch g)); cbn in H; [| done].
    injection H as <-. reflexivity.
  - destruct (decide (getRenderModeType top ≠ m_RenderModeType (m_Batch g))).
    + unfold submitBatch in H. cbn -[beginRenderBatch] in H.
      destruct (m_pRenderMode (m_Batch g)); cbn -[beginRenderBatch] in H; [| done].
      apply beginRenderBatch_pushes in H. rewrite H. reflexivity.
    + injection H as <-. reflexivity.
Qed.

Lemma batch_wf_same_batch (g g' : CGraphics) :
  m_Batch g' = m_Batch g → batch_wf g → batch_wf g'.
Proof. unfold batch_wf. intros ->. done. Qed.

(** A batch opened and closed again leaves the render stack as it found
    it, whatever was drawn in between and whatever had to be flushed on the
    way: [beginRenderBatch] does not fail, and [endRenderBatch] after it
    neither. *)
Theorem batch_pair_restores_stack (DOM_DEV : bool) (m : CRenderMode)
    (g : CGraphics) :
  batch_wf g →
  ∃ g1,
    beginRenderBatch m false g = Some g1
    ∧ ∀ g1',
        m_Batch g1' = m_Batch g1 →
        ∃ g2,
          endRenderBatch DOM_DEV false g1' = Some g2
          ∧ m_RenderModeStack (m_Batch g2) = m_RenderModeStack (m_Batch g).
Proof.
  intros Hwf.
  destruct (beginRenderBatch_total m g Hwf) as (g1 & Hb & _).
  exists g1. split; [exact Hb |]. intros g1' Hsame.
  assert (Hwf1 : batch_wf g1').
  { eapply batch_wf_same_batch; [exact Hsame |].
    eapply beginRenderBatch_wf, Hb. }
  destruct (endRenderBatch_total DOM_DEV g1' Hwf1) as (g2 & He & _).
  exists g2. split; [exact He |].
  eapply endRenderBatch_pops; [| exact He].
  rewrite Hsame, (beginRenderBatch_pushes _ _ _ Hb). reflexivity.
Qed.

Lemma batch_pair_restores_stack_witness :
  ∃ g1,
    beginRenderBatch modeB false graphics16_drawn = Some g1
    ∧ ∀ g1',
        m_Batch g1' = m_Batch g1 →
        ∃ g2,
          endRenderBatch true false g1' = Some g2
          ∧ m_RenderModeStack (m_Batch g2)
            = m_RenderModeStack (m_Batch graphics16_drawn).
Proof.
  apply (batch_pair_restores_stack true modeB graphics16_drawn).
  intros _. cbn. eauto.
Defined.

(** After every unforced [beginRenderBatch] and every unforced
    [endRenderBatch] the current render mode type is the type of the mode
    on top of the render stack. *)
Theorem unforced_calls_type_the_stack (DOM_DEV : bool) (m : CRenderMode)
    (g : CGraphics) :
  batch_wf g →
  (∃ g', beginRenderBatch m false g = Some g' ∧ stack_typed g')
  ∧ (∃ g', endRenderBatch DOM_DEV false g = Some g' ∧ stack_typed g').
Proof.
  intros Hwf. split.
  - destruct (beginRenderBatch_total m g Hwf) as (g' & Hb & _).
    exists g'. split; [exact Hb |].
    intros top rest Hst. rewrite (beginRenderBatch_pushes _ _ _ Hb) in *.
    cbn in *. congruence.
  - unfold batch_wf in Hwf.
    destruct (m_Batch g) as [st cur ty] eqn:Hb. cbn in Hwf.
    destruct st as [|x [|top rest]].
    + rewrite endRenderBatch_unbalanced by (rewrite Hb; reflexivity).
      eexists; split; [reflexivity |].
      intros top rest Hst. exfalso.
      destruct DOM_DEV; cbn in Hst; rewrite Hb in Hst; discriminate.
    + destruct Hwf as [c ->]; [done |].
      erewrite endRenderBatch_last by eassumption.
      eexists; split; [reflexivity |]. intros top rest Hst. discriminate.
    + destruct Hwf as [c ->]; [done |].
      destruct (decide (getRenderModeType top = ty)) as [<- | Hn].
      * erewrite endRenderBatch_same by eassumption.
        eexists; split; [reflexivity |].
        intros top' rest' Hst. cbn in *. congruence.
      * erewrite endRenderBatch_change by eassumption.
        match goal with |- context [beginRenderBatch top false ?h] =>
          destruct (beginRenderBatch_total top h) as (g' & Hg' & _)
        end.
        { intros _. cbn. eauto. }
        exists g'. split; [exact Hg' |].
        intros top' rest' Hst. rewrite (beginRenderBatch_pushes _ _ _ Hg') in *.
        cbn in *. congruence.
Qed.

Lemma unforced_calls_type_the_stack_witness :
  (∃ g', beginRenderBatch modeB false graphics16_nested = Some g'
         ∧ stack_typed g')
  ∧ (∃ g', endRenderBatch true false graphics16_nested = Some g'
           ∧ stack_typed g').
Proof.
  apply (unforced_calls_type_the_stack true modeB graphics16_nested).
  intros _. cbn. eauto.
Defined.

(** A batch opened inside a batch of the same render mode type is
    transparent: neither its [beginRenderBatch] nor its [endRenderBatch]
    submits anything or moves a cursor, and what is drawn inside stays in
    the buffers of the enclosing batch.  The enclosing batch's mode is not
    made current again: the inner mode remains the current one. *)
Theorem same_type_inner_batch_is_transparent (DOM_DEV : bool)
    (m top : CRenderMode) (cur : option CRenderMode)
    (rest : list CRenderMode) (ty : RenderModeType) (g : CGraphics) :
  m_Batch g = mkBatchState (top :: rest) cur ty →
  getRenderModeType top = getRenderModeType m →
  ∃ g1,
    beginRenderBatch m false g = Some g1
    ∧ m_Buf g1 = m_Buf g ∧ m_Device g1 = m_Device g
    ∧ ∀ b, ∃ g2,
        endRenderBatch DOM_DEV false (set_Buf b g1) = Some g2
        ∧ m_Buf g2 = b ∧ m_Device g2 = m_Device g
        ∧ m_Frame g2 = m_Frame g
        ∧ m_Batch g2
          = mkBatchState (top :: rest) (Some m) (getRenderModeType m).
Proof.
  intros Hb Hty.
  erewrite beginRenderBatch_same by eassumption.
  eexists. split; [reflexivity |]. split; [reflexivity |].
  split; [reflexivity |]. intros b.
  erewrite endRenderBatch_same by (cbn; rewrite Hty; reflexivity).
  eexists. split; [reflexivity |]. cbn. rewrite Hty. done.
Qed.

Lemma same_type_inner_batch_is_transparent_witness :
  ∃ g1,
    beginRenderBatch modeA false graphics16_drawn = Some g1
    ∧ m_Buf g1 = m_Buf graphics16_drawn
    ∧ m_Device g1 = m_Device graphics16_drawn
    ∧ ∀ b, ∃ g2,
        endRenderBatch true false (set_Buf b g1) = Some g2
        ∧ m_Buf g2 = b ∧ m_Device g2 = m_Device graphics16_drawn
        ∧ m_Frame g2 = m_Frame graphics16_drawn
        ∧ m_Batch g2
          = mkBatchState [modeA] (Some modeA) (getRenderModeType modeA).
Proof.
  apply (same_type_inner_batch_is_transparent true modeA modeA (Some modeA)
           [] VERT3COL4 graphics16_drawn); reflexivity.
Defined.

(** [restartRenderBatch] never changes the height of the render stack or
    what lies below its top, and it does not fail. *)
Theorem restartRenderBatch_keeps_stack_below (DOM_DEV : bool)
    (m : CRenderMode) (g : CGraphics) :
  batch_wf g →
  ∃ g',
    restartRenderBatch DOM_DEV m g = Some g'
    ∧ length (m_RenderModeStack (m_Batch g'))
      = length (m_RenderModeStack (m_Batch g))
    ∧ tail (m_RenderModeStack (m_Batch g'))
      = tail (m_RenderModeStack (m_Batch g)).
Proof.
  intros Hwf. unfold restartRenderBatch.
  match goal with |- context [if ?c then _ else _] =>
    destruct c eqn:Hc end; [| eauto].
  apply andb_prop in Hc as [Hc _]. apply andb_prop in Hc as [Hne _].
  apply bool_decide_eq_true_1 in Hne.
  destruct (m_RenderModeStack (m_Batch g)) as [|x rest] eqn:Hst; [done |].
  destruct (endRenderBatch_total DOM_DEV g Hwf) as (g1 & He & Hwf1).
  rewrite He. cbn -[beginRenderBatch].
  destruct (beginRenderBatch_total m g1 Hwf1) as (g2 & Hb & _).
  exists g2. split; [exact Hb |].
  rewrite (beginRenderBatch_pushes _ _ _ Hb). cbn.
  rewrite (endRenderBatch_pops _ _ _ _ _ Hst He). done.
Qed.

Lemma restartRenderBatch_keeps_stack_below_witness :
  ∃ g',
    restartRenderBatch true modeA graphics16_nested = Some g'
    ∧ length (m_RenderModeStack (m_Batch g'))
      = length (m_RenderModeStack (m_Batch graphics16_nested))
    ∧ tail (m_RenderModeStack (m_Batch g'))
      = tail (m_RenderModeStack (m_Batch graphics16_nested)).
Proof.
  apply (restartRenderBatch_keeps_stack_below true modeA graphics16_nested).
  intros _. cbn. eauto.
Defined.

Lemma restartRenderBatch_acts (DOM_DEV : bool) (m x : CRenderMode)
    (rest : list CRenderMode) (cur : option CRenderMode) (g : CGraphics) :
  m_Batch g = mkBatchState (x :: rest) cur (getRenderModeType m) →
  m_unIndex (m_Buf g) ≠ 0 →
  restartRenderBatch DOM_DEV m g
  = endRenderBatch DOM_DEV false g ≫= beginRenderBatch m false.
Proof.
  intros Hb Hn. unfold restartRenderBatch. rewrite Hb.
  cbn -[beginRenderBatch endRenderBatch].
  rewrite !bool_decide_eq_true_2 by done.
  destruct (m_unIndex (m_Buf g)) as [|k]; [done |]. reflexivity.
Qed.

(** [restartRenderBatch] on the only open batch, with geometry waiting and
    the type unchanged: one submission of what was waiting, under the mode
    that was current, then every cursor at zero and the argument as the
    current mode and the only stack entry. *)
Theorem restartRenderBatch_flushes_single (DOM_DEV : bool)
    (m x cur : CRenderMode) (g : CGraphics) :
  m_Batch g = mkBatchState [x] (Some cur) (getRenderModeType m) →
  m_unIndex (m_Buf g) ≠ 0 →
  ∃ g',
    restartRenderBatch DOM_DEV m g = Some g'
    ∧ m_Device g' = m_Device g ++ [uploadOf cur (m_Buf g)]
    ∧ m_Buf g' = resetCursors (m_Buf g)
    ∧ m_Batch g' = mkBatchState [m] (Some m) (getRenderModeType m).
Proof.
  intros Hb Hn.
  erewrite restartRenderBatch_acts by eassumption.
  erewrite endRenderBatch_last by eassumption.
  cbn -[beginRenderBatch].
  erewrite beginRenderBatch_idle by reflexivity.
  eexists. split; [reflexivity |]. cbn. done.
Qed.

Lemma restartRenderBatch_flushes_single_witness :
  ∃ g',
    restartRenderBatch true modeA graphics16_drawn = Some g'
    ∧ m_Device g'
      = m_Device graphics16_drawn ++ [uploadOf modeA (m_Buf graphics16_drawn)]
    ∧ m_Buf g' = resetCursors (m_Buf graphics16_drawn)
    ∧ m_Batch g' = mkBatchState [modeA] (Some modeA) (getRenderModeType modeA).
Proof.
  apply (restartRenderBatch_flushes_single true modeA modeA modeA
           graphics16_drawn); [reflexivity | cbn; lia].
Defined.

(** [restartRenderBatch] inside a nested batch whose enclosing batch has
    the same render mode type submits nothing and resets nothing, although
    geometry is waiting: it only replaces the top of the stack and the
    current mode by its argument. *)
Theorem restartRenderBatch_nested_submits_nothing (DOM_DEV : bool)
    (m x top : CRenderMode) (cur : option CRenderMode)
    (rest : list CRenderMode) (g : CGraphics) :
  m_Batch g = mkBatchState (x :: top :: rest) cur (getRenderModeType m) →
  getRenderModeType top = getRenderModeType m →
  m_unIndex (m_Buf g) ≠ 0 →
  ∃ g',
    restartRenderBatch DOM_DEV m g = Some g'
    ∧ m_Device g' = m_Device g
    ∧ m_Buf g' = m_Buf g
    ∧ m_Batch g'
      = mkBatchState (m :: top :: rest) (Some m) (getRenderModeType m).
Proof.
  intros Hb Hty Hn.
  erewrite restartRenderBatch_acts by eassumption.
  rewrite <- Hty in Hb.
  erewrite endRenderBatch_same by eassumption.
  cbn -[beginRenderBatch].
  erewrite beginRenderBatch_same by (reflexivity || exact Hty).
  eexists. split; [reflexivity |]. cbn. done.
Qed.

Lemma restartRenderBatch_nested_submits_nothing_witness :
  ∃ g',
    restartRenderBatch true modeA graphics16_nested = Some g'
    ∧ m_Device g' = m_Device graphics16_nested
    ∧ m_Buf g' = m_Buf graphics16_nested
    ∧ m_Batch g'
      = mkBatchState [modeA; modeA] (Some modeA) (getRenderModeType modeA).
Proof.
  apply (restartRenderBatch_nested_submits_nothing true modeA modeA modeA
           (Some modeA) [] graphics16_nested);
    [reflexivity | reflexivity | cbn; lia].
Defined.

(** ** The camera and the transform *)

Section Camera.
Local Open Scope R_scope.

(** The round trip in the other direction: with the camera at position
    zero, [screen2World] undoes [world2Screen] at every world point, for
    every rotation angle and every non-zero zoom, in every viewport whose
    bottom plane mirrors its top plane and whose pixels are as wide as they
    are high. *)
Theorem world_roundtrip_camera_at_origin (g : CGraphics) (Q : Vector2d) :
  m_vecCamPos g = (0, 0) →
  m_fCamZoom g ≠ 0 →
  m_unWidthScr g ≠ 0%Z → m_unHeightScr g ≠ 0%Z →
  rightplane (m_ViewPort g) ≠ leftplane (m_ViewPort g) →
  bottomplane (m_ViewPort g) = - topplane (m_ViewPort g) →
  (topplane (m_ViewPort g) - bottomplane (m_ViewPort g))
    * IZR (m_unWidthScr g)
  = (rightplane (m_ViewPort g) - leftplane (m_ViewPort g))
    * IZR (m_unHeightScr g) →
  screen2World g (world2Screen g Q) = Q.
Proof.
  intros Hpos Hzoom HW HH Hrl Hbt Hpx.
  rewrite screen2World_cartesian.
  unfold world2Screen, Rotation2Dd. cbn. rewrite Hpos. cbn.
  apply not_0_IZR in HW. apply not_0_IZR in HH.
  destruct (m_ViewPort g) as [l r b t]. cbn in *. subst b.
  destruct Q as [qx qy]. cbn.
  set (a := m_fCamAng g). set (z := m_fCamZoom g) in *.
  set (W := IZR (m_unWidthScr g)) in *. set (H := IZR (m_unHeightScr g)) in *.
  set (rx := cos a * qx - sin a * - qy).
  set (ry := sin a * qx + cos a * - qy).
  replace (((r - l) / W * ((rx * z - l) * W / (r - l)) + l) / z) with rx
    by (field; repeat split; try assumption; lra).
  replace (((t - - t) / H * ((ry * z - - t) * W / (r - l)) + - t) / z) with ry.
  2:{ replace ((t - - t) / H * ((ry * z - - t) * W / (r - l)))
        with ((ry * z - - t) * ((t - - t) * W) / (H * (r - l)))
        by (field; repeat split; try assumption; lra).
      rewrite Hpx. field. repeat split; try assumption; lra. }
  pose proof (sin2_cos2 a) as Hsc. unfold Rsqr in Hsc.
  unfold rx, ry. f_equal.
  - replace (_ + 0) with (qx * (sin a * sin a + cos a * cos a)) by ring.
    rewrite Hsc. ring.
  - replace (_ - 0) with (qy * (sin a * sin a + cos a * cos a)) by ring.
    rewrite Hsc. ring.
Qed.

Lemma world_roundtrip_camera_at_origin_witness :
  screen2World (resizeViewport 2 800 600 (resetCam graphics16))
    (world2Screen (resizeViewport 2 800 600 (resetCam graphics16)) (1, 2))
  = (1, 2).
Proof.
  apply (world_roundtrip_camera_at_origin
           (resizeViewport 2 800 600 (resetCam graphics16)) (1, 2));
    cbn; try reflexivity; try lia; lra.
Defined.

(** In every viewport whose bottom plane mirrors its top plane and whose
    pixels are as wide as they are high, as [resizeViewport] sets it, and
    for every non-zero zoom, with the camera anywhere: the screen point
    that comes back from [screen2World] followed by [world2Screen] is off
    by the camera position, turned by the camera angle and scaled by the
    zoom and by the pixels per metre of the viewport.  In other viewports,
    which [setViewPort] can set, the vertical coordinate is off by more
    than that. *)
Theorem roundtrip_offset_is_camera_position (g : CGraphics) (P : Vector2d) :
  m_fCamZoom g ≠ 0 →
  m_unWidthScr g ≠ 0%Z → m_unHeightScr g ≠ 0%Z →
  rightplane (m_ViewPort g) ≠ leftplane (m_ViewPort g) →
  bottomplane (m_ViewPort g) = - topplane (m_ViewPort g) →
  (topplane (m_ViewPort g) - bottomplane (m_ViewPort g))
    * IZR (m_unWidthScr g)
  = (rightplane (m_ViewPort g) - leftplane (m_ViewPort g))
    * IZR (m_unHeightScr g) →
  let k := m_fCamZoom g * IZR (m_unWidthScr g)
           / (rightplane (m_ViewPort g) - leftplane (m_ViewPort g)) in
  let c := Rotation2Dd (m_fCamAng g) (m_vecCamPos g) in
  world2Screen g (screen2World g P) = (fst P + k * fst c, snd P + k * snd c).
Proof.
  intros Hzoom HW HH Hrl Hbt Hpx k c.
  rewrite screen2World_cartesian.
  unfold world2Screen, Rotation2Dd in *. cbn.
  apply not_0_IZR in HW. apply not_0_IZR in HH.
  destruct (m_ViewPort g) as [l r b t]. cbn in *. subst b.
  destruct (m_vecCamPos g) as [cx cy]. cbn in *.
  set (a := m_fCamAng g) in *. set (z := m_fCamZoom g) in *.
  set (W := IZR (m_unWidthScr g)) in *. set (H := IZR (m_unHeightScr g)) in *.
  set (fX := ((r - l) / W * fst P + l) / z).
  set (fY := ((t - - t) / H * snd P + - t) / z).
  destruct (rotate_back a fX fY) as [Hx Hy].
  replace (cos a * (fX * cos a + fY * sin a + cx)
           - sin a * - (fX * sin a - fY * cos a - cy))
    with (cos a * (fX * cos a + fY * sin a)
          - sin a * - (fX * sin a - fY * cos a) + (cos a * cx - sin a * cy))
    by ring.
  replace (sin a * (fX * cos a + fY * sin a + cx)
           + cos a * - (fX * sin a - fY * cos a - cy))
    with (sin a * (fX * cos a + fY * sin a)
          + cos a * - (fX * sin a - fY * cos a) + (sin a * cx + cos a * cy))
    by ring.
  rewrite Hx, Hy. destruct P as [px py]. cbn in *.
  unfold fX, fY, k, c. cbn. f_equal.
  - field. repeat split; try assumption. lra.
  - set (o := sin a * cx + cos a * cy).
    replace ((((t - - t) / H * py + - t) / z + o) * z - - t)
      with ((t - - t) / H * py + o * z)
      by (field; repeat split; assumption).
    replace (((t - - t) / H * py + o * z) * W / (r - l))
      with (py * ((t - - t) * W) / (H * (r - l)) + z * W / (r - l) * o)
      by (field; repeat split; try assumption; lra).
    rewrite Hpx. field. split; [lra | assumption].
Qed.

Lemma roundtrip_offset_is_camera_position_witness :
  world2Screen graphicsCam (screen2World graphicsCam (10, 20))
  = (10 + m_fCamZoom graphicsCam * IZR (m_unWidthScr graphicsCam)
          / (rightplane (m_ViewPort graphicsCam)
             - leftplane (m_ViewPort graphicsCam))
          * fst (Rotation2Dd (m_fCamAng graphicsCam) (m_vecCamPos graphicsCam)),
     20 + m_fCamZoom graphicsCam * IZR (m_unWidthScr graphicsCam)
          / (rightplane (m_ViewPort graphicsCam)
             - leftplane (m_ViewPort graphicsCam))
          * snd (Rotation2Dd (m_fCamAng graphicsCam) (m_vecCamPos graphicsCam))).
Proof.
  apply (roundtrip_offset_is_camera_position graphicsCam (10, 20));
    cbn; try reflexivity; try lia; lra.
Defined.

(** [transCamBy] moves in the camera's frame: the world point under every
    screen point moves by the increment turned by the camera angle, its y
    component negated. *)
Theorem screen2World_after_transCamBy (g : CGraphics) (v P : Vector2d) :
  screen2World (transCamBy v g) P
  = (fst (screen2World g P) + fst (Rotation2Dd (m_fCamAng g) v),
     snd (screen2World g P) - snd (Rotation2Dd (m_fCamAng g) v)).
Proof.
  unfold screen2World, transCamBy. cbn. f_equal; ring.
Qed.

(** [rotCamBy] turns the world point under every screen point about the
    point [(x, -y)] of the camera position [(x, y)], by the increment. *)
Theorem screen2World_after_rotCamBy (g : CGraphics) (d : R) (P : Vector2d) :
  let cx := fst (m_vecCamPos g) in
  let cy := snd (m_vecCamPos g) in
  let S := screen2World g P in
  screen2World (rotCamBy d g) P
  = (cos d * (fst S - cx) - sin d * (snd S + cy) + cx,
     sin d * (fst S - cx) + cos d * (snd S + cy) - cy).
Proof.
  intros cx cy S. unfold S. rewrite !screen2World_cartesian.
  unfold rotCamBy, cx, cy. cbn. rewrite cos_plus, sin_plus.
  f_equal; ring.
Qed.

(** [zoomCamBy] with a non-zero factor divides the offset from the camera
    of the world point under every screen point by the factor. *)
Theorem screen2World_after_zoomCamBy (g : CGraphics) (f : R) (P : Vector2d) :
  m_fCamZoom g ≠ 0 → f ≠ 0 →
  let cx := fst (m_vecCamPos g) in
  let cy := snd (m_vecCamPos g) in
  let S := screen2World g P in
  screen2World (zoomCamBy f g) P
  = ((fst S - cx) / f + cx, (snd S + cy) / f - cy).
Proof.
  intros Hz Hf cx cy S. unfold S. rewrite !screen2World_cartesian.
  unfold zoomCamBy, cx, cy. cbn.
  set (A := (rightplane _ - leftplane _) / _ * _ + leftplane _).
  set (B := (topplane _ - bottomplane _) / _ * _ + bottomplane _).
  clearbody A B.
  f_equal; field; split; assumption.
Qed.

Lemma screen2World_after_zoomCamBy_witness :
  screen2World (zoomCamBy 2 graphicsCam) (10, 20)
  = ((fst (screen2World graphicsCam (10, 20)) - 3) / 2 + 3,
     (snd (screen2World graphicsCam (10, 20)) + 4) / 2 - 4).
Proof.
  apply (screen2World_after_zoomCamBy graphicsCam 2 (10, 20)); cbn; lra.
Defined.

(** [transCamTo] stores the argument turned by the camera angle: the
    camera ends up as far from the origin as the argument is, and exactly
    at the argument when the camera has been turned to angle zero. *)
Theorem transCamTo_keeps_distance (g : CGraphics) (p : Vector2d) :
  m_vecCamPos (transCamTo p g) = Rotation2Dd (m_fCamAng g) p
  ∧ norm (m_vecCamPos (transCamTo p g)) = norm p
  ∧ m_vecCamPos (transCamTo p (rotCamTo 0 g)) = p.
Proof.
  unfold transCamTo, rotCamTo, Rotation2Dd, norm. cbn.
  split; [reflexivity |]. split.
  - f_equal. pose proof (sin2_cos2 (m_fCamAng g)) as H. unfold Rsqr in H.
    set (s := sin (m_fCamAng g)) in *. set (c := cos (m_fCamAng g)) in *.
    replace ((c * p.1 - s * p.2) * (c * p.1 - s * p.2)
             + (s * p.1 + c * p.2) * (s * p.1 + c * p.2))
      with ((s * s + c * c) * (p.1 * p.1 + p.2 * p.2)) by ring.
    rewrite H. ring.
  - rewrite cos_0, sin_0. destruct p as [x y]. cbn. f_equal; ring.
Qed.

(** Each relative camera move is undone by the opposite move: turning
    back, moving back by the negated increment, and zooming by the inverse
    of a non-zero factor restore angle, position and zoom. *)
Theorem camera_moves_are_undone (g : CGraphics) (d f : R) (v : Vector2d) :
  f ≠ 0 →
  m_fCamAng (rotCamBy (- d) (rotCamBy d g)) = m_fCamAng g
  ∧ m_vecCamPos (transCamBy (- fst v, - snd v) (transCamBy v g))
    = m_vecCamPos g
  ∧ m_fCamZoom (zoomCamBy (/ f) (zoomCamBy f g)) = m_fCamZoom g.
Proof.
  intros Hf. unfold rotCamBy, transCamBy, zoomCamBy, Rotation2Dd. cbn.
  split; [ring |]. split.
  - destruct (m_vecCamPos g) as [x y]. cbn. f_equal; ring.
  - field. exact Hf.
Qed.

Lemma camera_moves_are_undone_witness :
  m_fCamAng (rotCamBy (- 1) (rotCamBy 1 graphicsCam)) = m_fCamAng graphicsCam
  ∧ m_vecCamPos (transCamBy (- fst (5, 6), - snd (5, 6))
                   (transCamBy (5, 6) graphicsCam))
    = m_vecCamPos graphicsCam
  ∧ m_fCamZoom (zoomCamBy (/ 2) (zoomCamBy 2 graphicsCam))
    = m_fCamZoom graphicsCam.
Proof. apply (camera_moves_are_undone graphicsCam 1 2 (5, 6)). lra. Defined.

End Camera.

(** ** The sine and cosine cache *)

Lemma nth_insert_eq {A : Type} (l : list A) (i : nat) (x d : A) :
  i < length l → nth i (<[i := x]> l) d = x.
Proof.
  intros Hi. rewrite nth_lookup, list_lookup_insert_eq by exact Hi. reflexivity.
Qed.

Lemma nth_insert_ne {A : Type} (l : list A) (i j : nat) (x d : A) :
  i ≠ j → nth j (<[i := x]> l) d = nth j l d.
Proof.
  intros Hi. rewrite !nth_lookup, list_lookup_insert_ne by exact Hi.
  reflexivity.
Qed.

(** [cacheSinCos(n)] for [n ≥ 1] with room for [n + 1] entries fills the
    entries [0] to [n] with the sine and cosine of [i] times the [n]th part
    of the full turn and leaves the entries above [n] as they are.  The
    entries [0] and [n] hold the same pair, sine [0] and cosine [1]: the
    last point of a cached circle is its first. *)
Theorem cacheSinCos_entries (n : nat) (g : CGraphics) :
  1 ≤ n → n < length (m_SinCache g) → n < length (m_CosCache g) →
  let g' := cacheSinCos (Z.of_nat n) g in
  let ang (i : nat) := (IZR (Z.of_nat i) * MATH_2PI / IZR (Z.of_nat n))%R in
  (∀ i, i ≤ n →
     nth i (m_SinCache g') 0%R = sin (ang i)
     ∧ nth i (m_CosCache g') 0%R = cos (ang i))
  ∧ (∀ i, n < i →
     nth i (m_SinCache g') 0%R = nth i (m_SinCache g) 0%R
     ∧ nth i (m_CosCache g') 0%R = nth i (m_CosCache g) 0%R)
  ∧ nth n (m_SinCache g') 0%R = 0%R ∧ nth 0 (m_SinCache g') 0%R = 0%R
  ∧ nth n (m_CosCache g') 0%R = 1%R ∧ nth 0 (m_CosCache g') 0%R = 1%R.
Proof.
  intros Hn Hs Hc g' ang.
  set (I := λ (j : nat) (h : CGraphics),
         length (m_SinCache h) = length (m_SinCache g)
         ∧ length (m_CosCache h) = length (m_CosCache g)
         ∧ (∀ i, i < j →
              nth i (m_SinCache h) 0%R = sin (ang i)
              ∧ nth i (m_CosCache h) 0%R = cos (ang i))
         ∧ (∀ i, j ≤ i →
              nth i (m_SinCache h) 0%R = nth i (m_SinCache g) 0%R
              ∧ nth i (m_CosCache h) 0%R = nth i (m_CosCache g) 0%R)).
  assert (HI : I (S n) g').
  { unfold g', cacheSinCos.
    replace (Z.of_nat n + 1)%Z with (0 + Z.of_nat (S n))%Z by lia.
    apply (forEach_forRange_inv I).
    - intros j h Hj (Hls & Hlc & Hlo & Hhi).
      replace (Z.to_nat (0 + Z.of_nat j)) with j by lia.
      replace (0 + Z.of_nat j)%Z with (Z.of_nat j) by lia.
      unfold I. cbn. rewrite !length_insert.
      split; [exact Hls |]. split; [exact Hlc |]. split.
      + intros i Hi. destruct (decide (i = j)) as [-> | Hne].
        * rewrite !nth_insert_eq by lia. done.
        * rewrite !nth_insert_ne by lia. apply Hlo. lia.
      + intros i Hi. rewrite !nth_insert_ne by lia. apply Hhi. lia.
    - unfold I. split; [done |]. split; [done |].
      split; [intros i Hi; lia | done]. }
  destruct HI as (_ & _ & Hlo & Hhi).
  split; [intros i Hi; apply Hlo; lia |].
  split; [intros i Hi; apply Hhi; lia |].
  assert (Hnz : IZR (Z.of_nat n) ≠ 0%R) by (apply not_0_IZR; lia).
  destruct (Hlo n ltac:(lia)) as [Hsn Hcn].
  destruct (Hlo 0 ltac:(lia)) as [Hs0 Hc0].
  rewrite Hsn, Hcn, Hs0, Hc0. unfold ang, MATH_2PI.
  replace (IZR (Z.of_nat n) * (2 * PI) / IZR (Z.of_nat n))%R with (2 * PI)%R
    by (field; exact Hnz).
  replace (IZR (Z.of_nat 0) * (2 * PI) / IZR (Z.of_nat n))%R with 0%R
    by (cbn; field; exact Hnz).
  rewrite sin_2PI, cos_2PI, sin_0, cos_0. done.
Qed.

Lemma cacheSinCos_entries_witness :
  let g' := cacheSinCos (Z.of_nat 4) graphics16 in
  let ang (i : nat) := (IZR (Z.of_nat i) * MATH_2PI / IZR (Z.of_nat 4))%R in
  (∀ i, i ≤ 4 →
     nth i (m_SinCache g') 0%R = sin (ang i)
     ∧ nth i (m_CosCache g') 0%R = cos (ang i))
  ∧ (∀ i, 4 < i →
     nth i (m_SinCache g') 0%R = nth i (m_SinCache graphics16) 0%R
     ∧ nth i (m_CosCache g') 0%R = nth i (m_CosCache graphics16) 0%R)
  ∧ nth 4 (m_SinCache g') 0%R = 0%R ∧ nth 0 (m_SinCache g') 0%R = 0%R
  ∧ nth 4 (m_CosCache g') 0%R = 1%R ∧ nth 0 (m_CosCache g') 0%R = 1%R.
Proof. apply (cacheSinCos_entries 4 graphics16); cbn; lia. Defined.

(** ** Cursors in step *)

Lemma flushIfOver_within (size : nat) (m : CRenderMode) (b : Buffers)
    (g : CGraphics) :
  m_pRenderMode (m_Batch g) = Some m →
  in_step b
  ∧ m_unIndexVerts b ≤ length (m_vecVertices b)
  ∧ m_unIndexCol b ≤ length (m_vecColours b) →
  ∃ g',
    flushIfOver size (set_Buf b g) = Some g'
    ∧ in_step (m_Buf g')
    ∧ m_unIndexVerts (m_Buf g') ≤ length (m_vecVertices (m_Buf g'))
    ∧ m_unIndexCol (m_Buf g') ≤ length (m_vecColours (m_Buf g')).
Proof.
  intros Hm (Hs & Hv & Hc). unfold flushIfOver.
  destruct (size / 2 <? m_uncI (m_Buf (set_Buf b g))).
  - erewrite restartRenderBatchInternal_Some by exact Hm.
    eexists. split; [reflexivity |]. split; [split; reflexivity |].
    cbn. lia.
  - eexists. split; [reflexivity |]. auto.
Qed.

(** The emitters of a fixed number of vertices keep the cursors in step,
    whether they end in a flush or not: [dot], [rect], [filledRect],
    [filledTriangle] and both overloads of [texturedRect].  With room in
    the vectors for what the call writes, no write goes past the end of a
    vector and the vertex and colour cursors stay inside their vectors;
    with a render mode current, the flush has a mode to submit under. *)
Theorem emitters_keep_in_step (size : nat) (m : CRenderMode)
    (p q r : Vector2d) (uv0 uv1 : list R) (g : CGraphics) :
  m_pRenderMode (m_Batch g) = Some m →
  in_step (m_Buf g) →
  has_room (m_Buf g) 12 16 (length uv0) (length uv1) 8 1 6 →
  let ok (g' : CGraphics) :=
    in_step (m_Buf g')
    ∧ m_unIndexVerts (m_Buf g') ≤ length (m_vecVertices (m_Buf g'))
    ∧ m_unIndexCol (m_Buf g') ≤ length (m_vecColours (m_Buf g')) in
  (∃ g', dot size p g = Some g' ∧ ok g')
  ∧ (∃ g', rect size p q g = Some g' ∧ ok g')
  ∧ (∃ g', filledRect size p q g = Some g' ∧ ok g')
  ∧ (∃ g', filledTriangle size p q r g = Some g' ∧ ok g')
  ∧ (∃ g', texturedRect size p q uv0 g = Some g' ∧ ok g')
  ∧ (∃ g', texturedRect2 size p q uv0 uv1 g = Some g' ∧ ok g').
Proof.
  intros Hm [Hv Hc] (Hrv & Hrc & _) ok. subst ok. cbv beta.
  unfold dot, rect, filledRect, filledTriangle, texturedRect, texturedRect2.
  destruct (m_aColour g) as [[[c0 c1] c2] c3].
  repeat split; apply (flushIfOver_within size m _ g Hm); repeat split;
    cbn -[forEach Nat.mul];
    rewrite ?(forEach_preserves m_unIndex), ?(forEach_preserves m_unIndexVerts),
      ?(forEach_preserves m_unIndexCol),
      ?(forEach_preserves (λ b, length (m_vecVertices b))),
      ?(forEach_preserves (λ b, length (m_vecColours b))) by reflexivity;
    cbn -[Nat.mul]; rewrite ?length_insert; lia.
Qed.

Lemma emitters_keep_in_step_witness :
  let ok (g' : CGraphics) :=
    in_step (m_Buf g')
    ∧ m_unIndexVerts (m_Buf g') ≤ length (m_vecVertices (m_Buf g'))
    ∧ m_unIndexCol (m_Buf g') ≤ length (m_vecColours (m_Buf g')) in
  (∃ g', dot 64 (0, 0)%R graphics64_begun = Some g' ∧ ok g')
  ∧ (∃ g', rect 64 (0, 0)%R (1, 1)%R graphics64_begun = Some g' ∧ ok g')
  ∧ (∃ g', filledRect 64 (0, 0)%R (1, 1)%R graphics64_begun = Some g'
           ∧ ok g')
  ∧ (∃ g', filledTriangle 64 (0, 0)%R (1, 1)%R (1, 0)%R graphics64_begun
           = Some g' ∧ ok g')
  ∧ (∃ g', texturedRect 64 (0, 0)%R (1, 1)%R [0; 0; 1; 0; 0; 1; 1; 1]%R
             graphics64_begun = Some g' ∧ ok g')
  ∧ (∃ g', texturedRect2 64 (0, 0)%R (1, 1)%R [0; 0; 1; 0; 0; 1; 1; 1]%R
             [0; 0; 1; 0; 0; 1; 1; 1]%R graphics64_begun = Some g'
           ∧ ok g').
Proof.
  apply (emitters_keep_in_step 64 modeA (0, 0)%R (1, 1)%R (1, 0)%R
           [0; 0; 1; 0; 0; 1; 1; 1]%R [0; 0; 1; 0; 0; 1; 1; 1]%R
           graphics64_begun);
    [reflexivity | split; reflexivity | unfold has_room; cbn; lia].
Defined.

Lemma length_forRange_1 (lo hi : Z) :
  length (forRange lo hi 1) = Z.to_nat (hi - lo).
Proof. rewrite forRange_step_1. apply length_seqZ. Qed.

Lemma length_forRange_2 (n : nat) :
  length (forRange 0 (Z.of_nat n - 1) 2) = n / 2.
Proof.
  unfold forRange. rewrite length_fmap, length_seqZ.
  replace (Z.of_nat n - 1 - 0 + 2 - 1)%Z with (Z.of_nat n) by lia.
  rewrite <- (Nat2Z.id (n / 2)). f_equal. rewrite Nat2Z.inj_div. reflexivity.
Qed.

(** What [endLine] does to the ordinal counter, the vertex cursor and the
    colour cursor, for single lines. *)
Lemma endLine_single_cursors (g : CGraphics) :
  m_PolyType (m_Line g) = LINE_SINGLE →
  m_unIndex (m_Buf (endLine g))
  = m_unIndex (m_Buf g) + 2 * (m_nLineNrOfVerts (m_Line g) / 2)
  ∧ m_unIndexVerts (m_Buf (endLine g)) = m_unIndexVerts (m_Buf g)
  ∧ m_unIndexCol (m_Buf (endLine g)) = m_unIndexCol (m_Buf g).
Proof.
  intros Hs. unfold endLine. cbn -[forRange Nat.div Nat.mul].
  rewrite decide_True by exact Hs.
  rewrite (forEach_count m_unIndex 2) by (intros; cbn; lia).
  rewrite !(forEach_preserves m_unIndexVerts), !(forEach_preserves m_unIndexCol)
    by reflexivity.
  rewrite length_forRange_2. repeat split; lia.
Qed.

(** The same for strips, loops and filled outlines: [k] is [1] when the
    closing segment needs a copy of the first vertex, and [0] otherwise. *)
Lemma endLine_strip_cursors (g : CGraphics) :
  m_PolyType (m_Line g) ≠ LINE_SINGLE →
  let l := m_Line g in
  let k :=
    if negb (m_bLineBatchCall l)
       && (bool_decide (m_PolyType l = LINE_LOOP)
           || bool_decide (m_PolyType l = FILLED))
       && negb (m_bLineBatchFirst l)
    then 1 else 0 in
  m_unIndex (m_Buf (endLine g))
  = m_unIndex (m_Buf g) + (m_nLineNrOfVerts l - 1) + 1 + k
  ∧ m_unIndexVerts (m_Buf (endLine g)) = m_unIndexVerts (m_Buf g) + 3 * k
  ∧ m_unIndexCol (m_Buf (endLine g)) = m_unIndexCol (m_Buf g) + 4 * k.
Proof.
  intros Hs l k. unfold endLine. cbn -[forRange Nat.mul].
  rewrite decide_False by exact Hs.
  set (b1 := forEach _ _ (m_Buf g)).
  assert (Hi : m_unIndex b1
               = m_unIndex (m_Buf g) + (m_nLineNrOfVerts (m_Line g) - 1)).
  { unfold b1. rewrite (forEach_count m_unIndex 1) by (intros; cbn; lia).
    rewrite length_forRange_1. lia. }
  assert (Hv : m_unIndexVerts b1 = m_unIndexVerts (m_Buf g))
    by (apply forEach_preserves; reflexivity).
  assert (Hc : m_unIndexCol b1 = m_unIndexCol (m_Buf g))
    by (apply forEach_preserves; reflexivity).
  unfold k, l. clearbody b1.
  destruct (m_bLineBatchCall (m_Line g)); cbn -[Nat.mul]; [lia |].
  destruct (bool_decide (m_PolyType (m_Line g) = LINE_LOOP)
            || bool_decide (m_PolyType (m_Line g) = FILLED));
    cbn -[Nat.mul]; [| lia].
  destruct (m_bLineBatchFirst (m_Line g)); cbn -[Nat.mul]; [lia |].
  destruct (m_aColour g) as [[[? ?] ?] ?]. cbn -[Nat.mul]. lia.
Qed.

(** The state of [polygon] just before its [endLine]. *)
Lemma polygon_before_endLine (vs : list Vector2d) (pt : PolygonType)
    (off : Vector2d) (g : CGraphics) :
  ∃ g2,
    polygon vs pt off g = endLine g2
    ∧ m_unIndex (m_Buf g2) = m_unIndex (m_Buf g)
    ∧ m_unIndexVerts (m_Buf g2) = m_unIndexVerts (m_Buf g) + 3 * length vs
    ∧ m_unIndexCol (m_Buf g2) = m_unIndexCol (m_Buf g) + 4 * length vs
    ∧ m_Line g2
      = mkLineState (length vs) pt (m_bLineBatchFirst (m_Line g))
          (m_bLineBatchCall (m_Line g)) (m_aVertFirst (m_Line g))
    ∧ m_aColour g2 = m_aColour g.
Proof.
  unfold polygon. eexists. split; [reflexivity |].
  cbn -[forRange Nat.mul].
  destruct (m_aColour g) as [[[c0 c1] c2] c3] eqn:Hcol.
  rewrite (forEach_preserves m_unIndex) by reflexivity.
  rewrite (forEach_preserves m_unIndexVerts) by reflexivity.
  rewrite (forEach_count m_unIndexCol 4) by (intros; cbn; lia).
  rewrite length_forRange_1.
  destruct (isZero off);
    rewrite (forEach_preserves m_unIndex) by reflexivity;
    rewrite (forEach_count m_unIndexVerts 3) by (intros; cbn; lia);
    rewrite (forEach_preserves m_unIndexCol) by reflexivity;
    repeat split; lia.
Qed.

(** [polygon] keeps the cursors in step when it is given at least one
    vertex and, for single lines, an even number of them. *)
Theorem polygon_keeps_in_step (vs : list Vector2d) (pt : PolygonType)
    (off : Vector2d) (g : CGraphics) :
  in_step (m_Buf g) →
  vs ≠ [] →
  (pt = LINE_SINGLE → Nat.Even (length vs)) →
  in_step (m_Buf (polygon vs pt off g)).
Proof.
  intros [Hv Hc] Hne Hev.
  destruct (polygon_before_endLine vs pt off g)
    as (g2 & -> & Hi2 & Hv2 & Hc2 & Hl2 & _).
  assert (Hlen : 1 ≤ length vs) by (destruct vs; [done | cbn; lia]).
  destruct (decide (pt = LINE_SINGLE)) as [Hs | Hs].
  - destruct (endLine_single_cursors g2) as (Hi & Hv' & Hc');
      [rewrite Hl2; exact Hs |].
    rewrite Hl2 in Hi. cbn [m_nLineNrOfVerts] in Hi.
    destruct (Hev Hs) as [h Hh].
    assert (length vs / 2 = h) by (rewrite Hh, Nat.mul_comm; apply Nat.div_mul; lia).
    split; lia.
  - destruct (endLine_strip_cursors g2) as (Hi & Hv' & Hc');
      [rewrite Hl2; exact Hs |].
    rewrite Hl2 in Hi, Hv', Hc'. cbn [m_nLineNrOfVerts] in Hi.
    match type of Hi with context [if ?c then _ else _] => destruct c end;
      split; lia.
Qed.

Lemma polygon_keeps_in_step_witness :
  in_step (m_Buf (polygon unitSquare LINE_LOOP (0, 0)%R graphics64_begun)).
Proof.
  apply (polygon_keeps_in_step unitSquare LINE_LOOP (0, 0)%R graphics64_begun).
  - split; reflexivity.
  - discriminate.
  - discriminate.
Defined.

(** [polygon] with single lines and an odd number of vertices leaves the
    last vertex without an index and the ordinal counter one vertex behind
    the vertex cursor: the indices of whatever is drawn next in the batch
    refer to the vertex before the one they are meant for. *)
Theorem polygon_odd_single_falls_behind (vs : list Vector2d) (off : Vector2d)
    (g : CGraphics) :
  in_step (m_Buf g) →
  Nat.Odd (length vs) →
  let b' := m_Buf (polygon vs LINE_SINGLE off g) in
  m_unIndex b' = m_unIndex (m_Buf g) + (length vs - 1)
  ∧ m_unIndexVerts b' = 3 * (m_unIndex b' + 1)
  ∧ m_unIndexCol b' = 4 * (m_unIndex b' + 1).
Proof.
  intros [Hv Hc] [h Hh] b'. unfold b'.
  destruct (polygon_before_endLine vs LINE_SINGLE off g)
    as (g2 & -> & Hi2 & Hv2 & Hc2 & Hl2 & _).
  destruct (endLine_single_cursors g2) as (Hi & Hv' & Hc');
    [rewrite Hl2; reflexivity |].
  rewrite Hl2 in Hi. cbn [m_nLineNrOfVerts] in Hi.
  assert (length vs / 2 = h).
  { rewrite Hh. replace (2 * h + 1) with (1 + h * 2) by lia.
    rewrite Nat.div_add by lia. reflexivity. }
  repeat split; lia.
Qed.

Lemma polygon_odd_single_falls_behind_witness :
  let b' := m_Buf (polygon (take 3 unitSquare) LINE_SINGLE (0, 0)%R
                     graphics16_drawn) in
  m_unIndex b' = m_unIndex (m_Buf graphics16_drawn)
                 + (length (take 3 unitSquare) - 1)
  ∧ m_unIndexVerts b' = 3 * (m_unIndex b' + 1)
  ∧ m_unIndexCol b' = 4 * (m_unIndex b' + 1).
Proof.
  apply (polygon_odd_single_falls_behind (take 3 unitSquare) (0, 0)%R
           graphics16_drawn).
  - split; reflexivity.
  - exists 1. reflexivity.
Defined.

(** ** Segments across a flush *)

Lemma edgesOfSubmission_uploadOf (m : CRenderMode) (b : Buffers) :
  edgesOfSubmission (uploadOf m b)
  = if decide (getRenderModeType m = VERT3COL4)
    then resolve (vertsOf b) (linesOf b) else [].
Proof.
  unfold edgesOfSubmission.
  destruct (decide (getRenderModeType m = VERT3COL4)) as [Ht | Ht].
  - rewrite sub_lines_uploadOf by exact Ht. reflexivity.
  - unfold sub_lines, uploadOf. cbn.
    destruct (getRenderModeType m); [done | reflexivity | reflexivity].
Qed.

(** The flush of [restartRenderBatchInternal] in a colour-only render mode
    neither loses nor reorders a line segment: what was waiting is now with
    the device.  In the render modes with textures the line indices are
    never uploaded: the segments that were waiting are gone. *)
Theorem flush_keeps_emitted_edges (m : CRenderMode) (g : CGraphics) :
  m_pRenderMode (m_Batch g) = Some m →
  ∃ g',
    restartRenderBatchInternal g = Some g'
    ∧ emittedEdges g'
      = if decide (getRenderModeType m = VERT3COL4) then emittedEdges g
        else flat_map edgesOfSubmission (m_Device g).
Proof.
  intros Hm. rewrite (restartRenderBatchInternal_Some m g Hm).
  eexists. split; [reflexivity |].
  unfold emittedEdges, flushed.
  cbn -[edgesOfSubmission uploadOf resolve vertsOf linesOf flat_map].
  rewrite flat_map_app. cbn [flat_map].
  rewrite edgesOfSubmission_uploadOf, !app_nil_r.
  replace (resolve (vertsOf (resetCursors (m_Buf g)))
             (linesOf (resetCursors (m_Buf g)))) with (@nil (Vector2d * Vector2d))
    by reflexivity.
  destruct (decide (getRenderModeType m = VERT3COL4));
    rewrite ?app_nil_r; reflexivity.
Qed.

Lemma flush_keeps_emitted_edges_witness :
  ∃ g',
    restartRenderBatchInternal graphics16_drawn = Some g'
    ∧ emittedEdges g'
      = if decide (getRenderModeType modeA = VERT3COL4)
        then emittedEdges graphics16_drawn
        else flat_map edgesOfSubmission (m_Device graphics16_drawn).
Proof.
  apply (flush_keeps_emitted_edges modeA graphics16_drawn). reflexivity.
Defined.

Lemma segments_app_even (l l' : list nat) :
  Nat.Even (length l) → segments (l ++ l') = segments l ++ segments l'.
Proof.
  intros [h Hh]. revert l Hh.
  induction h as [|h IH]; intros l Hh.
  - destruct l; [reflexivity | cbn in Hh; lia].
  - destruct l as [|a [|b l]]; cbn in Hh; try lia.
    cbn. rewrite IH by lia. reflexivity.
Qed.

Lemma segments_Forall (P : nat → Prop) (l : list nat) :
  Forall P l → Forall (λ s, P s.1 ∧ P s.2) (segments l).
Proof.
  revert l. fix IH 1. intros [|a [|b l]] H; cbn; try constructor.
  - inversion H as [|? ? Ha H']; subst. inversion H' as [|? ? Hb H'']; subst.
    done.
  - apply IH. inversion H as [|? ? Ha H']; subst.
    inversion H' as [|? ? Hb H'']; subst. exact H''.
Qed.

Lemma vertexAt_app_l (V V' : list R) (c i : nat) :
  length V = 3 * c → i < c → vertexAt (V ++ V') i = vertexAt V i.
Proof.
  intros HV Hi. unfold vertexAt.
  rewrite !(app_nth1 V V') by lia. reflexivity.
Qed.

Lemma vertexAt_app_flat (V : list R) (d : R) (ws : list Vector2d) (c j : nat) :
  length V = 3 * c →
  vertexAt (V ++ flat d ws) (c + j) = nth j ws (0, 0)%R.
Proof.
  intros HV. rewrite <- (vertexAt_flat d ws j). unfold vertexAt.
  rewrite !(app_nth2 V) by lia.
  replace (3 * (c + j) - length V) with (3 * j) by lia.
  replace (3 * (c + j) + 1 - length V) with (3 * j + 1) by lia.
  reflexivity.
Qed.

(** Segments waiting in the buffers are not disturbed by vertices and
    indices appended behind them. *)
Lemma resolve_app (V V' : list R) (L L' : list nat) (c : nat) :
  length V = 3 * c →
  Nat.Even (length L) →
  Forall (λ i, i < c) L →
  resolve (V ++ V') (L ++ L') = resolve V L ++ resolve (V ++ V') L'.
Proof.
  intros HV HL HF. unfold resolve.
  rewrite segments_app_even by exact HL. rewrite fmap_app. f_equal.
  apply Forall_fmap_ext.
  eapply Forall_impl; [apply (segments_Forall _ _ HF) |].
  intros [a b] [Ha Hb]. cbn in *.
  rewrite !(vertexAt_app_l V V' c) by assumption. reflexivity.
Qed.

Lemma flushed_keeps_edges (m : CRenderMode) (g : CGraphics) :
  getRenderModeType m = VERT3COL4 →
  emittedEdges (set_Buf (resetCursors (m_Buf g)) (flushed m g))
  = emittedEdges g.
Proof.
  intros Ht. unfold emittedEdges, flushed.
  cbn -[edgesOfSubmission uploadOf resolve vertsOf linesOf flat_map].
  rewrite flat_map_app. cbn [flat_map].
  rewrite edgesOfSubmission_uploadOf, decide_True by exact Ht.
  replace (resolve (vertsOf (resetCursors (m_Buf g)))
             (linesOf (resetCursors (m_Buf g)))) with (@nil (Vector2d * Vector2d))
    by reflexivity.
  rewrite !app_nil_r. reflexivity.
Qed.

Lemma flushIfOver_edges (size : nat) (m : CRenderMode) (g : CGraphics) :
  m_pRenderMode (m_Batch g) = Some m →
  getRenderModeType m = VERT3COL4 →
  ∃ g', flushIfOver size g = Some g' ∧ emittedEdges g' = emittedEdges g.
Proof.
  intros Hm Ht. unfold flushIfOver.
  destruct (size / 2 <? m_uncI (m_Buf g)).
  - rewrite (restartRenderBatchInternal_Some m g Hm).
    eexists. split; [reflexivity |]. apply flushed_keeps_edges, Ht.
  - eauto.
Qed.

Lemma lines_wf_lengths (b : Buffers) :
  in_step b → lines_wf b →
  length (vertsOf b) = 3 * m_unIndex b ∧ Nat.Even (length (linesOf b)).
Proof.
  intros [Hv _] (He & Hl & Hlv & _). unfold vertsOf, linesOf.
  rewrite !length_take, !Nat.min_l by lia. split; [lia | exact He].
Qed.

Lemma closedCycle_rect (LL UR : Vector2d) :
  closedCycle (rectEdges LL UR) (rectCorners LL UR).
Proof.
  exists (rectEdges LL UR). split.
  - unfold oriented. apply Forall2_same_length_lookup_2; [reflexivity |].
    intros i e e' He He'. left. congruence.
  - split; [cbn; done |]. split; [| reflexivity].
    eexists _, _. cbn. split; [reflexivity |]. split; reflexivity.
Qed.

(** ** Rectangles *)

(** [rect] in a colour-only batch with the cursors in step and room in the
    buffers adds four segments to what the device gets, whether it ends in
    a flush or not: the closed cycle through the four corners, lower left,
    lower right, upper right, upper left, and back.  The segments already
    waiting are not disturbed. *)
Theorem rect_draws_closed_cycle (size : nat) (m : CRenderMode)
    (LL UR : Vector2d) (g : CGraphics) :
  m_pRenderMode (m_Batch g) = Some m →
  getRenderModeType m = VERT3COL4 →
  in_step (m_Buf g) → lines_wf (m_Buf g) →
  m_unIndexVerts (m_Buf g) + 12 ≤ length (m_vecVertices (m_Buf g)) →
  m_unIndexLines (m_Buf g) + 8 ≤ length (m_vecIndicesLines (m_Buf g)) →
  ∃ g',
    rect size LL UR g = Some g'
    ∧ emittedEdges g' = emittedEdges g ++ rectEdges LL UR
    ∧ closedCycle (rectEdges LL UR) (rectCorners LL UR).
Proof.
  intros Hm Ht Hstep Hwf Hroom Hroom'.
  destruct (lines_wf_lengths _ Hstep Hwf) as [HlenV HevL].
  destruct Hwf as (_ & _ & _ & HF).
  unfold rect.
  match goal with |- context [set_Buf ?b g] => set (b' := b) end.
  destruct (flushIfOver_edges size m (set_Buf b' g) Hm Ht) as (g' & -> & He).
  exists g'. split; [reflexivity |]. split; [| apply closedCycle_rect].
  rewrite He. unfold emittedEdges. cbn [m_Device m_Buf set_Buf].
  rewrite <- app_assoc. f_equal.
  set (c := m_unIndex (m_Buf g)) in *.
  assert (HV : vertsOf b'
               = vertsOf (m_Buf g) ++ flat (m_fDepth g) (rectCorners LL UR)).
  { unfold b', vertsOf. destruct (m_aColour g) as [[[c0 c1] c2] c3].
    cbn. take_steps. rewrite <- !app_assoc. reflexivity. }
  assert (HL : linesOf b'
               = linesOf (m_Buf g)
                 ++ [c + 0; c + 1; c + 1; c + 2; c + 2; c + 3; c + 3; c + 0]).
  { unfold b', linesOf. destruct (m_aColour g) as [[[c0 c1] c2] c3].
    cbn -[Nat.add Nat.sub]. take_steps. rewrite <- !app_assoc.
    fold c. cbn [app].
    replace (c + 1 + 1 + 1 - 3) with (c + 0) by lia.
    replace (c + 1 + 1 + 1) with (c + 3) by lia.
    replace (c + 1 + 1) with (c + 2) by lia.
    replace (c + 0) with c by lia.
    reflexivity. }
  rewrite HV, HL.
  rewrite (resolve_app _ _ _ _ c HlenV HevL HF). f_equal.
  unfold resolve. cbn [segments fmap list_fmap fst snd].
  rewrite !(vertexAt_app_flat _ _ _ c) by exact HlenV.
  reflexivity.
Qed.

Lemma rect_draws_closed_cycle_witness :
  ∃ g',
    rect 16 (0, 0)%R (1, 1)%R graphics16_begun = Some g'
    ∧ emittedEdges g'
      = emittedEdges graphics16_begun ++ rectEdges (0, 0)%R (1, 1)%R
    ∧ closedCycle (rectEdges (0, 0)%R (1, 1)%R) (rectCorners (0, 0)%R (1, 1)%R).
Proof.
  apply (rect_draws_closed_cycle 16 modeA (0, 0)%R (1, 1)%R graphics16_begun).
  - reflexivity.
  - reflexivity.
  - split; reflexivity.
  - split; [exists 0; reflexivity |].
    split; [cbn; lia |]. split; [cbn; lia | constructor].
  - cbn. lia.
  - cbn. lia.
Defined.

(** ** Circles *)

Lemma rimStep_effect (x y d : R) (col : R * R * R * R) (b : Buffers) :
  let b' := rimStep x y d col b in
  m_unIndex b' = m_unIndex b + 1
  ∧ m_unIndexLines b' = m_unIndexLines b + 2
  ∧ length (m_vecIndicesLines b') = length (m_vecIndicesLines b)
  ∧ m_unIndexVerts b' = m_unIndexVerts b + 3
  ∧ m_unIndexCol b' = m_unIndexCol b + 4
  ∧ (m_unIndexLines b + 2 ≤ length (m_vecIndicesLines b) →
     linesOf b' = linesOf b ++ [m_unIndex b - 1; m_unIndex b]).
Proof.
  destruct col as [[[? ?] ?] ?]. cbn. rewrite !length_insert.
  repeat split; try lia.
  intros Hroom. unfold linesOf. cbn. take_steps.
  rewrite <- !app_assoc. reflexivity.
Qed.

(** The branch of [circle] that uses the sine and cosine cache, for [n]
    segments: [n + 1] vertices, the [n] segments that join each vertex to
    the next, and one closing segment, which runs from the last vertex to
    the second one, not to the first.  The cursors stay in step. *)
Theorem circle_cached_segments (size fuel : nat) (c : Vector2d) (r : R)
    (n : nat) (g : CGraphics) :
  m_unIndexLines (m_Buf g) + 2 * (n + 1)
    ≤ length (m_vecIndicesLines (m_Buf g)) →
  ∃ b',
    circle size fuel c r (Z.of_nat n) true g = flushIfOver size (set_Buf b' g)
    ∧ linesOf b'
      = linesOf (m_Buf g) ++ chainIdx (m_unIndex (m_Buf g)) n
        ++ [m_unIndex (m_Buf g) + n; m_unIndex (m_Buf g) + 1]
    ∧ m_unIndex b' = m_unIndex (m_Buf g) + (n + 1)
    ∧ m_unIndexVerts b' = m_unIndexVerts (m_Buf g) + 3 * (n + 1)
    ∧ m_unIndexCol b' = m_unIndexCol (m_Buf g) + 4 * (n + 1).
Proof.
  intros Hroom. unfold circle.
  set (c0 := m_unIndex (m_Buf g)).
  set (l0 := m_unIndexLines (m_Buf g)) in *.
  set (len := length (m_vecIndicesLines (m_Buf g))) in *.
  cbn [mbind option_bind].
  eexists. split; [reflexivity |].
  match goal with |- context [forEach ?xs ?body ?s] =>
    assert (Hinv :
      (λ j b, m_unIndex b = c0 + 1 + j
              ∧ m_unIndexLines b = l0 + 2 * j
              ∧ length (m_vecIndicesLines b) = len
              ∧ m_unIndexVerts b = m_unIndexVerts (m_Buf g) + 3 * (j + 1)
              ∧ m_unIndexCol b = m_unIndexCol (m_Buf g) + 4 * (j + 1)
              ∧ linesOf b = linesOf (m_Buf g) ++ chainIdx c0 j)
        n (forEach xs body s));
    [| set (b1 := forEach xs body s) in * ]
  end.
  { replace (Z.of_nat n + 1)%Z with (1 + Z.of_nat n)%Z by lia.
    apply forEach_forRange_inv.
    - intros j b Hj (Hi & Hl & Hlen & Hv & Hc & HL).
      match goal with |- context [putLineInc ?b1] =>
        change (putLineInc b1) with
          (rimStep
             (c.1 + nth (Z.to_nat (1 + Z.of_nat j)) (m_SinCache g) 0 * r)%R
             (c.2 + nth (Z.to_nat (1 + Z.of_nat j)) (m_CosCache g) 0 * r)%R
             (m_fDepth g) (m_aColour g) b)
      end.
      match goal with |- context [rimStep ?x ?y ?d ?col b] =>
        destruct (rimStep_effect x y d col b) as (Ei & El & Elen & Ev & Ec & EL)
      end.
      rewrite Ei, El, Elen, Ev, Ec, EL by lia.
      split; [lia |]. split; [lia |]. split; [exact Hlen |].
      split; [lia |]. split; [lia |].
      rewrite HL, chainIdx_S, Hi, <- app_assoc.
      replace (c0 + 1 + j - 1) with (c0 + j) by lia.
      replace (c0 + 1 + j) with (c0 + j + 1) by lia. reflexivity.
    - destruct (m_aColour g) as [[[? ?] ?] ?].
      unfold linesOf, chainIdx. cbn. rewrite app_nil_r.
      repeat split; try reflexivity; unfold c0, l0; lia. }
  destruct Hinv as (Hi & Hl & Hlen & Hv & Hc & HL). clearbody b1.
  split.
  - unfold linesOf at 1. cbn -[Nat.sub]. rewrite Hl. take_steps. rewrite <- Hl.
    change (take (m_unIndexLines b1) (m_vecIndicesLines b1)) with (linesOf b1).
    rewrite HL, Hi, Nat2Z.id, <- !app_assoc. cbn [app].
    replace (c0 + 1 + n - 1) with (c0 + n) by lia.
    replace (c0 + 1 + n - n) with (c0 + 1) by lia. reflexivity.
  - cbn. rewrite Hi, Hv, Hc. repeat split; lia.
Qed.

Lemma circle_cached_segments_witness :
  ∃ b',
    circle 64 0 (0, 0)%R 1%R (Z.of_nat 4) true graphics64_begun
    = flushIfOver 64 (set_Buf b' graphics64_begun)
    ∧ linesOf b'
      = linesOf (m_Buf graphics64_begun)
        ++ chainIdx (m_unIndex (m_Buf graphics64_begun)) 4
        ++ [m_unIndex (m_Buf graphics64_begun) + 4;
            m_unIndex (m_Buf graphics64_begun) + 1]
    ∧ m_unIndex b' = m_unIndex (m_Buf graphics64_begun) + (4 + 1)
    ∧ m_unIndexVerts b' = m_unIndexVerts (m_Buf graphics64_begun) + 3 * (4 + 1)
    ∧ m_unIndexCol b' = m_unIndexCol (m_Buf graphics64_begun) + 4 * (4 + 1).
Proof.
  apply (circle_cached_segments 64 0 (0, 0)%R 1%R 4 graphics64_begun).
  cbn. lia.
Defined.

(** The branch of [circle] that computes sine and cosine writes the first
    vertex and then, for each round of its loop, one vertex and the segment
    from the vertex before; nothing follows the loop. *)
Lemma circle_uncached_chain (size fuel : nat) (c : Vector2d) (r : R)
    (nSeg : Z) (k : nat) (g : CGraphics) :
  uncachedRounds fuel nSeg = Some k →
  m_unIndexLines (m_Buf g) + 2 * k ≤ length (m_vecIndicesLines (m_Buf g)) →
  ∃ b',
    circle size fuel c r nSeg false g = flushIfOver size (set_Buf b' g)
    ∧ linesOf b' = linesOf (m_Buf g) ++ chainIdx (m_unIndex (m_Buf g)) k
    ∧ m_unIndex b' = m_unIndex (m_Buf g) + (k + 1)
    ∧ m_unIndexVerts b' = m_unIndexVerts (m_Buf g) + 3 * (k + 1)
    ∧ m_unIndexCol b' = m_unIndexCol (m_Buf g) + 4 * (k + 1).
Proof.
  intros Hrounds Hroom. unfold circle. unfold uncachedRounds in Hrounds.
  set (c0 := m_unIndex (m_Buf g)).
  set (l0 := m_unIndexLines (m_Buf g)) in *.
  set (len := length (m_vecIndicesLines (m_Buf g))) in *.
  match goal with |- context [whileAngle fuel ?a ?f ?body ?s] =>
    destruct (whileAngle_inv
      (λ j b, m_unIndex b = c0 + 1 + j
              ∧ m_unIndexLines b = l0 + 2 * j
              ∧ length (m_vecIndicesLines b) = len
              ∧ m_unIndexVerts b = m_unIndexVerts (m_Buf g) + 3 * (j + 1)
              ∧ m_unIndexCol b = m_unIndexCol (m_Buf g) + 4 * (j + 1)
              ∧ linesOf b = linesOf (m_Buf g) ++ chainIdx c0 j)
      body f fuel k 0 a s Hrounds)
      as (b' & Hb' & Hi & Hl & Hlen & Hv & Hc & HL)
  end.
  - intros j a b Hj (Hi & Hl & Hlen & Hv & Hc & HL).
    match goal with |- context [addCost 4 ?b1] =>
      change (addCost 4 b1) with
        (addCost 4
           (rimStep (c.1 + sin (real_of_double a) * r)%R
              (c.2 + cos (real_of_double a) * r)%R
              (m_fDepth g) (m_aColour g) b))
    end.
    match goal with |- context [rimStep ?x ?y ?d ?col b] =>
      destruct (rimStep_effect x y d col b) as (Ei & El & Elen & Ev & Ec & EL)
    end.
    change (m_unIndex (addCost 4 ?b1)) with (m_unIndex b1).
    change (m_unIndexLines (addCost 4 ?b1)) with (m_unIndexLines b1).
    change (m_vecIndicesLines (addCost 4 ?b1)) with (m_vecIndicesLines b1).
    change (m_unIndexVerts (addCost 4 ?b1)) with (m_unIndexVerts b1).
    change (m_unIndexCol (addCost 4 ?b1)) with (m_unIndexCol b1).
    change (linesOf (addCost 4 ?b1)) with (linesOf b1).
    rewrite Ei, El, Elen, Ev, Ec, EL by lia.
    split; [lia |]. split; [lia |]. split; [exact Hlen |].
    split; [lia |]. split; [lia |].
    rewrite HL, chainIdx_S, Hi, <- app_assoc.
    replace (c0 + 1 + j - 1) with (c0 + j) by lia.
    replace (c0 + 1 + j) with (c0 + j + 1) by lia. reflexivity.
  - destruct (m_aColour g) as [[[? ?] ?] ?].
    unfold linesOf, chainIdx. cbn. rewrite app_nil_r.
    repeat split; try reflexivity; unfold c0, l0; lia.
  - exists b'. rewrite Hb'. split; [reflexivity |].
    rewrite HL, Hi, Hv, Hc. cbn [Nat.add].
    repeat split; try lia.
Qed.

(** The branch of [circle] that computes sine and cosine, for every
    segment count [n ≥ 1] on which its loop makes [n - 1] rounds, as it
    does for [n = 4]: [n] vertices and only the [n - 1] segments that join
    each vertex to the next; no segment returns to the first vertex, so the
    circle stays open. *)
Theorem circle_uncached_stays_open (size fuel : nat) (c : Vector2d) (r : R)
    (n : nat) (g : CGraphics) :
  1 ≤ n →
  uncachedRounds fuel (Z.of_nat n) = Some (n - 1) →
  m_unIndexLines (m_Buf g) + 2 * (n - 1)
    ≤ length (m_vecIndicesLines (m_Buf g)) →
  ∃ b',
    circle size fuel c r (Z.of_nat n) false g = flushIfOver size (set_Buf b' g)
    ∧ linesOf b'
      = linesOf (m_Buf g) ++ chainIdx (m_unIndex (m_Buf g)) (n - 1)
    ∧ m_unIndex b' = m_unIndex (m_Buf g) + n
    ∧ m_unIndexVerts b' = m_unIndexVerts (m_Buf g) + 3 * n
    ∧ m_unIndexCol b' = m_unIndexCol (m_Buf g) + 4 * n.
Proof.
  intros Hn Hrounds Hroom.
  destruct (circle_uncached_chain size fuel c r (Z.of_nat n) (n - 1) g
              Hrounds Hroom) as (b' & Hb' & HL & Hi & Hv & Hc).
  exists b'. split; [exact Hb' |]. split; [exact HL |].
  replace (n - 1 + 1) with n in * by lia. auto.
Qed.

Lemma circle_uncached_stays_open_witness :
  ∃ b',
    circle 64 4 (0, 0)%R 1%R (Z.of_nat 4) false graphics64_begun
    = flushIfOver 64 (set_Buf b' graphics64_begun)
    ∧ linesOf b'
      = linesOf (m_Buf graphics64_begun)
        ++ chainIdx (m_unIndex (m_Buf graphics64_begun)) (4 - 1)
    ∧ m_unIndex b' = m_unIndex (m_Buf graphics64_begun) + 4
    ∧ m_unIndexVerts b' = m_unIndexVerts (m_Buf graphics64_begun) + 3 * 4
    ∧ m_unIndexCol b' = m_unIndexCol (m_Buf graphics64_begun) + 4 * 4.
Proof.
  apply (circle_uncached_stays_open 64 4 (0, 0)%R 1%R 4 graphics64_begun);
    [lia | vm_compute; reflexivity | cbn; lia].
Defined.

(** For six segments the loop makes six rounds: seven vertices and six
    segments, the last vertex a rounding error short of the first. *)
Lemma circle_uncached_six_segments :
  ∃ b',
    circle 64 7 (0, 0)%R 1%R 6 false graphics64_begun
    = flushIfOver 64 (set_Buf b' graphics64_begun)
    ∧ linesOf b' = [0; 1; 1; 2; 2; 3; 3; 4; 4; 5; 5; 6]
    ∧ m_unIndex b' = 7.
Proof.
  destruct (circle_uncached_chain 64 7 (0, 0)%R 1%R 6 6 graphics64_begun)
    as (b' & Hb' & HL & Hi & _); [vm_compute; reflexivity | cbn; lia |].
  exists b'. split; [exact Hb' |]. rewrite HL, Hi. split; reflexivity.
Qed.

(** ** Lines and filled circles: examples *)

Lemma drawLoop_unsplit_closes_witness :
  ∃ g',
    drawLoop 64 unitSquare graphics64_begun = Some g'
    ∧ emittedEdges g'
      = flat_map edgesOfSubmission (m_Device graphics64_begun)
        ++ path unitSquare
        ++ [(nth 0 unitSquare (0, 0)%R,
             nth (length unitSquare - 1) unitSquare (0, 0)%R)]
    ∧ closedCycle
        (path unitSquare
         ++ [(nth 0 unitSquare (0, 0)%R,
              nth (length unitSquare - 1) unitSquare (0, 0)%R)])
        unitSquare.
Proof.
  apply (drawLoop_unsplit_closes 64 modeA unitSquare graphics64_begun).
  - unfold freshBatch. cbn. repeat split; reflexivity.
  - cbn. lia.
  - cbn. lia.
Defined.

Lemma filledCircle_cached_closes_fan_witness :
  ∃ b',
    filledCircle 64 0 (0, 0)%R 1%R (Z.of_nat 4) true graphics64_begun
    = flushIfOver 64 (set_Buf b' graphics64_begun)
    ∧ trisOf b'
      = trisOf (m_Buf graphics64_begun)
        ++ concat (fanClosed (m_unIndex (m_Buf graphics64_begun)) 4)
    ∧ length (fanClosed (m_unIndex (m_Buf graphics64_begun)) 4) = 4
    ∧ Forall (λ t, ∃ p q, t = [m_unIndex (m_Buf graphics64_begun); p; q])
        (fanClosed (m_unIndex (m_Buf graphics64_begun)) 4).
Proof.
  apply (filledCircle_cached_closes_fan 64 0 (0, 0)%R 1%R 4 graphics64_begun);
    cbn; lia.
Defined.

(** ** Vertices of a line *)

(** [addVertex] on an odd number of vertices never splits the line,
    however far the cost counter is above the threshold: nothing is
    submitted, the vertex is appended, and the cost grows by four. *)
Theorem addVertex_never_splits_a_pair (size : nat) (v : Vector2d)
    (g : CGraphics) :
  m_nLineNrOfVerts (m_Line g) mod 2 = 1 →
  ∃ g',
    addVertex size v g = Some g'
    ∧ m_Device g' = m_Device g ∧ m_Frame g' = m_Frame g
    ∧ m_uncI (m_Buf g') = m_uncI (m_Buf g) + 4
    ∧ m_unIndexVerts (m_Buf g') = m_unIndexVerts (m_Buf g) + 3
    ∧ m_unIndexCol (m_Buf g') = m_unIndexCol (m_Buf g) + 4
    ∧ m_unIndexLines (m_Buf g') = m_unIndexLines (m_Buf g)
    ∧ m_nLineNrOfVerts (m_Line g') = m_nLineNrOfVerts (m_Line g) + 1.
Proof.
  intros Hodd. unfold addVertex.
  cbn [m_Line set_Buf m_Buf].
  rewrite Hodd. cbn [Nat.eqb]. rewrite andb_false_r.
  cbn [mbind option_bind].
  eexists. split; [reflexivity |].
  destruct (m_aColour g) as [[[c0 c1] c2] c3] eqn:Hcol.
  cbn. rewrite Hcol. cbn. repeat split; lia.
Qed.

Lemma addVertex_never_splits_a_pair_witness :
  ∃ g',
    addVertex 16 (1, 1)%R graphics16_midline = Some g'
    ∧ m_Device g' = m_Device graphics16_midline
    ∧ m_Frame g' = m_Frame graphics16_midline
    ∧ m_uncI (m_Buf g') = m_uncI (m_Buf graphics16_midline) + 4
    ∧ m_unIndexVerts (m_Buf g') = m_unIndexVerts (m_Buf graphics16_midline) + 3
    ∧ m_unIndexCol (m_Buf g') = m_unIndexCol (m_Buf graphics16_midline) + 4
    ∧ m_unIndexLines (m_Buf g') = m_unIndexLines (m_Buf graphics16_midline)
    ∧ m_nLineNrOfVerts (m_Line g')
      = m_nLineNrOfVerts (m_Line graphics16_midline) + 1.
Proof.
  apply (addVertex_never_splits_a_pair 16 (1, 1)%R graphics16_midline).
  reflexivity.
Defined.

(** ** Dots *)

(** A loop invariant for the counting loops whose body can fail. *)
Lemma forEachM_forRange_inv {S : Type} (I : nat → S → Prop) (lo : Z) (n : nat)
    (body : Z → S → option S) (s : S) :
  (∀ j s, j < n → I j s →
     ∃ s', body (lo + Z.of_nat j)%Z s = Some s' ∧ I (Datatypes.S j) s') →
  I 0 s →
  ∃ s', forEachM (forRange lo (lo + Z.of_nat n) 1) body s = Some s' ∧ I n s'.
Proof.
  intros Hstep H0. rewrite forRange_step_1.
  replace (lo + Z.of_nat n - lo)%Z with (Z.of_nat n) by lia.
  induction n as [|n IH].
  - rewrite seqZ_nil by lia. cbn. eauto.
  - rewrite seqZ_S, forEachM_app.
    destruct IH as (s1 & -> & H1); [intros j s' Hj; apply Hstep; lia |].
    cbn. destruct (Hstep n s1 ltac:(lia) H1) as (s2 & -> & H2).
    cbn. eauto.
Qed.

Lemma putDot_points (ds : list Vector2d) (off : Vector2d) (d : R)
    (c : R * R * R * R) (i : Z) (b : Buffers) :
  m_unIndexPoints (putDot ds off d c i b) = 1 + m_unIndexPoints b.
Proof. destruct c as [[[? ?] ?] ?]. reflexivity. Qed.

(** [dots] with an index budget of at least eight hands every dot to the
    device or leaves it waiting, none twice and none lost: the points
    counted for the frame and the points waiting grow together by the
    number of dots.  Over the threshold it makes one submission of what was
    waiting and one for each full batch of an eighth of the budget; below
    it, none.  It does not fail while a render mode is current. *)
Theorem dots_counts_every_dot (size : nat) (m : CRenderMode)
    (ds : list Vector2d) (off : Vector2d) (g : CGraphics) :
  m_pRenderMode (m_Batch g) = Some m →
  8 ≤ size →
  ∃ g',
    dots size ds off g = Some g'
    ∧ m_nPoints (m_Frame g') + m_unIndexPoints (m_Buf g')
      = m_nPoints (m_Frame g) + m_unIndexPoints (m_Buf g) + length ds
    ∧ length (m_Device g')
      = length (m_Device g)
        + (if size / 2 <? m_uncI (m_Buf g) + 4 * length ds
           then 1 + length ds / (size / 8) else 0).
Proof.
  intros Hm Hsize. unfold dots.
  set (B := size / 8).
  assert (HB : 1 ≤ B).
  { unfold B. apply Nat.div_le_lower_bound; lia. }
  destruct (size / 2 <? m_uncI (m_Buf g) + 4 * length ds).
  - rewrite (restartRenderBatchInternal_Some m g Hm).
    cbn [mbind option_bind].
    destruct (B =? 0) eqn:HB0; [apply Nat.eqb_eq in HB0; lia |].
    set (g0 := set_Buf (resetCursors (m_Buf g)) (flushed m g)).
    set (nB := length ds / B).
    match goal with |- context [forEachM _ ?body g0] =>
      destruct (forEachM_forRange_inv
        (λ j h, m_pRenderMode (m_Batch h) = Some m
                ∧ m_unIndexPoints (m_Buf h) = 0
                ∧ m_nPoints (m_Frame h)
                  = m_nPoints (m_Frame g) + m_unIndexPoints (m_Buf g) + j * B
                ∧ length (m_Device h) = length (m_Device g) + 1 + j)
        0 nB body g0) as (g1 & Hg1 & Hm1 & Hp1 & Hn1 & Hd1)
    end.
    + intros j h Hj (Hmh & Hph & Hnh & Hdh).
      rewrite restartRenderBatchInternal_Some with (m := m) by exact Hmh.
      eexists. split; [reflexivity |].
      split; [exact Hmh |]. split; [reflexivity |].
      cbn [m_Frame m_Device m_Buf set_Buf set_Frame set_Device flushed
             countDraws m_nPoints].
      rewrite (forEach_count m_unIndexPoints 1) by (intros; apply putDot_points).
      rewrite length_forRange_1, length_app, Hnh, Hph, Hdh. cbn [length].
      split; [| lia].
      replace (Z.to_nat ((0 + Z.of_nat j + 1) * Z.of_nat B
                         - (0 + Z.of_nat j) * Z.of_nat B)) with B by lia.
      lia.
    + unfold g0. cbn. rewrite length_app. cbn.
      split; [exact Hm |]. split; [reflexivity |]. split; lia.
    + replace (0 + Z.of_nat nB)%Z with (Z.of_nat nB) in Hg1 by lia.
      rewrite Hg1. cbn [mbind option_bind].
      eexists. split; [reflexivity |].
      cbn [m_Frame m_Device m_Buf set_Buf addCost set_uncI m_unIndexPoints].
      rewrite (forEach_count m_unIndexPoints 1) by (intros; apply putDot_points).
      rewrite length_forRange_1, Hp1, Hn1, Hd1.
      assert (B * nB ≤ length ds) by (apply Nat.Div0.mul_div_le).
      split; lia.
  - cbn [mbind option_bind].
    eexists. split; [reflexivity |].
    cbn [m_Frame m_Device m_Buf set_Buf addCost set_uncI m_unIndexPoints].
    rewrite (forEach_count m_unIndexPoints 1) by (intros; apply putDot_points).
    rewrite length_forRange_1. split; lia.
Qed.

Lemma dots_counts_every_dot_witness :
  ∃ g',
    dots 16 (replicate 5 (1, 1)%R) (0, 0)%R graphics16_drawn = Some g'
    ∧ m_nPoints (m_Frame g') + m_unIndexPoints (m_Buf g')
      = m_nPoints (m_Frame graphics16_drawn)
        + m_unIndexPoints (m_Buf graphics16_drawn)
        + length (replicate 5 (1, 1)%R)
    ∧ length (m_Device g')
      = length (m_Device graphics16_drawn)
        + (if 16 / 2 <? m_uncI (m_Buf graphics16_drawn)
                        + 4 * length (replicate 5 (1, 1)%R)
           then 1 + length (replicate 5 (1, 1)%R) / (16 / 8) else 0).
Proof.
  apply (dots_counts_every_dot 16 modeA (replicate 5 (1, 1)%R) (0, 0)%R
           graphics16_drawn); [reflexivity | lia].
Defined.

(** ** Circles and arcs with a dynamic number of segments *)

Section DynamicFacts.
Local Open Scope R_scope.

(** [drawArcDyn] does not depend on the order of its two angles: it swaps
    them when the second is the smaller one. *)
Theorem drawArcDyn_order_of_angles (size : nat) (res : CGraphics → R)
    (ang mn : R) (fuel : nat) (c : Vector2d) (rad a0 aN : R) (g : CGraphics) :
  drawArcDyn size res ang mn fuel c rad a0 aN g
  = drawArcDyn size res ang mn fuel c rad aN a0 g.
Proof.
  unfold drawArcDyn.
  destruct (Rlt_dec aN a0) as [H1 | H1], (Rlt_dec a0 aN) as [H2 | H2];
    try reflexivity; [lra |].
  assert (a0 = aN) as -> by lra. reflexivity.
Qed.



End DynamicFacts.

(** ** A caller of the batch machine: [CWidgetText::draw] *)

Lemma beginRenderBatch_registry (m : CRenderMode) (g g' : CGraphics) :
  beginRenderBatch m false g = Some g' →
  m_RenderModesByName g' = m_RenderModesByName g.
Proof.
  intros H. unfold beginRenderBatch, endRenderBatchForced, submitBatch in H.
  cbn in H.
  destruct (m_RenderModeStack (m_Batch g)) as [|top rest]; cbn in H.
  - injection H as <-. reflexivity.
  - destruct (decide (getRenderModeType top ≠ getRenderModeType m)); cbn in H.
    + destruct (m_pRenderMode (m_Batch g)); cbn in H; [| done].
      injection H as <-. reflexivity.
    + injection H as <-. reflexivity.
Qed.

(** An unforced [endRenderBatch] takes one entry off the render stack, or
    none when there is none. *)
Lemma endRenderBatch_drop (DOM_DEV : bool) (g : CGraphics) :
  batch_wf g →
  ∃ g',
    endRenderBatch DOM_DEV false g = Some g'
    ∧ batch_wf g'
    ∧ m_RenderModeStack (m_Batch g') = drop 1 (m_RenderModeStack (m_Batch g))
    ∧ m_RenderModesByName g' = m_RenderModesByName g.
Proof.
  intros Hwf.
  destruct (endRenderBatch_total DOM_DEV g Hwf) as (g' & He & Hwf').
  exists g'. split; [exact He |]. split; [exact Hwf' |].
  destruct (m_RenderModeStack (m_Batch g)) as [|x rest] eqn:Hst.
  - rewrite endRenderBatch_unbalanced in He by exact Hst.
    injection He as <-. destruct DOM_DEV; cbn; rewrite ?Hst; done.
  - split; [exact (endRenderBatch_pops _ _ _ _ _ Hst He) |].
    unfold endRenderBatch in He. cbn -[beginRenderBatch] in He.
    rewrite Hst in He. destruct rest as [|top rest'].
    + unfold submitBatch in He. cbn in He.
      destruct (m_pRenderMode (m_Batch g)); cbn in He; [| done].
      injection He as <-. reflexivity.
    + destruct (decide (getRenderModeType top ≠ m_RenderModeType (m_Batch g))).
      * unfold submitBatch in He. cbn -[beginRenderBatch] in He.
        destruct (m_pRenderMode (m_Batch g)); cbn -[beginRenderBatch] in He;
          [| done].
        apply beginRenderBatch_registry in He. rewrite He. reflexivity.
      * injection He as <-. reflexivity.
Qed.

(** A batch named by a registered render mode: opened, drawn into by a
    collaborator, and closed again. *)
Lemma named_batch_balanced (DOM_DEV : bool) (draw : CGraphics → option CGraphics)
    (name : string) (m : CRenderMode) (g : CGraphics) :
  keeps_batches draw →
  batch_wf g →
  m_RenderModesByName g !! name = Some m →
  ∃ r g2 g3,
    beginRenderBatchByName name g = Some r
    ∧ draw r.2 = Some g2
    ∧ endRenderBatch DOM_DEV false g2 = Some g3
    ∧ batch_wf g3
    ∧ m_RenderModeStack (m_Batch g3) = m_RenderModeStack (m_Batch g)
    ∧ m_RenderModesByName g3 = m_RenderModesByName g.
Proof.
  intros Hdraw Hwf Hreg. unfold beginRenderBatchByName. rewrite Hreg.
  destruct (beginRenderBatch_total m g Hwf) as (g1 & Hb & _).
  rewrite Hb. cbn [mbind option_bind].
  destruct (Hdraw g1) as (g2 & Hd & Hbat & Hr2).
  assert (Hwf2 : batch_wf g2).
  { eapply batch_wf_same_batch; [exact Hbat |].
    eapply beginRenderBatch_wf, Hb. }
  destruct (endRenderBatch_drop DOM_DEV g2 Hwf2) as (g3 & He & Hwf3 & Hst & Hr3).
  exists (true, g1), g2, g3. cbn [snd].
  split; [reflexivity |]. split; [exact Hd |]. split; [exact He |].
  split; [exact Hwf3 |]. split.
  - rewrite Hst, Hbat, (beginRenderBatch_pushes _ _ _ Hb). reflexivity.
  - rewrite Hr3, Hr2. apply (beginRenderBatch_registry _ _ _ Hb).
Qed.

(** The same with a name that is not registered: the batch is not opened,
    and the [endRenderBatch] that follows closes a batch of the caller
    instead, if there is one. *)
Lemma named_batch_unregistered (DOM_DEV : bool)
    (draw : CGraphics → option CGraphics) (name : string) (g : CGraphics) :
  keeps_batches draw →
  batch_wf g →
  m_RenderModesByName g !! name = None →
  ∃ r g2 g3,
    beginRenderBatchByName name g = Some r
    ∧ draw r.2 = Some g2
    ∧ endRenderBatch DOM_DEV false g2 = Some g3
    ∧ batch_wf g3
    ∧ m_RenderModeStack (m_Batch g3)
      = drop 1 (m_RenderModeStack (m_Batch g))
    ∧ m_RenderModesByName g3 = m_RenderModesByName g.
Proof.
  intros Hdraw Hwf Hreg. unfold beginRenderBatchByName. rewrite Hreg.
  set (g1 := set_Log (m_Log g ++ [msgNotRegistered name]) g).
  destruct (Hdraw g1) as (g2 & Hd & Hbat & Hr2).
  assert (Hwf2 : batch_wf g2)
    by (eapply batch_wf_same_batch; [exact Hbat | exact Hwf]).
  destruct (endRenderBatch_drop DOM_DEV g2 Hwf2) as (g3 & He & Hwf3 & Hst & Hr3).
  exists (false, g1), g2, g3. cbn [snd].
  split; [reflexivity |]. split; [exact Hd |]. split; [exact He |].
  split; [exact Hwf3 |]. split.
  - rewrite Hst, Hbat. reflexivity.
  - rewrite Hr3, Hr2. reflexivity.
Qed.

(** [CWidgetText::draw] with both of its render modes registered returns
    and leaves the render stack as it found it, inside whatever batches its
    caller has open, provided its collaborators leave the batches alone. *)
Theorem widget_draw_is_balanced (DOM_DEV : bool)
    (drawFrame Text_display : CGraphics → option CGraphics)
    (setColor : R → R → R → R → CGraphics → CGraphics)
    (mw mf : CRenderMode) (visuals_null bWarned : bool) (g : CGraphics) :
  keeps_batches drawFrame →
  keeps_batches Text_display →
  (∀ r gr b a, keeps_batches (λ h, Some (setColor r gr b a h))) →
  batch_wf g →
  m_RenderModesByName g !! "world" = Some mw →
  m_RenderModesByName g !! "font" = Some mf →
  ∃ w' g',
    CWidgetText_draw DOM_DEV drawFrame Text_display setColor visuals_null
      bWarned g = Some (w', g')
    ∧ m_RenderModeStack (m_Batch g') = m_RenderModeStack (m_Batch g).
Proof.
  intros Hframe Htext Hcol Hwf Hworld Hfont. unfold CWidgetText_draw.
  destruct (named_batch_balanced DOM_DEV drawFrame "world" mw g Hframe Hwf
              Hworld) as (r1 & g2 & g3 & -> & Hd & He & Hwf3 & Hst3 & Hr3).
  cbn [mbind option_bind]. rewrite Hd. cbn [mbind option_bind].
  rewrite He. cbn [mbind option_bind].
  destruct (Hcol 1%R 1%R 1%R 1%R g3) as (g4 & [= <-] & Hb4 & Hr4).
  set (g4 := setColor 1%R 1%R 1%R 1%R g3) in *.
  assert (Hwf4 : batch_wf g4)
    by (eapply batch_wf_same_batch; [exact Hb4 | exact Hwf3]).
  assert (Hfont4 : m_RenderModesByName g4 !! "font" = Some mf)
    by (rewrite Hr4, Hr3; exact Hfont).
  destruct (named_batch_balanced DOM_DEV Text_display "font" mf g4 Htext Hwf4
              Hfont4) as (r5 & g6 & g7 & -> & Hd6 & He7 & _ & Hst7 & _).
  cbn [mbind option_bind]. rewrite Hd6. cbn [mbind option_bind].
  rewrite He7. cbn [mbind option_bind].
  destruct (DOM_DEV && visuals_null && negb bWarned);
    eexists _, _; (split; [reflexivity |]); cbn [m_Batch set_Log];
    rewrite Hst7, Hb4, Hst3; reflexivity.
Qed.

Lemma keeps_batches_frameOfUnitSquare : keeps_batches frameOfUnitSquare.
Proof. intros h. eexists. split; [reflexivity |]. split; reflexivity. Qed.

Lemma keeps_batches_noText : keeps_batches noText.
Proof. intros h. eexists. split; [reflexivity |]. split; reflexivity. Qed.

Lemma keeps_batches_setColorRGBA (r gr b a : R) :
  keeps_batches (λ h, Some (setColorRGBA r gr b a h)).
Proof. intros h. eexists. split; [reflexivity |]. split; reflexivity. Qed.

Lemma widget_draw_is_balanced_witness :
  ∃ w' g',
    CWidgetText_draw true frameOfUnitSquare noText setColorRGBA true false
      graphics16_widgets = Some (w', g')
    ∧ m_RenderModeStack (m_Batch g')
      = m_RenderModeStack (m_Batch graphics16_widgets).
Proof.
  apply (widget_draw_is_balanced true frameOfUnitSquare noText setColorRGBA
           modeA modeB true false graphics16_widgets).
  - exact keeps_batches_frameOfUnitSquare.
  - exact keeps_batches_noText.
  - exact keeps_batches_setColorRGBA.
  - intros Hne. cbn in Hne. done.
  - reflexivity.
  - reflexivity.
Defined.

(** [CWidgetText::draw] with neither of its render modes registered opens
    no batch, yet calls [endRenderBatch] twice: it returns with the two
    innermost batches of its caller closed. *)
Theorem widget_draw_unregistered_closes_callers_batches (DOM_DEV : bool)
    (drawFrame Text_display : CGraphics → option CGraphics)
    (setColor : R → R → R → R → CGraphics → CGraphics)
    (visuals_null bWarned : bool) (g : CGraphics) :
  keeps_batches drawFrame →
  keeps_batches Text_display →
  (∀ r gr b a, keeps_batches (λ h, Some (setColor r gr b a h))) →
  batch_wf g →
  m_RenderModesByName g !! "world" = None →
  m_RenderModesByName g !! "font" = None →
  ∃ w' g',
    CWidgetText_draw DOM_DEV drawFrame Text_display setColor visuals_null
      bWarned g = Some (w', g')
    ∧ m_RenderModeStack (m_Batch g')
      = drop 2 (m_RenderModeStack (m_Batch g)).
Proof.
  intros Hframe Htext Hcol Hwf Hworld Hfont. unfold CWidgetText_draw.
  destruct (named_batch_unregistered DOM_DEV drawFrame "world" g Hframe Hwf
              Hworld) as (r1 & g2 & g3 & -> & Hd & He & Hwf3 & Hst3 & Hr3).
  cbn [mbind option_bind]. rewrite Hd. cbn [mbind option_bind].
  rewrite He. cbn [mbind option_bind].
  destruct (Hcol 1%R 1%R 1%R 1%R g3) as (g4 & [= <-] & Hb4 & Hr4).
  set (g4 := setColor 1%R 1%R 1%R 1%R g3) in *.
  assert (Hwf4 : batch_wf g4)
    by (eapply batch_wf_same_batch; [exact Hb4 | exact Hwf3]).
  assert (Hfont4 : m_RenderModesByName g4 !! "font" = None)
    by (rewrite Hr4, Hr3; exact Hfont).
  destruct (named_batch_unregistered DOM_DEV Text_display "font" g4 Htext Hwf4
              Hfont4) as (r5 & g6 & g7 & -> & Hd6 & He7 & _ & Hst7 & _).
  cbn [mbind option_bind]. rewrite Hd6. cbn [mbind option_bind].
  rewrite He7. cbn [mbind option_bind].
  destruct (DOM_DEV && visuals_null && negb bWarned);
    eexists _, _; (split; [reflexivity |]); cbn [m_Batch set_Log];
    rewrite Hst7, Hb4, Hst3, drop_drop; reflexivity.
Qed.

Lemma widget_draw_unregistered_closes_callers_batches_witness :
  ∃ w' g',
    CWidgetText_draw true frameOfUnitSquare noText setColorRGBA true false
      graphics64_nested = Some (w', g')
    ∧ m_RenderModeStack (m_Batch g')
      = drop 2 (m_RenderModeStack (m_Batch graphics64_nested)).
Proof.
  apply (widget_draw_unregistered_closes_callers_batches true
           frameOfUnitSquare noText setColorRGBA true false graphics64_nested).
  - exact keeps_batches_frameOfUnitSquare.
  - exact keeps_batches_noText.
  - exact keeps_batches_setColorRGBA.
  - intros _. cbn. eauto.
  - reflexivity.
  - reflexivity.
Defined.

(** ** The arrow of [showVec] *)

Section Arrow.
Local Open Scope R_scope.

Lemma unit_direction (x y : R) :
  sqrt (x * x + y * y) ≠ 0 →
  (x / sqrt (x * x + y * y)) * (x / sqrt (x * x + y * y))
  + (y / sqrt (x * x + y * y)) * (y / sqrt (x * x + y * y)) = 1.
Proof.
  intros Hn.
  assert (Hsq : sqrt (x * x + y * y) * sqrt (x * x + y * y) = x * x + y * y).
  { apply sqrt_sqrt. nra. }
  set (n := sqrt (x * x + y * y)) in *.
  replace (x / n * (x / n) + y / n * (y / n)) with ((x * x + y * y) / (n * n))
    by (field; exact Hn).
  rewrite Hsq. field. rewrite <- Hsq. nra.
Qed.

Lemma norm_scaled_unit (a b k : R) :
  a * a + b * b = 1 → norm (a * k, b * k) = Rabs k.
Proof.
  intros H. unfold norm. cbn.
  replace (a * k * (a * k) + b * k * (b * k)) with ((a * a + b * b) * k²)
    by (unfold Rsqr; ring).
  rewrite H, Rmult_1_l. apply sqrt_Rsqr_abs.
Qed.

End Arrow.

Lemma addVertex_below (size : nat) (v : Vector2d) (g : CGraphics) :
  m_uncI (m_Buf g) + 4 ≤ size / 2 →
  ∃ g',
    addVertex size v g = Some g'
    ∧ m_Buf g'
      = (m_Buf g |> addCost 4 |> putVertex v.1 v.2 (m_fDepth g)
                 |> putColour (m_aColour g))
    ∧ m_Line g'
      = mkLineState (m_nLineNrOfVerts (m_Line g) + 1) (m_PolyType (m_Line g))
          (m_bLineBatchFirst (m_Line g)) (m_bLineBatchCall (m_Line g))
          (m_aVertFirst (m_Line g))
    ∧ m_fDepth g' = m_fDepth g ∧ m_aColour g' = m_aColour g
    ∧ m_Device g' = m_Device g.
Proof.
  intros Hlow. unfold addVertex. cbn [m_Line set_Buf m_Buf addCost set_uncI m_uncI].
  replace (size / 2 <? m_uncI (m_Buf g) + 4) with false
    by (symmetry; apply Nat.ltb_ge; exact Hlow).
  cbn [andb mbind option_bind].
  eexists. split; [reflexivity |]. repeat split; reflexivity.
Qed.

Lemma endLine_single_pair (g : CGraphics) :
  m_PolyType (m_Line g) = LINE_SINGLE →
  m_nLineNrOfVerts (m_Line g) = 2 →
  m_Buf (endLine g) = (m_Buf g |> putLineInc |> putLineInc)
  ∧ m_fDepth (endLine g) = m_fDepth g ∧ m_aColour (endLine g) = m_aColour g
  ∧ m_Device (endLine g) = m_Device g.
Proof.
  intros Hs Hn. unfold endLine. cbn -[forRange].
  rewrite decide_True by exact Hs. rewrite Hn. repeat split; reflexivity.
Qed.

(** [showVec] for a vector of non-zero norm, below the flush threshold and
    with room in the buffers, submits nothing and appends five vertices,
    one segment and one triangle: the shaft from the position to a point
    behind the tip, and a head whose apex is the tip, the position plus
    the vector.  The base of the head is centred on the end of the shaft;
    for a non-zero zoom the end of the shaft lies [5 / |zoom|] behind the
    tip and the base is [4 / |zoom|] wide, whatever the length of the
    vector. *)
Theorem showVec_draws_arrow (size : nat) (v pos : Vector2d) (g : CGraphics) :
  norm v ≠ 0%R →
  m_fCamZoom g ≠ 0%R →
  m_uncI (m_Buf g) + 20 ≤ size / 2 →
  m_unIndexVerts (m_Buf g) + 15 ≤ length (m_vecVertices (m_Buf g)) →
  m_unIndexLines (m_Buf g) + 2 ≤ length (m_vecIndicesLines (m_Buf g)) →
  m_unIndexTriangles (m_Buf g) + 3
    ≤ length (m_vecIndicesTriangles (m_Buf g)) →
  ∃ g' (S OL OR : Vector2d),
    showVec size v pos g = Some g'
    ∧ m_Device g' = m_Device g
    ∧ vertsOf (m_Buf g')
      = vertsOf (m_Buf g)
        ++ flat (m_fDepth g)
             [pos; S; OL; (pos.1 + v.1, pos.2 + v.2)%R; OR]
    ∧ linesOf (m_Buf g')
      = linesOf (m_Buf g) ++ [m_unIndex (m_Buf g); m_unIndex (m_Buf g) + 1]
    ∧ trisOf (m_Buf g')
      = trisOf (m_Buf g)
        ++ [m_unIndex (m_Buf g) + 2; m_unIndex (m_Buf g) + 3;
            m_unIndex (m_Buf g) + 4]
    ∧ m_uncI (m_Buf g') = m_uncI (m_Buf g) + 20
    ∧ (OL.1 + OR.1 = 2 * S.1 ∧ OL.2 + OR.2 = 2 * S.2)%R
    ∧ norm (pos.1 + v.1 - S.1, pos.2 + v.2 - S.2)%R
      = Rabs (5 / m_fCamZoom g)
    ∧ norm (OR.1 - OL.1, OR.2 - OL.2)%R = Rabs (4 / m_fCamZoom g).
Proof.
  intros Hn Hz Hcost HroomV HroomL HroomT. unfold showVec.
  destruct (Req_dec_T (norm v) 0) as [He | _]; [contradiction |].
  cbv zeta. cbn [fst snd].
  set (z := m_fCamZoom g) in *.
  set (a := (v.1 / norm v)%R). set (b := (v.2 / norm v)%R).
  assert (Hab : (a * a + b * b = 1)%R) by (apply unit_direction; exact Hn).
  set (S := ((pos.1 + v.1 - a * 5 / z)%R, (pos.2 + v.2 - b * 5 / z)%R)).
  set (OL := ((pos.1 + v.1 - a * 5 / z + - b * 2 / z)%R,
              (pos.2 + v.2 - b * 5 / z + a * 2 / z)%R)).
  set (OR := ((pos.1 + v.1 - a * 5 / z + b * 2 / z)%R,
              (pos.2 + v.2 - b * 5 / z + - a * 2 / z)%R)).
  destruct (addVertex_below size pos (beginLine LINE_SINGLE g))
    as (g1 & -> & Hb1 & Hl1 & Hd1 & Hc1 & Hv1); [calm; lia |].
  cbn [mbind option_bind].
  destruct (addVertex_below size S g1)
    as (g2 & -> & Hb2 & Hl2 & Hd2 & Hc2 & Hv2).
  { rewrite Hb1. destruct (m_aColour (beginLine LINE_SINGLE g)) as [[[? ?] ?] ?].
    calm. lia. }
  cbn [mbind option_bind].
  destruct (endLine_single_pair g2) as (Hb3 & Hd3 & Hc3 & Hv3).
  { rewrite Hl2, Hl1. reflexivity. }
  { rewrite Hl2, Hl1. reflexivity. }
  unfold filledTriangle, flushIfOver.
  rewrite Hd3, Hc3, Hb3, Hb2, Hd2, Hc2, Hb1, Hd1, Hc1.
  cbn [beginLine m_Buf m_fDepth m_aColour set_Line m_Line].
  destruct (m_aColour g) as [[[c0 c1] c2] c3].
  match goal with |- context [set_Buf ?bb (endLine g2)] => set (b' := bb) end.
  assert (Hcost' : m_uncI b' = m_uncI (m_Buf g) + 20) by (calm; lia).
  replace (size / 2 <? m_uncI (m_Buf (set_Buf b' (endLine g2)))) with false
    by (symmetry; apply Nat.ltb_ge; cbn [m_Buf set_Buf]; lia).
  exists (set_Buf b' (endLine g2)), S, OL, OR.
  split; [reflexivity |].
  cbn [m_Buf set_Buf m_Device].
  split; [rewrite Hv3, Hv2, Hv1; reflexivity |].
  split.
  { unfold b', vertsOf. cbn. take_steps. rewrite <- !app_assoc. reflexivity. }
  split.
  { unfold b', linesOf. cbn. take_steps. rewrite <- !app_assoc. reflexivity. }
  split.
  { unfold b', trisOf. cbn -[Nat.add]. take_steps. rewrite <- !app_assoc.
    cbn [app].
    replace (m_unIndex (m_Buf g) + 1 + 1) with (m_unIndex (m_Buf g) + 2) by lia.
    replace (m_unIndex (m_Buf g) + 2 + 1) with (m_unIndex (m_Buf g) + 3) by lia.
    replace (m_unIndex (m_Buf g) + 3 + 1) with (m_unIndex (m_Buf g) + 4) by lia.
    reflexivity. }
  split; [exact Hcost' |].
  split; [unfold OL, OR, S; cbn; split; field; exact Hz |].
  split.
  - unfold S. cbn.
    replace (pos.1 + v.1 - (pos.1 + v.1 - a * 5 / z))%R with (a * (5 / z))%R
      by (field; exact Hz).
    replace (pos.2 + v.2 - (pos.2 + v.2 - b * 5 / z))%R with (b * (5 / z))%R
      by (field; exact Hz).
    apply norm_scaled_unit, Hab.
  - unfold OL, OR. cbn.
    replace (pos.1 + v.1 - a * 5 / z + b * 2 / z
             - (pos.1 + v.1 - a * 5 / z + - b * 2 / z))%R
      with (b * (4 / z))%R by (field; exact Hz).
    replace (pos.2 + v.2 - b * 5 / z + - a * 2 / z
             - (pos.2 + v.2 - b * 5 / z + a * 2 / z))%R
      with (- a * (4 / z))%R by (field; exact Hz).
    apply norm_scaled_unit. rewrite <- Hab. ring.
Qed.

Lemma showVec_draws_arrow_witness :
  ∃ g' (S OL OR : Vector2d),
    showVec 64 (3, 4)%R (1, 1)%R graphics64_begun = Some g'
    ∧ m_Device g' = m_Device graphics64_begun
    ∧ vertsOf (m_Buf g')
      = vertsOf (m_Buf graphics64_begun)
        ++ flat (m_fDepth graphics64_begun)
             [(1, 1)%R; S; OL; (1 + 3, 1 + 4)%R; OR]
    ∧ linesOf (m_Buf g')
      = linesOf (m_Buf graphics64_begun)
        ++ [m_unIndex (m_Buf graphics64_begun);
            m_unIndex (m_Buf graphics64_begun) + 1]
    ∧ trisOf (m_Buf g')
      = trisOf (m_Buf graphics64_begun)
        ++ [m_unIndex (m_Buf graphics64_begun) + 2;
            m_unIndex (m_Buf graphics64_begun) + 3;
            m_unIndex (m_Buf graphics64_begun) + 4]
    ∧ m_uncI (m_Buf g') = m_uncI (m_Buf graphics64_begun) + 20
    ∧ (OL.1 + OR.1 = 2 * S.1 ∧ OL.2 + OR.2 = 2 * S.2)%R
    ∧ norm (1 + 3 - S.1, 1 + 4 - S.2)%R
      = Rabs (5 / m_fCamZoom graphics64_begun)
    ∧ norm (OR.1 - OL.1, OR.2 - OL.2)%R
      = Rabs (4 / m_fCamZoom graphics64_begun).
Proof.
  apply (showVec_draws_arrow 64 (3, 4)%R (1, 1)%R graphics64_begun).
  - unfold norm. cbn. intros H.
    assert (H25 : (3 * 3 + 4 * 4 = 5 * 5)%R) by lra.
    rewrite H25, sqrt_square in H; lra.
  - cbn. lra.
  - cbn. lia.
  - cbn. lia.
  - cbn. lia.
  - cbn. lia.
Defined.
